(** * guestrace: the stealth breakpoint engine

    A shallow embedding of [src/trace-syscalls.c] (the callback-exposing
    tracer, functions [gt_*]) and of the trap dispatcher and page-record
    teardown of [src/trace_syscalls.c] (the identifier-based tracer,
    functions [vf_*]).

    The tracer talks to three outside parties: libvmi (guest memory,
    address translation, registers), libxc (the Xen domain: memory
    reservation, altp2m views) and glib (hash tables).  They are modelled
    by an explicit [World] that every operation threads through:
    - guest-physical memory is a byte map over the frames the domain owns;
    - hypercalls take their outcome from a script carried by the world, so
      that every failure branch of the source can be exercised;
    - a GHashTable is a [gmap]; its value-destroy notifier is called where
      glib calls it (replace, remove, remove_all, destroy);
    - a callback is the address of a function of the host application:
      calling it is recorded in the trace, an entry callback answers what
      the world says it answers, and no callback writes to the guest. *)

From Stdlib Require Import ZArith List Lia Bool.
From stdpp Require Import base option list gmap strings.

Local Open Scope Z_scope.

(** ** Machine words *)

(** [addr_t] is a 64-bit unsigned integer; arithmetic on it wraps. *)
Definition wrap64 (x : Z) : Z := x mod 2 ^ 64.

(** Number of bits available for page offset. *)
Definition GT_PAGE_OFFSET_BITS : Z := 12.

(** Default page size on our domain. *)
Definition GT_PAGE_SIZE : Z := Z.shiftl 1 GT_PAGE_OFFSET_BITS.

(** Intel breakpoint interrupt (INT 3) instruction. *)
Definition GT_BREAKPOINT_INST : Z := 0xCC.

(** [~0] as the [xen_pfn_t] argument of [xc_altp2m_change_gfn]. *)
Definition INVALID_GFN : Z := 2 ^ 64 - 1.

(** Little-endian byte strings, as libvmi reads and writes 64-bit words of
    an x86 guest. *)
Fixpoint le_bytes (n : nat) (v : Z) : list Z :=
  match n with
  | O => []
  | S k => v mod 256 :: le_bytes k (v / 256)
  end.

Fixpoint le_val (bs : list Z) : Z :=
  match bs with
  | [] => 0
  | b :: rest => b + 256 * le_val rest
  end.

(** ** The world outside the tracer *)

Inductive vmi_mem_access_t := VMI_MEMACCESS_N | VMI_MEMACCESS_RW.

(** What the tracer does to the outside, in program order. *)
Inductive effect :=
| EPause
| EResume
| EWrite (pa : Z) (bs : list Z)
| ESetRip (vcpu : Z) (v : Z)
| ESyscallCb (cb pid tid data : Z)
| ESysretCb (cb pid tid data : Z)
| EPrintSyscall (vcpu : Z) (record : Z)
| EPrintSysret (vcpu : Z) (record : Z).

(** The guest as libvmi shows it. *)
Record Guest := mkGuest {
  kv2p : Z -> Z;            (* kernel virtual to physical; 0 is failure *)
  ksym2v : string -> Z;     (* kernel symbol to virtual; 0 is failure *)
  dtb_to_pid : Z -> Z;
  msr_lstar : option Z;     (* MSR_LSTAR of VCPU 0; None is failure *)
  bytes : gmap Z Z;         (* guest-physical bytes; absent reads as 0 *)
  rip : gmap Z Z            (* RIP written per VCPU *)
}.

(** The Xen domain as libxc shows it. *)
Record Xen := mkXen {
  maxmem : Z;
  xen_faults : list bool;   (* outcome of the coming hypercalls: true fails *)
  gfn_supply : list Z;      (* frames the hypervisor will hand out *)
  reserved : list Z;        (* frames handed out so far, newest first *)
  ram : gset Z;             (* frames backed by memory *)
  altp2m : gmap Z Z;        (* shadow view: remapped gfn -> target gfn *)
  mem_event : gmap Z vmi_mem_access_t;  (* mem-access traps, shadow view *)
  active_view : Z
}.

Record World := mkWorld {
  guest : Guest;
  xen : Xen;
  trace : list effect;      (* newest first *)
  heap_next : Z;            (* next address g_new0 returns *)
  cb_return : Z -> Z -> Z -> Z -> Z;  (* what a system-call callback returns *)
  indeterminate : Z         (* content of an uninitialised local *)
}.

Definition set_guest (f : Guest -> Guest) (w : World) : World :=
  mkWorld (f (guest w)) (xen w) (trace w) (heap_next w) (cb_return w)
          (indeterminate w).

Definition set_xen (f : Xen -> Xen) (w : World) : World :=
  mkWorld (guest w) (f (xen w)) (trace w) (heap_next w) (cb_return w)
          (indeterminate w).

Definition log (e : effect) (w : World) : World :=
  mkWorld (guest w) (xen w) (e :: trace w) (heap_next w) (cb_return w)
          (indeterminate w).

Definition set_bytes (m : gmap Z Z) (g : Guest) : Guest :=
  mkGuest (kv2p g) (ksym2v g) (dtb_to_pid g) (msr_lstar g) m (rip g).

Definition set_rip (m : gmap Z Z) (g : Guest) : Guest :=
  mkGuest (kv2p g) (ksym2v g) (dtb_to_pid g) (msr_lstar g) (bytes g) m.

(** *** libvmi *)

Definition vmi_translate_kv2p (w : World) (va : Z) : Z := kv2p (guest w) va.

Definition vmi_translate_ksym2v (w : World) (sym : string) : Z :=
  ksym2v (guest w) sym.

Definition vmi_dtb_to_pid (w : World) (cr3 : Z) : Z := dtb_to_pid (guest w) cr3.

Definition vmi_pause_vm (w : World) : World := log EPause w.
Definition vmi_resume_vm (w : World) : World := log EResume w.

(** A physical address can be accessed when its frame is backed. *)
Definition valid_pa (w : World) (pa : Z) : bool :=
  bool_decide (Z.shiftr pa GT_PAGE_OFFSET_BITS ∈ ram (xen w)).

Definition byte_at (w : World) (pa : Z) : Z := default 0 (bytes (guest w) !! pa).

(** Length of the longest accessible prefix of [pa, pa + n). *)
Fixpoint valid_prefix (w : World) (pa : Z) (n : nat) : nat :=
  match n with
  | O => O
  | S k => if valid_pa w pa then S (valid_prefix w (pa + 1) k) else O
  end.

Fixpoint load_bytes (w : World) (pa : Z) (n : nat) : list Z :=
  match n with
  | O => []
  | S k => byte_at w pa :: load_bytes w (pa + 1) k
  end.

Fixpoint store_bytes (m : gmap Z Z) (pa : Z) (bs : list Z) : gmap Z Z :=
  match bs with
  | [] => m
  | b :: rest => store_bytes (<[pa := b]> m) (pa + 1) rest
  end.

(** [vmi_read_pa]: the bytes read; fewer than [n] when the read stops at a
    frame that is not backed. *)
Definition vmi_read_pa (w : World) (pa : Z) (n : nat) : list Z :=
  load_bytes w pa (valid_prefix w pa n).

(** [vmi_write_pa]: the number of bytes written and the world after. *)
Definition vmi_write_pa (w : World) (pa : Z) (buf : list Z) : nat * World :=
  let k := valid_prefix w pa (length buf) in
  match k with
  | O => (O, w)
  | _ => (k, log (EWrite pa (take k buf))
               (set_guest (fun g => set_bytes (store_bytes (bytes g) pa (take k buf)) g) w))
  end.

Definition vmi_read_8_pa (w : World) (pa : Z) : option Z :=
  match vmi_read_pa w pa 1 with
  | [b] => Some b
  | _ => None
  end.

Definition vmi_read_64_pa (w : World) (pa : Z) : option Z :=
  let bs := vmi_read_pa w pa 8 in
  if Nat.eqb (length bs) 8 then Some (le_val bs) else None.

(** The [bool] is [VMI_SUCCESS == status]. *)
Definition vmi_write_8_pa (w : World) (pa : Z) (v : Z) : bool * World :=
  let '(k, w') := vmi_write_pa w pa [v mod 256] in (Nat.eqb k 1, w').

Definition vmi_write_64_pa (w : World) (pa : Z) (v : Z) : bool * World :=
  let '(k, w') := vmi_write_pa w pa (le_bytes 8 v) in (Nat.eqb k 8, w').

Definition vmi_set_vcpureg_rip (w : World) (v : Z) (vcpu : Z) : World :=
  log (ESetRip vcpu v) (set_guest (fun g => set_rip (<[vcpu := v]> (rip g)) g) w).

Definition vmi_get_vcpureg_lstar (w : World) : option Z := msr_lstar (guest w).

(** *** libxc *)

Definition set_xen_faults (fs : list bool) (x : Xen) : Xen :=
  mkXen (maxmem x) fs (gfn_supply x) (reserved x) (ram x) (altp2m x)
        (mem_event x) (active_view x).

Definition set_maxmem (m : Z) (x : Xen) : Xen :=
  mkXen m (xen_faults x) (gfn_supply x) (reserved x) (ram x) (altp2m x)
        (mem_event x) (active_view x).

Definition take_gfn (gfn : Z) (rest : list Z) (x : Xen) : Xen :=
  mkXen (maxmem x) (xen_faults x) rest (gfn :: reserved x) (ram x) (altp2m x)
        (mem_event x) (active_view x).

Definition set_ram (r : gset Z) (x : Xen) : Xen :=
  mkXen (maxmem x) (xen_faults x) (gfn_supply x) (reserved x) r (altp2m x)
        (mem_event x) (active_view x).

Definition set_altp2m (m : gmap Z Z) (x : Xen) : Xen :=
  mkXen (maxmem x) (xen_faults x) (gfn_supply x) (reserved x) (ram x) m
        (mem_event x) (active_view x).

Definition set_mem_event (m : gmap Z vmi_mem_access_t) (x : Xen) : Xen :=
  mkXen (maxmem x) (xen_faults x) (gfn_supply x) (reserved x) (ram x)
        (altp2m x) m (active_view x).

Definition set_active_view (v : Z) (x : Xen) : Xen :=
  mkXen (maxmem x) (xen_faults x) (gfn_supply x) (reserved x) (ram x)
        (altp2m x) (mem_event x) v.

(** Every hypercall first learns from the script whether it fails.  An
    exhausted script means success. *)
Definition hypercall (w : World) : bool * World :=
  match xen_faults (xen w) with
  | [] => (false, w)
  | f :: rest => (f, set_xen (set_xen_faults rest) w)
  end.

(** The [Z] each hypercall returns is its [rc]: 0, or -1 on failure. *)
Definition xc_domain_setmaxmem (w : World) (size : Z) : Z * World :=
  let '(fails, w1) := hypercall w in
  if fails then (-1, w1) else (0, set_xen (set_maxmem size) w1).

(** Returns [rc] and the content of [gfn] after the call ([gfn] is 0 on
    entry and is left alone on failure). *)
Definition xc_domain_increase_reservation_exact (w : World) : Z * Z * World :=
  let '(fails, w1) := hypercall w in
  if fails then (-1, 0, w1)
  else match gfn_supply (xen w1) with
       | [] => (-1, 0, w1)
       | gfn :: rest => (0, gfn, set_xen (take_gfn gfn rest) w1)
       end.

Definition xc_domain_populate_physmap_exact (w : World) (gfn : Z) : Z * World :=
  let '(fails, w1) := hypercall w in
  if fails then (-1, w1)
  else (0, set_xen (fun x => set_ram ({[gfn]} ∪ ram x) x) w1).

Definition xc_domain_decrease_reservation_exact (w : World) (gfn : Z) : Z * World :=
  let '(fails, w1) := hypercall w in
  if fails then (-1, w1)
  else (0, set_xen (fun x => set_ram (ram x ∖ {[gfn]}) x) w1).

(** In [view], [old_gfn] is made to show the memory of [new_gfn]; with
    [new_gfn = ~0] the remapping of [old_gfn] is dropped.  The model keeps
    the remappings of the shadow view only, the one view the tracer ever
    changes. *)
Definition xc_altp2m_change_gfn (w : World) (view old_gfn new_gfn : Z) : Z * World :=
  let '(fails, w1) := hypercall w in
  if fails then (-1, w1)
  else if new_gfn =? INVALID_GFN
       then (0, set_xen (fun x => set_altp2m (delete old_gfn (altp2m x)) x) w1)
       else (0, set_xen (fun x => set_altp2m (<[old_gfn := new_gfn]> (altp2m x)) x) w1).

Definition xc_altp2m_switch_to_view (w : World) (view : Z) : Z * World :=
  let '(fails, w1) := hypercall w in
  if fails then (-1, w1) else (0, set_xen (set_active_view view) w1).

(** The model keeps no list of the views that exist nor whether altp2m is
    enabled: these two calls only take their outcome from the script. *)
Definition xc_altp2m_destroy_view (w : World) (view : Z) : Z * World :=
  let '(fails, w1) := hypercall w in (if fails then -1 else 0, w1).

Definition xc_altp2m_set_domain_state (w : World) (state : bool) : Z * World :=
  let '(fails, w1) := hypercall w in (if fails then -1 else 0, w1).

(** The source ignores the status of [vmi_set_mem_event]. *)
Definition vmi_set_mem_event (w : World) (frame : Z) (access : vmi_mem_access_t)
    (view : Z) : World :=
  set_xen (fun x => set_mem_event (<[frame := access]> (mem_event x)) x) w.

(** [g_new0]: a fresh address. *)
Definition g_new0 (w : World) : Z * World :=
  (heap_next w,
   mkWorld (guest w) (xen w) (trace w) (heap_next w + 1) (cb_return w)
           (indeterminate w)).

(** ** The tracer's records *)

(** A flag set of [event_response_t]: which of the response bits the
    callback returns to libvmi. *)
Record event_response_t := mkResponse {
  emulate : bool;
  toggle_singlestep : bool;
  vmm_pagetable_id : bool
}.

Definition VMI_EVENT_RESPONSE_NONE := mkResponse false false false.
Definition VMI_EVENT_RESPONSE_EMULATE := mkResponse true false false.
Definition VMI_EVENT_RESPONSE_TOGGLE_SINGLESTEP := mkResponse false true false.
Definition VMI_EVENT_RESPONSE_VMM_PAGETABLE_ID := mkResponse false false true.

(** The [|] of two responses. *)
Definition response_or (a b : event_response_t) : event_response_t :=
  mkResponse (emulate a || emulate b)
             (toggle_singlestep a || toggle_singlestep b)
             (vmm_pagetable_id a || vmm_pagetable_id b).

(** The fields of [vmi_event_t] the dispatchers read or write. *)
Record vmi_event_t := mkEvent {
  gla : Z;        (* interrupt_event.gla *)
  rsp : Z;        (* x86_regs->rsp *)
  cr3 : Z;        (* x86_regs->cr3 *)
  vcpu_id : Z;
  reinject : Z;   (* interrupt_event.reinject *)
  slat_id : Z
}.

Definition set_reinject (v : Z) (e : vmi_event_t) : vmi_event_t :=
  mkEvent (gla e) (rsp e) (cr3 e) (vcpu_id e) v (slat_id e).

Definition set_slat_id (v : Z) (e : vmi_event_t) : vmi_event_t :=
  mkEvent (gla e) (rsp e) (cr3 e) (vcpu_id e) (reinject e) v.

(** A record which describes the information associated with a physical
    address which contains a breakpoint.  Its fields are never written
    after it is created, so a pointer to it is modelled by the record
    itself; [addr] is the address [g_new0] gave it, its identity.
    [parent] is the key of the owning page record in
    [gt_page_record_collection]. *)
Record gt_paddr_record := mkPaddr {
  addr : Z;
  offset : Z;
  syscall_cb : Z;
  sysret_cb : Z;
  parent : Z;
  data : Z
}.

(** A record which describes a frame; [children] is keyed by offset. *)
Record gt_page_record := mkPage {
  frame : Z;
  shadow_frame : Z;
  children : gmap Z gt_paddr_record
}.

(** The state associated with a system call in flight. *)
Record gt_syscall_state := mkState {
  syscall_paddr_record : gt_paddr_record;
  state_data : Z;
  thread_id : Z
}.

(** [GTLoop], with the file's static [gt_interrupted] flag. *)
Record GTLoop := mkLoop {
  shadow_view : Z;
  init_mem_size : Z;
  curr_mem_size : Z;
  return_addr_width : Z;
  return_addr : Z;
  trampoline_addr : Z;
  gt_page_translation : gmap Z Z;                 (* frame -> shadow frame *)
  gt_page_record_collection : gmap Z gt_page_record;  (* shadow frame -> *)
  gt_ret_addr_mapping : gmap Z gt_syscall_state;  (* thread id -> *)
  gt_interrupted : bool
}.

Definition set_curr_mem_size (v : Z) (l : GTLoop) : GTLoop :=
  mkLoop (shadow_view l) (init_mem_size l) v (return_addr_width l)
         (return_addr l) (trampoline_addr l) (gt_page_translation l)
         (gt_page_record_collection l) (gt_ret_addr_mapping l)
         (gt_interrupted l).

Definition set_page_translation (m : gmap Z Z) (l : GTLoop) : GTLoop :=
  mkLoop (shadow_view l) (init_mem_size l) (curr_mem_size l)
         (return_addr_width l) (return_addr l) (trampoline_addr l) m
         (gt_page_record_collection l) (gt_ret_addr_mapping l)
         (gt_interrupted l).

Definition set_page_record_collection (m : gmap Z gt_page_record) (l : GTLoop)
    : GTLoop :=
  mkLoop (shadow_view l) (init_mem_size l) (curr_mem_size l)
         (return_addr_width l) (return_addr l) (trampoline_addr l)
         (gt_page_translation l) m (gt_ret_addr_mapping l) (gt_interrupted l).

Definition set_ret_addr_mapping (m : gmap Z gt_syscall_state) (l : GTLoop)
    : GTLoop :=
  mkLoop (shadow_view l) (init_mem_size l) (curr_mem_size l)
         (return_addr_width l) (return_addr l) (trampoline_addr l)
         (gt_page_translation l) (gt_page_record_collection l) m
         (gt_interrupted l).

Definition set_interrupted (b : bool) (l : GTLoop) : GTLoop :=
  mkLoop (shadow_view l) (init_mem_size l) (curr_mem_size l)
         (return_addr_width l) (return_addr l) (trampoline_addr l)
         (gt_page_translation l) (gt_page_record_collection l)
         (gt_ret_addr_mapping l) b.

(** One element of the array given to [gt_loop_set_cbs]; the array's
    terminator (the element whose name is NULL) ends the list. *)
Record GTSyscallCallback := mkCallback {
  name : string;
  cb_syscall_cb : Z;
  cb_sysret_cb : Z;
  user_data : Z
}.

(** ** trace-syscalls.c *)

(** Restore a stack return pointer; the value-destroy notifier of
    [gt_ret_addr_mapping]. *)
Definition gt_restore_return_addr (l : GTLoop) (w : World)
    (sys_state : gt_syscall_state) : World :=
  let pa := vmi_translate_kv2p w (thread_id sys_state) in
  if pa =? 0 then w
  else snd (vmi_write_64_pa w pa (return_addr l)).

(** Remove the breakpoint associated with paddr_record. *)
Definition gt_remove_breakpoint (w : World) (page : gt_page_record)
    (paddr_record : gt_paddr_record) : bool * World :=
  let frame := frame page in
  let shadow_frame := shadow_frame page in
  let offset := offset paddr_record in
  match vmi_read_8_pa w (wrap64 (wrap64 (Z.shiftl frame GT_PAGE_OFFSET_BITS) + offset)) with
  | None => (false, w)
  | Some curr_inst =>
      vmi_write_8_pa w
        (wrap64 (wrap64 (Z.shiftl shadow_frame GT_PAGE_OFFSET_BITS) + offset))
        curr_inst
  end.

(** The value-destroy notifier of a page record's [children]. *)
Definition gt_destroy_paddr_record (page : gt_page_record) (w : World)
    (paddr_record : gt_paddr_record) : World :=
  snd (gt_remove_breakpoint w page paddr_record).

(** [g_hash_table_destroy] and [g_hash_table_remove_all]: the notifier
    runs on every value. *)
Definition destroy_values {V} (notify : World -> V -> World) (m : gmap Z V)
    (w : World) : World :=
  foldl notify w (map snd (map_to_list m)).

(** The value-destroy notifier of [gt_page_record_collection]. *)
Definition gt_destroy_page_record (l : GTLoop) (w : World)
    (page_record : gt_page_record) : World :=
  let w1 := destroy_values (gt_destroy_paddr_record page_record)
                           (children page_record) w in
  (* Stop monitoring this page. *)
  let w2 := vmi_set_mem_event w1 (frame page_record) VMI_MEMACCESS_N
                              (shadow_view l) in
  let w3 := snd (xc_altp2m_change_gfn w2 (shadow_view l)
                                      (shadow_frame page_record) INVALID_GFN) in
  snd (xc_domain_decrease_reservation_exact w3 (shadow_frame page_record)).

(** Return the paddr_record associated with the given physical address. *)
Definition gt_paddr_record_from_pa (l : GTLoop) (pa : Z) : option gt_paddr_record :=
  let frame := Z.shiftr pa GT_PAGE_OFFSET_BITS in
  let offset := pa mod GT_PAGE_SIZE in
  let shadow := default 0 (gt_page_translation l !! frame) in
  if shadow =? 0 then None
  else match gt_page_record_collection l !! shadow with
       | None => None
       | Some page_record => children page_record !! offset
       end.

(** Return the paddr_record associated with the given virtual address. *)
Definition gt_paddr_record_from_va (l : GTLoop) (w : World) (va : Z)
    : option gt_paddr_record :=
  gt_paddr_record_from_pa l (vmi_translate_kv2p w va).

(** Callback after a step event on any VCPU. *)
Definition gt_singlestep_cb (l : GTLoop) (event : vmi_event_t)
    : event_response_t * vmi_event_t :=
  (response_or VMI_EVENT_RESPONSE_TOGGLE_SINGLESTEP
               VMI_EVENT_RESPONSE_VMM_PAGETABLE_ID,
   set_slat_id (shadow_view l) event).

(** Callback invoked on a R/W of a monitored page. *)
Definition gt_mem_rw_cb (event : vmi_event_t) : event_response_t * vmi_event_t :=
  (response_or VMI_EVENT_RESPONSE_TOGGLE_SINGLESTEP
               VMI_EVENT_RESPONSE_VMM_PAGETABLE_ID,
   set_slat_id 0 event).

(** [g_hash_table_insert] on [gt_ret_addr_mapping]: a value already
    stored under the key is handed to the notifier. *)
Definition ret_addr_mapping_insert (l : GTLoop) (w : World) (key : Z)
    (state : gt_syscall_state) : GTLoop * World :=
  let w1 := match gt_ret_addr_mapping l !! key with
            | Some old => gt_restore_return_addr l w old
            | None => w
            end in
  (set_ret_addr_mapping (<[key := state]> (gt_ret_addr_mapping l)) l, w1).

(** [g_hash_table_remove] on [gt_ret_addr_mapping]. *)
Definition ret_addr_mapping_remove (l : GTLoop) (w : World) (key : Z)
    : GTLoop * World :=
  match gt_ret_addr_mapping l !! key with
  | Some old =>
      (set_ret_addr_mapping (delete key (gt_ret_addr_mapping l)) l,
       gt_restore_return_addr l w old)
  | None => (l, w)
  end.

(** Service a triggered breakpoint. *)
Definition gt_breakpoint_cb (l : GTLoop) (w : World) (event : vmi_event_t)
    : event_response_t * vmi_event_t * GTLoop * World :=
  let response := VMI_EVENT_RESPONSE_NONE in
  let event := set_reinject 0 event in
  if negb (gla event =? trampoline_addr l) then
    (* Type-one breakpoint (system call). *)
    match gt_paddr_record_from_va l w (gla event) with
    | None =>
        (* Assume we didn't emplace interrupt. *)
        (response, set_reinject 1 event, l, w)
    | Some record =>
        (* Set VCPUs SLAT to use original for one step. *)
        let event := set_slat_id 0 event in
        (* Turn on single-step and switch slat_id after return. *)
        let response := response_or VMI_EVENT_RESPONSE_TOGGLE_SINGLESTEP
                                    VMI_EVENT_RESPONSE_VMM_PAGETABLE_ID in
        let thread_id := rsp event in
        let return_loc := vmi_translate_kv2p w thread_id in
        if return_loc =? 0 then (response, event, l, w)
        else
          match vmi_read_64_pa w return_loc with
          | None => (response, event, l, w)
          | Some return_addr' =>
              if negb (return_addr' =? return_addr l) then
                (* Return pointer not as expected. *)
                (response, event, l, w)
              else
                let pid := vmi_dtb_to_pid w (cr3 event) in
                (* Invoke system-call callback in record. *)
                let data' := cb_return w (syscall_cb record) pid thread_id
                                       (data record) in
                let w1 := log (ESyscallCb (syscall_cb record) pid thread_id
                                          (data record)) w in
                let state := mkState record data' thread_id in
                (* Record system-call state. *)
                let '(l1, w2) := ret_addr_mapping_insert l w1 thread_id state in
                (* Overwrite stack to return to trampoline. *)
                let w3 := snd (vmi_write_64_pa w2 return_loc (trampoline_addr l)) in
                (response, event, l1, w3)
          end
    end
  else
    (* Type-two breakpoint (system return). *)
    let thread_id := wrap64 (rsp event - return_addr_width l) in
    match gt_ret_addr_mapping l !! thread_id with
    | Some state =>
        let pid := vmi_dtb_to_pid w (cr3 event) in
        let w1 := log (ESysretCb (sysret_cb (syscall_paddr_record state)) pid
                                 thread_id (state_data state)) w in
        let w2 := vmi_set_vcpureg_rip w1 (return_addr l) (vcpu_id event) in
        let '(l1, w3) := ret_addr_mapping_remove l w2 thread_id in
        (response, event, l1, w3)
    | None => (response, event, l, w)
    end.

(** The scan of [gt_find_trampoline_addr]: [code] is what is left of the
    array from index [curr_inst] on. *)
Fixpoint look_for_int3 (lstar : Z) (code : list Z) (curr_inst : Z) : Z :=
  match code with
  | [] => 0
  | b :: rest =>
      if b =? GT_BREAKPOINT_INST then wrap64 (lstar + curr_inst)
      else look_for_int3 lstar rest (curr_inst + 1)
  end.

(** Search the kernel code address space for an existing int 3
    instruction. *)
Definition gt_find_trampoline_addr (w : World) : Z :=
  match vmi_get_vcpureg_lstar w with
  | None => 0
  | Some lstar =>
      let lstar_p := vmi_translate_kv2p w lstar in
      if lstar_p =? 0 then 0
      else
        (* Read kernel instructions into code. *)
        let code := vmi_read_pa w lstar_p (Z.to_nat GT_PAGE_SIZE) in
        if (Z.of_nat (length code) <? GT_PAGE_SIZE) then 0
        else look_for_int3 lstar code 0
  end.

(** Allocate a new page of memory in the guest's address space. *)
Definition gt_allocate_shadow_frame (l : GTLoop) (w : World)
    : Z * GTLoop * World :=
  let proposed_mem_size := wrap64 (curr_mem_size l + GT_PAGE_SIZE) in
  let '(rc, w1) := xc_domain_setmaxmem w proposed_mem_size in
  if rc <? 0 then (0, l, w1)
  else
    let l1 := set_curr_mem_size proposed_mem_size l in
    let '(rc, gfn, w2) := xc_domain_increase_reservation_exact w1 in
    if rc <? 0 then (gfn, l1, w2)
    else
      let '(rc, w3) := xc_domain_populate_physmap_exact w2 gfn in
      if rc <? 0 then (0, l1, w3)
      else (gfn, l1, w3).

(** The tail of [gt_setup_mem_trap]: create the physical-address record
    and add it to the page record stored under [shadow]. *)
Definition gt_add_paddr_record (l : GTLoop) (w : World)
    (page_record : gt_page_record) (shadow shadow_offset : Z)
    (syscall_cb sysret_cb user_data : Z)
    : option gt_paddr_record * GTLoop * World :=
  let '(p, w1) := g_new0 w in
  let paddr_record :=
    mkPaddr p shadow_offset syscall_cb sysret_cb shadow user_data in
  (* Write interrupt to our shadow page at the correct location. *)
  let '(ok, w2) :=
    vmi_write_8_pa w1
      (wrap64 (wrap64 (Z.shiftl shadow GT_PAGE_OFFSET_BITS) + shadow_offset))
      GT_BREAKPOINT_INST in
  if negb ok then (Some paddr_record, l, w2)
  else
    let page_record' :=
      mkPage (frame page_record) (shadow_frame page_record)
             (<[shadow_offset := paddr_record]> (children page_record)) in
    (Some paddr_record,
     set_page_record_collection
       (<[shadow := page_record']> (gt_page_record_collection l)) l,
     w2).

(** The head of [gt_setup_mem_trap]: with no shadow frame known for
    [frame] ([shadow] is 0), allocate one and activate it in the shadow
    view.  [inr] is the jump to [done] with no record. *)
Definition gt_ensure_shadow_frame (l : GTLoop) (w : World) (frame shadow : Z)
    : Z * GTLoop * World + GTLoop * World :=
  if shadow =? 0 then
    (* Record does not exist; allocate new page and create record. *)
    let '(shadow, l1, w1) := gt_allocate_shadow_frame l w in
    if shadow =? 0 then inr (l1, w1)
    else
      let l2 := set_page_translation
                  (<[frame := shadow]> (gt_page_translation l1)) l1 in
      (* Activate in shadow view. *)
      let '(xc_status, w2) :=
        xc_altp2m_change_gfn w1 (shadow_view l2) frame shadow in
      if xc_status <? 0 then inr (l2, w2)
      else inl (shadow, l2, w2)
  else inl (shadow, l, w).

(** Ensure there exists a memory trap on the shadow page containing
    virtual address va, and create a page record if it does not yet exist.
    Add a physical-address record corresponding to va to the page record's
    collection of children. *)
Definition gt_setup_mem_trap (l : GTLoop) (w : World) (va : Z)
    (syscall_cb sysret_cb user_data : Z)
    : option gt_paddr_record * GTLoop * World :=
  let pa := vmi_translate_kv2p w va in
  if pa =? 0 then (None, l, w)
  else
    let frame := Z.shiftr pa GT_PAGE_OFFSET_BITS in
    let shadow := default 0 (gt_page_translation l !! frame) in
    let shadow_offset := pa mod GT_PAGE_SIZE in
    match gt_ensure_shadow_frame l w frame shadow with
    | inr (l', w') => (None, l', w')
    | inl (shadow, l1, w1) =>
        match gt_page_record_collection l1 !! shadow with
        | None =>
            (* No record for this page yet; create one.  Copy page to
               shadow. *)
            let buff := vmi_read_pa w1 (wrap64 (Z.shiftl frame GT_PAGE_OFFSET_BITS))
                                    (Z.to_nat GT_PAGE_SIZE) in
            if negb (Z.of_nat (length buff) =? GT_PAGE_SIZE) then (None, l1, w1)
            else
              let '(ret, w2) :=
                vmi_write_pa w1 (wrap64 (Z.shiftl shadow GT_PAGE_OFFSET_BITS))
                             buff in
              if negb (Z.of_nat ret =? GT_PAGE_SIZE) then (None, l1, w2)
              else
                (* Initialize record of this page. *)
                let page_record := mkPage frame shadow ∅ in
                let l2 := set_page_record_collection
                            (<[shadow := page_record]>
                               (gt_page_record_collection l1)) l1 in
                (* Establish callback on a R/W of this page. *)
                let w3 := vmi_set_mem_event w2 frame VMI_MEMACCESS_RW
                                            (shadow_view l2) in
                gt_add_paddr_record l2 w3 page_record shadow shadow_offset
                                    syscall_cb sysret_cb user_data
        | Some page_record =>
            (* We already have a page record for this page in collection. *)
            match children page_record !! shadow_offset with
            | Some paddr_record =>
                (* We have a paddr record too; done (no error). *)
                (Some paddr_record, l1, w1)
            | None =>
                gt_add_paddr_record l1 w1 page_record shadow shadow_offset
                                    syscall_cb sysret_cb user_data
            end
        end
    end.

(** Sets the callback functions associated with [kernel_func]. *)
Definition gt_loop_set_cb (l : GTLoop) (w : World) (kernel_func : string)
    (syscall_cb sysret_cb user_data : Z) : bool * GTLoop * World :=
  let w1 := vmi_pause_vm w in
  let sysaddr := vmi_translate_ksym2v w1 kernel_func in
  if sysaddr =? 0 then (false, l, vmi_resume_vm w1)
  else
    let '(syscall_trap, l1, w2) :=
      gt_setup_mem_trap l w1 sysaddr syscall_cb sysret_cb user_data in
    match syscall_trap with
    | None => (false, l1, vmi_resume_vm w2)
    | Some _ => (true, l1, vmi_resume_vm w2)
    end.

(** The loop of [gt_loop_set_cbs], entered with [count] callbacks set so
    far and [callbacks] left before the terminator. *)
Fixpoint gt_loop_set_cbs_from (count : Z) (l : GTLoop) (w : World)
    (callbacks : list GTSyscallCallback) : Z * GTLoop * World :=
  match callbacks with
  | [] => (count, l, w)
  | c :: rest =>
      if gt_interrupted l then (count, l, w)
      else
        let '(ok, l1, w1) :=
          gt_loop_set_cb l w (name c) (cb_syscall_cb c) (cb_sysret_cb c)
                         (user_data c) in
        gt_loop_set_cbs_from (if ok then count + 1 else count) l1 w1 rest
  end.

(** A convenience function which repeatedly invokes [gt_loop_set_cb]. *)
Definition gt_loop_set_cbs (l : GTLoop) (w : World)
    (callbacks : list GTSyscallCallback) : Z * GTLoop * World :=
  gt_loop_set_cbs_from 0 l w callbacks.

(** What the batch is meant to be: set-callback on each entry in turn,
    with the outcome of each. *)
Fixpoint set_cb_per_entry (l : GTLoop) (w : World)
    (callbacks : list GTSyscallCallback) : list bool * GTLoop * World :=
  match callbacks with
  | [] => ([], l, w)
  | c :: rest =>
      let '(ok, l1, w1) :=
        gt_loop_set_cb l w (name c) (cb_syscall_cb c) (cb_sysret_cb c)
                       (user_data c) in
      let '(oks, l2, w2) := set_cb_per_entry l1 w1 rest in
      (ok :: oks, l2, w2)
  end.

(** The number of entries set-callback reported installed. *)
Definition installed (oks : list bool) : Z :=
  Z.of_nat (count_occ Bool.bool_dec oks true).

(** Stops the loop from running. *)
Definition gt_loop_quit (l : GTLoop) (w : World) : GTLoop * World :=
  let w1 := vmi_pause_vm w in
  let l1 := set_page_translation ∅ l in
  let w2 := destroy_values (gt_restore_return_addr l1)
                           (gt_ret_addr_mapping l1) w1 in
  let l2 := set_ret_addr_mapping ∅ l1 in
  let w3 := destroy_values (gt_destroy_page_record l2)
                           (gt_page_record_collection l2) w2 in
  let l3 := set_page_record_collection ∅ l2 in
  let w4 := snd (xc_altp2m_switch_to_view w3 0) in
  let w5 := vmi_resume_vm w4 in
  (set_interrupted true l3, w5).


(** ** trace_syscalls.c *)

Module VF.

(** As [gt_paddr_record]; [identifier] takes the place of the callbacks. *)
Record vf_paddr_record := mkPaddr {
  addr : Z;
  offset : Z;
  parent : Z;
  identifier : Z
}.

Record vf_page_record := mkPage {
  frame : Z;
  shadow_page : Z;
  children : gmap Z vf_paddr_record
}.

(** [vf_state], with the file's globals [return_point_addr] and
    [trampoline_addr]. *)
Record vf_state := mkVfState {
  shadow_view : Z;
  vf_page_translation : gmap Z Z;
  vf_page_record_collection : gmap Z vf_page_record;
  vf_ret_addr_mapping : gmap Z vf_paddr_record;
  return_point_addr : Z;
  trampoline_addr : Z
}.

Definition set_ret_addr_mapping (m : gmap Z vf_paddr_record) (s : vf_state)
    : vf_state :=
  mkVfState (shadow_view s) (vf_page_translation s)
            (vf_page_record_collection s) m (return_point_addr s)
            (trampoline_addr s).

(** Remove the breakpoint associated with paddr_record. *)
Definition vf_remove_breakpoint (w : World) (page : vf_page_record)
    (paddr_record : vf_paddr_record) : bool * World :=
  let shadow_page := shadow_page page in
  let frame := frame page in
  let offset := offset paddr_record in
  match vmi_read_8_pa w (wrap64 (wrap64 (Z.shiftl frame GT_PAGE_OFFSET_BITS) + offset)) with
  | None => (false, w)
  | Some curr_inst =>
      vmi_write_8_pa w
        (wrap64 (wrap64 (Z.shiftl shadow_page GT_PAGE_OFFSET_BITS) + offset))
        curr_inst
  end.

Definition vf_destroy_paddr_record (page : vf_page_record) (w : World)
    (paddr_record : vf_paddr_record) : World :=
  snd (vf_remove_breakpoint w page paddr_record).

Definition vf_destroy_page_record (s : vf_state) (w : World)
    (page_record : vf_page_record) : World :=
  let w1 := destroy_values (vf_destroy_paddr_record page_record)
                           (children page_record) w in
  (* Stop monitoring this page. *)
  let w2 := vmi_set_mem_event w1 (frame page_record) VMI_MEMACCESS_N
                              (shadow_view s) in
  let w3 := snd (xc_altp2m_change_gfn w2 (shadow_view s)
                                      (shadow_page page_record) INVALID_GFN) in
  snd (xc_domain_decrease_reservation_exact w3 (shadow_page page_record)).

(** Return the paddr_record associated with the given physical address. *)
Definition vf_paddr_record_from_pa (s : vf_state) (pa : Z)
    : option vf_paddr_record :=
  let frame := Z.shiftr pa GT_PAGE_OFFSET_BITS in
  let offset := pa mod GT_PAGE_SIZE in
  let shadow := default 0 (vf_page_translation s !! frame) in
  if shadow =? 0 then None
  else match vf_page_record_collection s !! shadow with
       | None => None
       | Some page_record => children page_record !! offset
       end.

Definition vf_paddr_record_from_va (s : vf_state) (w : World) (va : Z)
    : option vf_paddr_record :=
  vf_paddr_record_from_pa s (vmi_translate_kv2p w va).

(** Service a triggered breakpoint.  [ret_addr] is not initialised: when
    [vmi_read_64_pa] fails it holds whatever the stack held. *)
Definition vf_breakpoint_cb (s : vf_state) (w : World) (event : vmi_event_t)
    : event_response_t * vmi_event_t * vf_state * World :=
  let status := VMI_EVENT_RESPONSE_NONE in
  let event := set_reinject 0 event in
  if negb (gla event =? trampoline_addr s) then
    (* Type-one breakpoint. *)
    match vf_paddr_record_from_va s w (gla event) with
    | None =>
        (* If paddr_record is null, we assume we didn't emplace
           interrupt. *)
        (VMI_EVENT_RESPONSE_EMULATE, set_reinject 1 event, s, w)
    | Some paddr_record =>
        let thread_id := rsp event in
        let ret_loc := vmi_translate_kv2p w thread_id in
        let ret_addr := default (indeterminate w) (vmi_read_64_pa w ret_loc) in
        let '(s1, w1) :=
          if ret_addr =? return_point_addr s then
            let w1 := log (EPrintSyscall (vcpu_id event) (addr paddr_record)) w in
            let w2 := snd (vmi_write_64_pa w1 ret_loc (trampoline_addr s)) in
            (set_ret_addr_mapping
               (<[thread_id := paddr_record]> (vf_ret_addr_mapping s)) s, w2)
          else (s, w) in
        (* Set VCPUs SLAT to use original for one step. *)
        let event := set_slat_id 0 event in
        (* Turn on single-step and switch slat_id. *)
        (response_or VMI_EVENT_RESPONSE_TOGGLE_SINGLESTEP
                     VMI_EVENT_RESPONSE_VMM_PAGETABLE_ID, event, s1, w1)
    end
  else
    (* Type-two breakpoint. *)
    let thread_id := wrap64 (rsp event - 8) in
    match vf_ret_addr_mapping s !! thread_id with
    | Some paddr_record =>
        let w1 := log (EPrintSysret (vcpu_id event) (addr paddr_record)) w in
        (* Restore the stack before returning execution to VCPU *)
        let w2 := snd (vmi_write_64_pa w1 (vmi_translate_kv2p w1 thread_id)
                                       (return_point_addr s)) in
        let w3 := vmi_set_vcpureg_rip w2 (return_point_addr s) (vcpu_id event) in
        (status, event,
         set_ret_addr_mapping (delete thread_id (vf_ret_addr_mapping s)) s, w3)
    | None => (status, event, s, w)
    end.

(** Number of bits available for page offset. *)
Definition VF_PAGE_OFFSET_BITS : Z := 12.

(** Default page size on our domain. *)
Definition VF_PAGE_SIZE : Z := Z.shiftl 1 VF_PAGE_OFFSET_BITS.

(** Intel breakpoint interrupt (INT 3) instruction. *)
Definition VF_BREAKPOINT_INST : Z := 0xCC.

(** [~0] in the [identifier] field of a new record; the source notes its
    value there: default 0xFFFF.  The field holds 16 bits. *)
Definition VF_NO_IDENTIFIER : Z := 0xFFFF.

(** The fields of [vf_state] that only the set-up and the teardown use. *)
Record vf_mem := mkVfMem {
  init_mem_size : Z;
  curr_mem_size : Z
}.

Definition set_page_translation (t : gmap Z Z) (s : vf_state) : vf_state :=
  mkVfState (shadow_view s) t (vf_page_record_collection s)
            (vf_ret_addr_mapping s) (return_point_addr s) (trampoline_addr s).

Definition set_page_record_collection (c : gmap Z vf_page_record) (s : vf_state)
    : vf_state :=
  mkVfState (shadow_view s) (vf_page_translation s) c (vf_ret_addr_mapping s)
            (return_point_addr s) (trampoline_addr s).

Definition set_trampoline_addr (a : Z) (s : vf_state) : vf_state :=
  mkVfState (shadow_view s) (vf_page_translation s)
            (vf_page_record_collection s) (vf_ret_addr_mapping s)
            (return_point_addr s) a.

(** Restore a stack return pointer; called on every key of
    [vf_ret_addr_mapping] by [g_hash_table_foreach].  The translation is
    not checked. *)
Definition vf_restore_return_addr (s : vf_state) (w : World) (va : Z) : World :=
  let pa := vmi_translate_kv2p w va in
  snd (vmi_write_64_pa w pa (return_point_addr s)).

(** Tear down the Xen facilities set up by [vf_init_state].  The tables
    are destroyed with their notifiers; [vf_ret_addr_mapping] has none. *)
Definition vf_teardown_state (s : vf_state) (m : vf_mem) (w : World) : World :=
  let w1 := destroy_values (vf_destroy_page_record s)
                           (vf_page_record_collection s) w in
  let w2 := foldl (vf_restore_return_addr s) w1
                  (map fst (map_to_list (vf_ret_addr_mapping s))) in
  let w3 := snd (xc_altp2m_switch_to_view w2 0) in
  let w4 := snd (xc_altp2m_destroy_view w3 (shadow_view s)) in
  let w5 := snd (xc_altp2m_set_domain_state w4 false) in
  snd (xc_domain_setmaxmem w5 (init_mem_size m)).

(** Allocate a new page of memory in the guest's address space. *)
Definition vf_allocate_shadow_page (m : vf_mem) (w : World)
    : Z * vf_mem * World :=
  let proposed_mem_size := wrap64 (curr_mem_size m + VF_PAGE_SIZE) in
  let '(status, w1) := xc_domain_setmaxmem w proposed_mem_size in
  if status =? 0 then
    let m1 := mkVfMem (init_mem_size m) proposed_mem_size in
    let '(status, gfn, w2) := xc_domain_increase_reservation_exact w1 in
    if negb (status =? 0) then (gfn, m1, w2)
    else
      let '(status, w3) := xc_domain_populate_physmap_exact w2 gfn in
      if negb (status =? 0) then (0, m1, w3)
      else (gfn, m1, w3)
  else (0, m, w1).

(** Callback invoked on a R/W of a monitored page. *)
Definition vf_mem_rw_cb (event : vmi_event_t) : event_response_t * vmi_event_t :=
  (response_or VMI_EVENT_RESPONSE_TOGGLE_SINGLESTEP
               VMI_EVENT_RESPONSE_VMM_PAGETABLE_ID,
   set_slat_id 0 event).

(** Callback after a step event on any VCPU. *)
Definition vf_singlestep_cb (s : vf_state) (event : vmi_event_t)
    : event_response_t * vmi_event_t :=
  (response_or VMI_EVENT_RESPONSE_TOGGLE_SINGLESTEP
               VMI_EVENT_RESPONSE_VMM_PAGETABLE_ID,
   set_slat_id (shadow_view s) event).

(** The tail of [vf_setup_mem_trap]: create the physical-address record
    and add it to the page record stored under [shadow]. *)
Definition vf_add_paddr_record (s : vf_state) (w : World)
    (page_record : vf_page_record) (shadow shadow_offset : Z)
    : option vf_paddr_record * vf_state * World :=
  let '(p, w1) := g_new0 w in
  let paddr_record := mkPaddr p shadow_offset shadow VF_NO_IDENTIFIER in
  (* Write interrupt to our shadow page at the correct location. *)
  let '(ok, w2) :=
    vmi_write_8_pa w1
      (wrap64 (wrap64 (Z.shiftl shadow VF_PAGE_OFFSET_BITS) + shadow_offset))
      VF_BREAKPOINT_INST in
  if negb ok then (Some paddr_record, s, w2)
  else
    let page_record' :=
      mkPage (frame page_record) (shadow_page page_record)
             (<[shadow_offset := paddr_record]> (children page_record)) in
    (Some paddr_record,
     set_page_record_collection
       (<[shadow := page_record']> (vf_page_record_collection s)) s,
     w2).

(** The head of [vf_setup_mem_trap]: with no shadow page known for
    [frame] ([shadow] is 0), allocate one and activate it in the shadow
    view.  [inr] is the jump to [done] with no record. *)
Definition vf_ensure_shadow_page (s : vf_state) (m : vf_mem) (w : World)
    (frame shadow : Z)
    : Z * vf_state * vf_mem * World + vf_state * vf_mem * World :=
  if shadow =? 0 then
    (* Record does not exist; allocate new page and create record. *)
    let '(shadow, m1, w1) := vf_allocate_shadow_page m w in
    if shadow =? 0 then inr (s, m1, w1)
    else
      let s2 := set_page_translation
                  (<[frame := shadow]> (vf_page_translation s)) s in
      (* Activate in shadow view. *)
      let '(xc_status, w2) :=
        xc_altp2m_change_gfn w1 (shadow_view s2) frame shadow in
      if xc_status <? 0 then inr (s2, m1, w2)
      else inl (shadow, s2, m1, w2)
  else inl (shadow, s, m, w).

(** Ensure there exists a memory trap on the shadow page containing
    virtual address va, and create a page record if it does not yet exist.
    Add a physical-address record corresponding to va to the page record's
    collection of children. *)
Definition vf_setup_mem_trap (s : vf_state) (m : vf_mem) (w : World) (va : Z)
    : option vf_paddr_record * vf_state * vf_mem * World :=
  let pa := vmi_translate_kv2p w va in
  if pa =? 0 then (None, s, m, w)
  else
    let frame := Z.shiftr pa VF_PAGE_OFFSET_BITS in
    let shadow := default 0 (vf_page_translation s !! frame) in
    let shadow_offset := pa mod VF_PAGE_SIZE in
    match vf_ensure_shadow_page s m w frame shadow with
    | inr (s', m', w') => (None, s', m', w')
    | inl (shadow, s1, m1, w1) =>
        match vf_page_record_collection s1 !! shadow with
        | None =>
            (* No record for this page yet; create one.  Copy page to
               shadow. *)
            let buff := vmi_read_pa w1 (wrap64 (Z.shiftl frame VF_PAGE_OFFSET_BITS))
                                    (Z.to_nat VF_PAGE_SIZE) in
            if negb (Z.of_nat (length buff) =? VF_PAGE_SIZE) then (None, s1, m1, w1)
            else
              let '(ret, w2) :=
                vmi_write_pa w1 (wrap64 (Z.shiftl shadow VF_PAGE_OFFSET_BITS))
                             buff in
              if negb (Z.of_nat ret =? VF_PAGE_SIZE) then (None, s1, m1, w2)
              else
                (* Initialize record of this page. *)
                let page_record := mkPage frame shadow ∅ in
                let s2 := set_page_record_collection
                            (<[shadow := page_record]>
                               (vf_page_record_collection s1)) s1 in
                (* Establish callback on a R/W of this page. *)
                let w3 := vmi_set_mem_event w2 frame VMI_MEMACCESS_RW
                                            (shadow_view s2) in
                let '(paddr_record, s3, w4) :=
                  vf_add_paddr_record s2 w3 page_record shadow shadow_offset in
                (paddr_record, s3, m1, w4)
        | Some page_record =>
            (* We already have a page record for this page in collection. *)
            match children page_record !! shadow_offset with
            | Some paddr_record =>
                (* We have a paddr record too; done (no error). *)
                (Some paddr_record, s1, m1, w1)
            | None =>
                let '(paddr_record, s3, w4) :=
                  vf_add_paddr_record s1 w1 page_record shadow shadow_offset in
                (paddr_record, s3, m1, w4)
            end
        end
    end.

(** [syscall_trap->identifier = i]: the record is written through the
    pointer, so every table that holds the pointer sees the identifier. *)
Definition set_identifier (p : Z) (i : Z) (s : vf_state) : vf_state :=
  let store (r : vf_paddr_record) :=
    if addr r =? p then mkPaddr (addr r) (offset r) (parent r) (i mod 2 ^ 16)
    else r in
  mkVfState (shadow_view s) (vf_page_translation s)
            ((λ page, mkPage (frame page) (shadow_page page)
                             (store <$> children page))
               <$> vf_page_record_collection s)
            (store <$> vf_ret_addr_mapping s)
            (return_point_addr s) (trampoline_addr s).

(** The inner loop of [vf_find_syscalls_and_setup_mem_traps] for the
    table entry [i], named [name]: [traced_syscalls] is what is left of
    the array.  The [bool] is false on the jump to [done]. *)
Fixpoint vf_find_traced (s : vf_state) (m : vf_mem) (w : World) (i : Z)
    (name : string) (traced_syscalls : list string)
    : bool * vf_state * vf_mem * World :=
  match traced_syscalls with
  | [] => (true, s, m, w)
  | traced :: rest =>
      if negb (String.eqb name traced) then vf_find_traced s m w i name rest
      else
        let sysaddr := vmi_translate_ksym2v w traced in
        if sysaddr =? 0 then vf_find_traced s m w i name rest
        else
          let '(syscall_trap, s1, m1, w1) := vf_setup_mem_trap s m w sysaddr in
          match syscall_trap with
          | None => (false, s1, m1, w1)
          | Some r =>
              (* Set identifier to contents of RAX during syscall. *)
              (true, set_identifier (addr r) i s1, m1, w1)
          end
  end.

(** The outer loop, entered at table entry [i] with [syscalls] left. *)
Fixpoint vf_find_syscalls_from (s : vf_state) (m : vf_mem) (w : World) (i : Z)
    (syscalls traced_syscalls : list string)
    : bool * vf_state * vf_mem * World :=
  match syscalls with
  | [] => (true, s, m, w)
  | name :: rest =>
      let '(ok, s1, m1, w1) := vf_find_traced s m w i name traced_syscalls in
      if ok then vf_find_syscalls_from s1 m1 w1 (i + 1) rest traced_syscalls
      else (false, s1, m1, w1)
  end.

(** [syscalls] are the names of the table, [traced_syscalls] the names to
    trace; both arrays end at their NULL entry. *)
Definition vf_find_syscalls_and_setup_mem_traps (s : vf_state) (m : vf_mem)
    (w : World) (syscalls traced_syscalls : list string)
    : bool * vf_state * vf_mem * World :=
  vf_find_syscalls_from s m w 0 syscalls traced_syscalls.

(** The scan of [vf_find_trampoline_addr]: the index of the first
    breakpoint byte, [code] being what is left of the array from index
    [curr_inst] on. *)
Fixpoint vf_look_for_int3 (code : list Z) (curr_inst : Z) : option Z :=
  match code with
  | [] => None
  | b :: rest =>
      if negb (b =? VF_BREAKPOINT_INST) then vf_look_for_int3 rest (curr_inst + 1)
      else Some curr_inst
  end.

Definition vf_find_trampoline_addr (s : vf_state) (w : World) : bool * vf_state :=
  match vmi_get_vcpureg_lstar w with
  | None => (false, s)
  | Some lstar =>
      let lstar_p := vmi_translate_kv2p w lstar in
      if lstar_p =? 0 then (false, s)
      else
        (* Read kernel instructions into code. *)
        let code := vmi_read_pa w lstar_p (Z.to_nat VF_PAGE_SIZE) in
        if (Z.of_nat (length code) <? VF_PAGE_SIZE) then (false, s)
        else
          match vf_look_for_int3 code 0 with
          | Some curr_inst => (true, set_trampoline_addr (wrap64 (lstar + curr_inst)) s)
          | None => (false, s)
          end
  end.

End VF.

(** ** The two tracers side by side

    The identifier-based tracer keeps, per thread, the record that fired;
    the callback-exposing one keeps a state whose [thread_id] is the key it
    is stored under.  A loop and a state correspond when they hold the
    same addresses, trap the same places and track the same threads. *)
Definition corresponds (l : GTLoop) (s : VF.vf_state) : Prop :=
  return_addr l = VF.return_point_addr s
  ∧ trampoline_addr l = VF.trampoline_addr s
  ∧ return_addr_width l = 8
  ∧ gt_page_translation l = VF.vf_page_translation s
  ∧ (λ p, dom (children p)) <$> gt_page_record_collection l
    = (λ p, dom (VF.children p)) <$> VF.vf_page_record_collection s
  ∧ dom (gt_ret_addr_mapping l) = dom (VF.vf_ret_addr_mapping s)
  ∧ map_Forall (λ tid state, thread_id state = tid) (gt_ret_addr_mapping l).

(** The shape of a page record: its frames and, per offset, the
    identity and the place of each child; callbacks and identifiers are
    left out. *)
Definition gt_page_shape (p : gt_page_record) : Z * Z * gmap Z (Z * Z * Z) :=
  (frame p, shadow_frame p,
   (λ r, (addr r, offset r, parent r)) <$> children p).

Definition vf_page_shape (p : VF.vf_page_record) : Z * Z * gmap Z (Z * Z * Z) :=
  (VF.frame p, VF.shadow_page p,
   (λ r, (VF.addr r, VF.offset r, VF.parent r)) <$> VF.children p).

(** The two tracers have trapped the same places, with records of the
    same identity, and have asked for the same amount of memory. *)
Definition same_traps (l : GTLoop) (s : VF.vf_state) (m : VF.vf_mem) : Prop :=
  shadow_view l = VF.shadow_view s
  ∧ curr_mem_size l = VF.curr_mem_size m
  ∧ gt_page_translation l = VF.vf_page_translation s
  ∧ gt_page_shape <$> gt_page_record_collection l
    = vf_page_shape <$> VF.vf_page_record_collection s.

(** The trace only grows. *)
Definition extends (w w' : World) : Prop :=
  ∃ later, trace w' = later ++ trace w.

(** [w'] differs from [w] by at most [n] frames handed out; the guest's
    address translation and symbols are those of [w]. *)
Definition reserves (n : nat) (w w' : World) : Prop :=
  kv2p (guest w') = kv2p (guest w)
  ∧ ksym2v (guest w') = ksym2v (guest w)
  ∧ ∃ gfns, (length gfns <= n)%nat
            ∧ reserved (xen w') = gfns ++ reserved (xen w).

(** Where the breakpoint byte of a record lies in the shadow frame. *)
Definition shadow_byte_pa (r : gt_paddr_record) : Z :=
  wrap64 (wrap64 (Z.shiftl (parent r) GT_PAGE_OFFSET_BITS) + offset r).

(** The 8-byte slot at [pa] is the stack slot of [st] or clear of it. *)
Definition slot_apart (pa : Z) (w : World) (st : gt_syscall_state) : Prop :=
  let pa' := vmi_translate_kv2p w (thread_id st) in
  pa' = pa ∨ pa' + 8 <= pa ∨ pa + 8 <= pa'.

(** The 8-byte slot at [pa] lies outside the shadow frame of [page] and
    outside the shadow bytes of its breakpoints. *)
Definition page_apart (pa : Z) (page : gt_page_record) : Prop :=
  (∀ i, 0 <= i < 8 -> Z.shiftr (pa + i) GT_PAGE_OFFSET_BITS ≠ shadow_frame page)
  ∧ map_Forall
      (λ _ r,
         let shadow_pa :=
           wrap64 (wrap64 (Z.shiftl (shadow_frame page) GT_PAGE_OFFSET_BITS)
                   + offset r) in
         shadow_pa < pa ∨ pa + 8 <= shadow_pa)
      (children page).

(** The 8-byte slot of the thread id [va], at its translation whatever
    that is, is the slot at [pa] or lies clear of it. *)
Definition vf_slot_apart (pa : Z) (w : World) (va : Z) : Prop :=
  let pa' := vmi_translate_kv2p w va in
  pa' = pa ∨ pa' + 8 <= pa ∨ pa + 8 <= pa'.

(** [w'] shows the 8-byte slot at [pa] as [w] does. *)
Definition keeps_slot (pa : Z) (w w' : World) : Prop :=
  valid_prefix w' pa 8 = valid_prefix w pa 8
  ∧ ∀ i, 0 <= i < 8 -> byte_at w' (pa + i) = byte_at w (pa + i).

(** A record is registered when the page record stored under its parent
    holds it under its offset. *)
Definition registered (l : GTLoop) (r : gt_paddr_record) : Prop :=
  ∃ page, gt_page_record_collection l !! parent r = Some page
          ∧ children page !! offset r = Some r.

(** The tables as the tracer builds them: no frame is translated to 0; a
    page record is stored under its own shadow frame, which is what its
    frame is translated to, and each child under its own offset; a state
    is stored under its own thread id and names a registered record. *)
Definition tables_ok (l : GTLoop) : Prop :=
  map_Forall (λ _ shadow, shadow ≠ 0) (gt_page_translation l)
  ∧ map_Forall
      (λ shadow page,
         shadow ≠ 0
         ∧ shadow_frame page = shadow
         ∧ gt_page_translation l !! frame page = Some shadow
         ∧ map_Forall (λ off r, offset r = off ∧ parent r = shadow)
                      (children page))
      (gt_page_record_collection l)
  ∧ map_Forall
      (λ tid st, thread_id st = tid ∧ registered l (syscall_paddr_record st))
      (gt_ret_addr_mapping l).

(** [w'] is [w] after effects that all satisfy [P]. *)
Definition adds (P : effect -> Prop) (w w' : World) : Prop :=
  ∃ later, trace w' = later ++ trace w ∧ Forall P later.



(** What servicing a trap may do to the outside: call a callback, set
    RIP to the return address, write the trampoline address or the
    return address (or the part of it that fits the backed memory). *)
Definition dispatch_effect (l : GTLoop) (e : effect) : Prop :=
  match e with
  | ESyscallCb _ _ _ _ | ESysretCb _ _ _ _ => True
  | ESetRip _ v => v = return_addr l
  | EWrite _ bs =>
      ∃ k, bs = take k (le_bytes 8 (trampoline_addr l))
           ∨ bs = take k (le_bytes 8 (return_addr l))
  | _ => False
  end.

(** ** A guest to run the model on

    A Linux-like guest: kernel text and the direct map are linear, the
    system-call entry point holds an [int 3] at offset 0x4f, [sys_open] is
    at 0xffffffff81200100.  The hypervisor has two frames to hand out. *)

Definition ex_kv2p (va : Z) : Z :=
  if 0xffffffff80000000 <=? va then va - 0xffffffff80000000
  else if 0xffff880000000000 <=? va then va - 0xffff880000000000
  else 0.

Definition ex_ksym2v (sym : string) : Z :=
  if String.eqb sym "sys_open" then 0xffffffff81200100
  else if String.eqb sym "sys_read" then 0xffffffff81200200
  else if String.eqb sym "sys_close" then 0xffffffff81301000
  else 0.

Definition ex_return_addr : Z := 0xffffffff818000a0.
Definition ex_trampoline_addr : Z := 0xffffffff8180004f.
Definition ex_stack : Z := 0xffff88000a5f3e00.

Definition ex_guest : Guest :=
  mkGuest ex_kv2p ex_ksym2v (fun cr3 => cr3 / 4096)
          (Some 0xffffffff81800000)
          (store_bytes (<[0x180004f := 0xCC]> ∅) 0xa5f3e00 (le_bytes 8 ex_return_addr))
          ∅.

Definition ex_xen (faults : list bool) : Xen :=
  mkXen 0x10000000 faults [0x40000; 0x40001] []
        (list_to_set [0x1200; 0x1301; 0x1800; 0x1801; 0xa5f3]) ∅ ∅ 1.

Definition ex_world (faults : list bool) : World :=
  mkWorld ex_guest (ex_xen faults) [] 0x5000 (fun cb pid tid data => cb + data) 0.

Definition ex_loop : GTLoop :=
  mkLoop 1 0x10000000 0x10000000 8 ex_return_addr ex_trampoline_addr ∅ ∅ ∅ false.

Definition ex_va : Z := 0xffffffff81200100.

(** [sys_open] is trapped: one shadow frame, one record. *)
Definition ex_installed := gt_setup_mem_trap ex_loop (ex_world []) ex_va 7 8 9.
Definition ex_loop1 : GTLoop := snd (fst ex_installed).
Definition ex_world1 : World := snd ex_installed.
Definition ex_record : gt_paddr_record := mkPaddr 0x5000 0x100 7 8 0x40000 9.

(** A thread enters [sys_open] through the system-call handler. *)
Definition ex_call_event : vmi_event_t := mkEvent ex_va ex_stack 0x7000 0 1 1.
Definition ex_called := gt_breakpoint_cb ex_loop1 ex_world1 ex_call_event.
Definition ex_loop2 : GTLoop := snd (fst ex_called).
Definition ex_world2 : World := snd ex_called.

(** The same thread returns through the trampoline. *)
Definition ex_return_event : vmi_event_t :=
  mkEvent ex_trampoline_addr (ex_stack + 8) 0x7000 0 1 1.


(** A breakpoint of the guest's own, at [sys_close]. *)
Definition ex_stale_event : vmi_event_t :=
  mkEvent 0xffffffff81301000 ex_stack 0x7000 0 0 1.

Definition ex_callbacks : list GTSyscallCallback :=
  [mkCallback "sys_open" 7 8 9; mkCallback "no_such_call" 1 2 3;
   mkCallback "sys_read" 4 5 6].

(** The identifier-based tracer before any trap is set, and with the trap
    at [sys_open]. *)
Definition ex_vf_state : VF.vf_state :=
  VF.mkVfState 1 ∅ ∅ ∅ ex_return_addr ex_trampoline_addr.

Definition ex_vf_record : VF.vf_paddr_record := VF.mkPaddr 0x5000 0x100 0x40000 2.

Definition ex_vf_page : VF.vf_page_record :=
  VF.mkPage 0x1200 0x40000 {[ 0x100 := ex_vf_record ]}.

Definition ex_vf_state1 : VF.vf_state :=
  VF.mkVfState 1 {[ 0x1200 := 0x40000 ]} {[ 0x40000 := ex_vf_page ]} ∅
               ex_return_addr ex_trampoline_addr.

(** The shadow frame of [sys_open] has lost its backing: writes to it
    fail.  [sys_read] lies in the same frame as [sys_open]. *)
Definition ex_world_unbacked : World :=
  set_xen (fun x => set_ram (ram x ∖ {[ 0x40000 ]}) x) ex_world1.

Definition ex_va_read : Z := 0xffffffff81200200.

(** The memory sizes of the identifier-based tracer, and its state while
    the thread is inside [sys_open]. *)
Definition ex_vf_mem : VF.vf_mem := VF.mkVfMem 0x10000000 0x10000000.

Definition ex_vf_state2 : VF.vf_state :=
  VF.mkVfState 1 {[ 0x1200 := 0x40000 ]} {[ 0x40000 := ex_vf_page ]}
               {[ ex_stack := ex_vf_record ]} ex_return_addr ex_trampoline_addr.

(** * Properties *)

(** ** Trap dispatch *)

Section Dispatch.

Variables (l : GTLoop) (w : World) (event : vmi_event_t).

Lemma call_site_test :
  gla event ≠ trampoline_addr l ->
  negb (gla (set_reinject 0 event) =? trampoline_addr l) = true.
Proof. intros H. simpl. apply negb_true_iff, Z.eqb_neq, H. Qed.

Lemma return_site_test :
  gla event = trampoline_addr l ->
  negb (gla (set_reinject 0 event) =? trampoline_addr l) = false.
Proof. intros H. simpl. apply negb_false_iff, Z.eqb_eq, H. Qed.



End Dispatch.

(** ** What a guest-memory write leaves alone *)

Lemma valid_prefix_xen w w' pa n :
  xen w' = xen w -> valid_prefix w' pa n = valid_prefix w pa n.
Proof.
  intros Hx. revert pa. induction n as [|n IH]; intros pa; simpl; [reflexivity|].
  unfold valid_pa. rewrite Hx. destruct (bool_decide _); [|reflexivity].
  f_equal. apply IH.
Qed.

Lemma vmi_write_pa_xen w pa buf : xen (snd (vmi_write_pa w pa buf)) = xen w.
Proof. unfold vmi_write_pa. destruct (valid_prefix _ _ _); reflexivity. Qed.

Lemma vmi_write_pa_rip w pa buf :
  rip (guest (snd (vmi_write_pa w pa buf))) = rip (guest w).
Proof. unfold vmi_write_pa. destruct (valid_prefix _ _ _); reflexivity. Qed.

Lemma vmi_write_pa_kv2p w pa buf :
  kv2p (guest (snd (vmi_write_pa w pa buf))) = kv2p (guest w).
Proof. unfold vmi_write_pa. destruct (valid_prefix _ _ _); reflexivity. Qed.

Lemma vmi_write_pa_trace w pa buf :
  trace (snd (vmi_write_pa w pa buf)) = trace w
  ∨ trace (snd (vmi_write_pa w pa buf))
    = EWrite pa (take (valid_prefix w pa (length buf)) buf) :: trace w.
Proof. unfold vmi_write_pa. destruct (valid_prefix _ _ _); [left|right]; reflexivity. Qed.

Lemma length_le_bytes n v : length (le_bytes n v) = n.
Proof. revert v. induction n as [|n IH]; intros v; simpl; [|rewrite IH]; reflexivity. Qed.

Lemma vmi_write_64_pa_unfold w pa v :
  vmi_write_64_pa w pa v
  = (Nat.eqb (fst (vmi_write_pa w pa (le_bytes 8 v))) 8,
     snd (vmi_write_pa w pa (le_bytes 8 v))).
Proof. unfold vmi_write_64_pa. destruct (vmi_write_pa _ _ _); reflexivity. Qed.

Lemma vmi_write_64_pa_xen w pa v : xen (snd (vmi_write_64_pa w pa v)) = xen w.
Proof. rewrite vmi_write_64_pa_unfold. apply vmi_write_pa_xen. Qed.

Lemma vmi_write_64_pa_rip w pa v :
  rip (guest (snd (vmi_write_64_pa w pa v))) = rip (guest w).
Proof. rewrite vmi_write_64_pa_unfold. apply vmi_write_pa_rip. Qed.

Lemma vmi_write_64_pa_kv2p w pa v :
  kv2p (guest (snd (vmi_write_64_pa w pa v))) = kv2p (guest w).
Proof. rewrite vmi_write_64_pa_unfold. apply vmi_write_pa_kv2p. Qed.

(** A write is complete when the whole range is backed; it then shows in
    the trace with all its bytes. *)
Lemma vmi_write_64_pa_complete w pa v :
  valid_prefix w pa 8 = 8%nat ->
  trace (snd (vmi_write_64_pa w pa v)) = EWrite pa (le_bytes 8 v) :: trace w.
Proof.
  intros Hv. rewrite vmi_write_64_pa_unfold. unfold vmi_write_pa.
  rewrite length_le_bytes, Hv. cbv beta iota.
  rewrite take_ge by (rewrite length_le_bytes; lia). reflexivity.
Qed.

Lemma extends_refl w : extends w w.
Proof. exists []. reflexivity. Qed.

Lemma extends_trans w1 w2 w3 : extends w1 w2 -> extends w2 w3 -> extends w1 w3.
Proof.
  intros [t1 H1] [t2 H2]. exists (t2 ++ t1). rewrite H2, H1, app_assoc. reflexivity.
Qed.

Lemma extends_elem e w w' : extends w w' -> e ∈ trace w -> e ∈ trace w'.
Proof. intros [t Ht] He. rewrite Ht. apply elem_of_app. right. exact He. Qed.

Lemma vmi_write_pa_extends w pa buf : extends w (snd (vmi_write_pa w pa buf)).
Proof.
  destruct (vmi_write_pa_trace w pa buf) as [H|H].
  - exists []. exact H.
  - eexists [_]. exact H.
Qed.

Lemma vmi_write_64_pa_extends w pa v : extends w (snd (vmi_write_64_pa w pa v)).
Proof. rewrite vmi_write_64_pa_unfold. apply vmi_write_pa_extends. Qed.

Lemma vmi_write_8_pa_unfold w pa v :
  vmi_write_8_pa w pa v
  = (Nat.eqb (fst (vmi_write_pa w pa [v mod 256])) 1,
     snd (vmi_write_pa w pa [v mod 256])).
Proof. unfold vmi_write_8_pa. destruct (vmi_write_pa _ _ _); reflexivity. Qed.

Lemma vmi_write_8_pa_extends w pa v : extends w (snd (vmi_write_8_pa w pa v)).
Proof. rewrite vmi_write_8_pa_unfold. apply vmi_write_pa_extends. Qed.

Lemma gt_restore_return_addr_extends l w st :
  extends w (gt_restore_return_addr l w st).
Proof.
  unfold gt_restore_return_addr. destruct (_ =? 0); [apply extends_refl|].
  apply vmi_write_64_pa_extends.
Qed.

Lemma gt_restore_return_addr_xen l w st :
  xen (gt_restore_return_addr l w st) = xen w.
Proof.
  unfold gt_restore_return_addr. destruct (_ =? 0); [reflexivity|].
  apply vmi_write_64_pa_xen.
Qed.

Lemma gt_restore_return_addr_rip l w st :
  rip (guest (gt_restore_return_addr l w st)) = rip (guest w).
Proof.
  unfold gt_restore_return_addr. destruct (_ =? 0); [reflexivity|].
  apply vmi_write_64_pa_rip.
Qed.

Lemma gt_restore_return_addr_kv2p l w st :
  kv2p (guest (gt_restore_return_addr l w st)) = kv2p (guest w).
Proof.
  unfold gt_restore_return_addr. destruct (_ =? 0); [reflexivity|].
  apply vmi_write_64_pa_kv2p.
Qed.

(** The notifier writes the canonical return address into the slot of the
    thread, when the slot translates and is backed. *)
Lemma gt_restore_return_addr_writes l w st :
  vmi_translate_kv2p w (thread_id st) ≠ 0 ->
  valid_prefix w (vmi_translate_kv2p w (thread_id st)) 8 = 8%nat ->
  trace (gt_restore_return_addr l w st)
  = EWrite (vmi_translate_kv2p w (thread_id st)) (le_bytes 8 (return_addr l))
    :: trace w.
Proof.
  intros Hpa Hv. unfold gt_restore_return_addr.
  apply Z.eqb_neq in Hpa. rewrite Hpa.
  apply vmi_write_64_pa_complete, Hv.
Qed.

Lemma gt_restore_return_addr_trace l w st :
  trace (gt_restore_return_addr l w st) = trace w
  ∨ ∃ bs, trace (gt_restore_return_addr l w st)
          = EWrite (vmi_translate_kv2p w (thread_id st)) bs :: trace w.
Proof.
  unfold gt_restore_return_addr. destruct (_ =? 0); [left; reflexivity|].
  rewrite vmi_write_64_pa_unfold. cbn [snd].
  destruct (vmi_write_pa_trace w (vmi_translate_kv2p w (thread_id st))
              (le_bytes 8 (return_addr l))) as [H|H]; [left|right; eexists]; exact H.
Qed.

Lemma hypercall_trace w : trace (snd (hypercall w)) = trace w.
Proof. unfold hypercall. destruct (xen_faults _); reflexivity. Qed.

Lemma xc_altp2m_change_gfn_trace w view old new :
  trace (snd (xc_altp2m_change_gfn w view old new)) = trace w.
Proof.
  unfold xc_altp2m_change_gfn. pose proof (hypercall_trace w) as H.
  destruct (hypercall w) as [[] w1]; simpl in *; [exact H|].
  destruct (new =? INVALID_GFN); exact H.
Qed.

Lemma xc_domain_decrease_reservation_exact_trace w gfn :
  trace (snd (xc_domain_decrease_reservation_exact w gfn)) = trace w.
Proof.
  unfold xc_domain_decrease_reservation_exact. pose proof (hypercall_trace w) as H.
  destruct (hypercall w) as [[] w1]; exact H.
Qed.

Lemma xc_altp2m_switch_to_view_trace w view :
  trace (snd (xc_altp2m_switch_to_view w view)) = trace w.
Proof.
  unfold xc_altp2m_switch_to_view. pose proof (hypercall_trace w) as H.
  destruct (hypercall w) as [[] w1]; exact H.
Qed.

Lemma foldl_extends {V} (notify : World -> V -> World) (vs : list V) w :
  (∀ w v, extends w (notify w v)) -> extends w (foldl notify w vs).
Proof.
  intros Hn. revert w. induction vs as [|v vs IH]; intros w; simpl.
  - apply extends_refl.
  - eapply extends_trans; [apply Hn|apply IH].
Qed.

Lemma destroy_values_extends {V} (notify : World -> V -> World) m w :
  (∀ w v, extends w (notify w v)) -> extends w (destroy_values notify m w).
Proof. intros Hn. apply foldl_extends, Hn. Qed.

Lemma gt_remove_breakpoint_extends w page r :
  extends w (snd (gt_remove_breakpoint w page r)).
Proof.
  unfold gt_remove_breakpoint. destruct (vmi_read_8_pa _ _).
  - apply vmi_write_8_pa_extends.
  - apply extends_refl.
Qed.

Lemma gt_destroy_page_record_extends l w page :
  extends w (gt_destroy_page_record l w page).
Proof.
  unfold gt_destroy_page_record.
  destruct (destroy_values_extends (gt_destroy_paddr_record page) (children page) w)
    as [t Ht].
  { intros w0 v. apply gt_remove_breakpoint_extends. }
  exists t. rewrite xc_domain_decrease_reservation_exact_trace,
    xc_altp2m_change_gfn_trace. exact Ht.
Qed.

(** Draining the tracker writes the canonical return address to the slot
    of every entry met. *)
Lemma drain_writes_every_slot l (sts : list gt_syscall_state) w st :
  st ∈ sts ->
  vmi_translate_kv2p w (thread_id st) ≠ 0 ->
  valid_prefix w (vmi_translate_kv2p w (thread_id st)) 8 = 8%nat ->
  EWrite (vmi_translate_kv2p w (thread_id st)) (le_bytes 8 (return_addr l))
  ∈ trace (foldl (gt_restore_return_addr l) w sts).
Proof.
  revert w. induction sts as [|s sts IH]; intros w Hin Hpa Hv.
  - apply elem_of_nil in Hin. contradiction.
  - simpl. apply elem_of_cons in Hin as [-> | Hin].
    + eapply extends_elem.
      * apply foldl_extends. intros. apply gt_restore_return_addr_extends.
      * rewrite gt_restore_return_addr_writes by assumption. apply list_elem_of_here.
    + assert (Hk : vmi_translate_kv2p (gt_restore_return_addr l w s) (thread_id st)
                   = vmi_translate_kv2p w (thread_id st)).
      { unfold vmi_translate_kv2p. rewrite gt_restore_return_addr_kv2p. reflexivity. }
      rewrite <- Hk. apply IH; [exact Hin|rewrite Hk; exact Hpa|].
      rewrite Hk. rewrite (valid_prefix_xen w); [exact Hv|].
      apply gt_restore_return_addr_xen.
Qed.

Section ReturnSite.

Variables (l : GTLoop) (w : World) (event : vmi_event_t).

Let thread_id' : Z := wrap64 (rsp event - return_addr_width l).

(** C4. A trap at the trampoline looks the thread up under the stack
    pointer minus the word width.  With an entry, the return callback of
    the entry's record runs with the payload the entry holds, RIP of the
    VCPU becomes the canonical return address and the entry is removed
    (its notifier may write the stack; nothing else is logged).  With no
    entry nothing is done. *)
Theorem return_site_trap :
  gla event = trampoline_addr l ->
  match gt_ret_addr_mapping l !! thread_id' with
  | Some state =>
      ∃ w' writes,
        gt_breakpoint_cb l w event
        = (VMI_EVENT_RESPONSE_NONE, set_reinject 0 event,
           set_ret_addr_mapping (delete thread_id' (gt_ret_addr_mapping l)) l,
           w')
        ∧ trace w'
          = writes
            ++ ESetRip (vcpu_id event) (return_addr l)
            :: ESysretCb (sysret_cb (syscall_paddr_record state))
                         (vmi_dtb_to_pid w (cr3 event)) thread_id'
                         (state_data state)
            :: trace w
        ∧ (writes = []
           ∨ ∃ bs, writes = [EWrite (vmi_translate_kv2p w (thread_id state)) bs])
        ∧ rip (guest w') !! vcpu_id event = Some (return_addr l)
  | None =>
      gt_breakpoint_cb l w event
      = (VMI_EVENT_RESPONSE_NONE, set_reinject 0 event, l, w)
  end.
Proof.
  intros Hsite. unfold gt_breakpoint_cb.
  rewrite return_site_test by assumption.
  cbn [rsp set_reinject cr3 vcpu_id]. fold thread_id'.
  destruct (gt_ret_addr_mapping l !! thread_id') as [state|] eqn:Hst; [|reflexivity].
  unfold ret_addr_mapping_remove. rewrite Hst.
  set (w2 := vmi_set_vcpureg_rip _ _ _).
  exists (gt_restore_return_addr l w2 state).
  assert (Hrip : rip (guest (gt_restore_return_addr l w2 state)) !! vcpu_id event
                 = Some (return_addr l)).
  { rewrite gt_restore_return_addr_rip. subst w2. cbn. apply lookup_insert_eq. }
  destruct (gt_restore_return_addr_trace l w2 state) as [Hw|[bs Hw]].
  - exists []. repeat apply conj; try reflexivity; try assumption.
    left. reflexivity.
  - exists [EWrite (vmi_translate_kv2p w (thread_id state)) bs].
    repeat apply conj; try reflexivity; try assumption.
    right. exists bs. reflexivity.
Qed.

End ReturnSite.

(** ** The trampoline locator *)

Lemma length_load_bytes w pa n : length (load_bytes w pa n) = n.
Proof.
  revert pa. induction n as [|n IH]; intros pa; [reflexivity|].
  cbn [load_bytes length]. rewrite IH. reflexivity.
Qed.

Lemma look_for_int3_first w lstar pa n k i :
  (i < n)%nat ->
  byte_at w (pa + Z.of_nat i) = GT_BREAKPOINT_INST ->
  (∀ j, (j < i)%nat -> byte_at w (pa + Z.of_nat j) ≠ GT_BREAKPOINT_INST) ->
  look_for_int3 lstar (load_bytes w pa n) k = wrap64 (lstar + (k + Z.of_nat i)).
Proof.
  revert pa k i. induction n as [|n IH]; intros pa k i Hi Hhit Hmiss; [lia|].
  cbn [load_bytes look_for_int3]. destruct i as [|i].
  - replace (pa + Z.of_nat 0) with pa in Hhit by lia.
    rewrite Hhit, Z.eqb_refl. f_equal. lia.
  - destruct (byte_at w pa =? GT_BREAKPOINT_INST) eqn:Hb.
    + apply Z.eqb_eq in Hb. exfalso. apply (Hmiss O); [lia|].
      replace (pa + Z.of_nat 0) with pa by lia. exact Hb.
    + rewrite (IH (pa + 1) (k + 1) i).
      * f_equal. lia.
      * lia.
      * replace (pa + 1 + Z.of_nat i) with (pa + Z.of_nat (S i)) by lia. exact Hhit.
      * intros j Hj.
        replace (pa + 1 + Z.of_nat j) with (pa + Z.of_nat (S j)) by lia.
        apply Hmiss. lia.
Qed.

Lemma look_for_int3_none w lstar pa n k :
  (∀ j, (j < n)%nat -> byte_at w (pa + Z.of_nat j) ≠ GT_BREAKPOINT_INST) ->
  look_for_int3 lstar (load_bytes w pa n) k = 0.
Proof.
  revert pa k. induction n as [|n IH]; intros pa k Hmiss; [reflexivity|].
  cbn [load_bytes look_for_int3].
  destruct (byte_at w pa =? GT_BREAKPOINT_INST) eqn:Hb.
  - apply Z.eqb_eq in Hb. exfalso. apply (Hmiss O); [lia|].
    replace (pa + Z.of_nat 0) with pa by lia. exact Hb.
  - apply IH. intros j Hj.
    replace (pa + 1 + Z.of_nat j) with (pa + Z.of_nat (S j)) by lia.
    apply Hmiss. lia.
Qed.

Lemma page_size_nat : Z.to_nat GT_PAGE_SIZE = 4096%nat.
Proof. reflexivity. Qed.

Section Trampoline.

Variables (w : World) (lstar : Z).

Let lstar_p : Z := vmi_translate_kv2p w lstar.

Hypothesis msr_read : vmi_get_vcpureg_lstar w = Some lstar.
Hypothesis translated : lstar_p ≠ 0.
Hypothesis whole_page_read :
  length (vmi_read_pa w lstar_p (Z.to_nat GT_PAGE_SIZE)) = Z.to_nat GT_PAGE_SIZE.

Lemma trampoline_scans_entry_page :
  gt_find_trampoline_addr w
  = look_for_int3 lstar (load_bytes w lstar_p (Z.to_nat GT_PAGE_SIZE)) 0.
Proof.
  unfold gt_find_trampoline_addr. rewrite msr_read. fold lstar_p.
  apply Z.eqb_neq in translated. rewrite translated.
  rewrite whole_page_read.
  unfold vmi_read_pa in *. rewrite length_load_bytes in whole_page_read.
  rewrite whole_page_read. reflexivity.
Qed.

(** C7. When LSTAR is read, translates and a whole page is read at its
    physical address, the locator returns LSTAR plus the offset of the
    first 0xCC byte of that page (modulo 2^64), and 0 when the page holds
    no such byte. *)
Theorem trampoline_is_first_int3_of_entry_page :
  (∀ i, 0 <= i < GT_PAGE_SIZE ->
        byte_at w (lstar_p + i) = GT_BREAKPOINT_INST ->
        (∀ j, 0 <= j < i -> byte_at w (lstar_p + j) ≠ GT_BREAKPOINT_INST) ->
        gt_find_trampoline_addr w = wrap64 (lstar + i))
  ∧ ((∀ j, 0 <= j < GT_PAGE_SIZE ->
           byte_at w (lstar_p + j) ≠ GT_BREAKPOINT_INST) ->
     gt_find_trampoline_addr w = 0).
Proof.
  split.
  - intros i Hi Hhit Hmiss. rewrite trampoline_scans_entry_page.
    rewrite (look_for_int3_first w lstar lstar_p _ 0 (Z.to_nat i)).
    + f_equal. lia.
    + apply Z2Nat.inj_lt; lia.
    + rewrite Z2Nat.id by lia. exact Hhit.
    + intros j Hj. apply Hmiss. lia.
  - intros Hmiss. rewrite trampoline_scans_entry_page.
    apply look_for_int3_none. intros j Hj. apply Hmiss.
    rewrite page_size_nat in Hj. change GT_PAGE_SIZE with 4096. lia.
Qed.

End Trampoline.

(** ** What an install leaves alone *)

Lemma reserves_refl w : reserves 0 w w.
Proof. repeat split. exists []. split; [simpl; lia|reflexivity]. Qed.

Lemma reserves_trans n m w1 w2 w3 :
  reserves n w1 w2 -> reserves m w2 w3 -> reserves (n + m) w1 w3.
Proof.
  intros (Hk1 & Hs1 & g1 & Hl1 & Hr1) (Hk2 & Hs2 & g2 & Hl2 & Hr2).
  split; [congruence|]. split; [congruence|].
  exists (g2 ++ g1). split.
  - rewrite length_app. lia.
  - rewrite Hr2, Hr1, app_assoc. reflexivity.
Qed.

Lemma reserves_weaken n m w w' : (n <= m)%nat -> reserves n w w' -> reserves m w w'.
Proof.
  intros Hle (Hk & Hs & g & Hl & Hr). repeat split; try assumption.
  exists g. split; [lia|exact Hr].
Qed.

Lemma reserves_same w w' :
  guest w' = guest w -> reserved (xen w') = reserved (xen w) -> reserves 0 w w'.
Proof.
  intros Hg Hr. split; [rewrite Hg; reflexivity|]. split; [rewrite Hg; reflexivity|].
  exists []. split; [simpl; lia|exact Hr].
Qed.

Lemma hypercall_reserves w : reserves 0 w (snd (hypercall w)).
Proof. unfold hypercall. destruct (xen_faults _); apply reserves_same; reflexivity. Qed.

Lemma vmi_write_pa_reserves w pa buf : reserves 0 w (snd (vmi_write_pa w pa buf)).
Proof.
  split; [apply vmi_write_pa_kv2p|]. split.
  - unfold vmi_write_pa. destruct (valid_prefix _ _ _); reflexivity.
  - exists []. split; [simpl; lia|]. rewrite vmi_write_pa_xen. reflexivity.
Qed.

Lemma vmi_write_8_pa_reserves w pa v : reserves 0 w (snd (vmi_write_8_pa w pa v)).
Proof. rewrite vmi_write_8_pa_unfold. apply vmi_write_pa_reserves. Qed.

Lemma xc_altp2m_change_gfn_reserves w view old new :
  reserves 0 w (snd (xc_altp2m_change_gfn w view old new)).
Proof.
  unfold xc_altp2m_change_gfn. pose proof (hypercall_reserves w) as H.
  destruct (hypercall w) as [[] w1]; cbn [snd] in *; [exact H|].
  destruct (new =? INVALID_GFN);
    (eapply (reserves_trans 0 0); [exact H|apply reserves_same; reflexivity]).
Qed.

Lemma xc_domain_setmaxmem_reserves w size :
  reserves 0 w (snd (xc_domain_setmaxmem w size)).
Proof.
  unfold xc_domain_setmaxmem. pose proof (hypercall_reserves w) as H.
  destruct (hypercall w) as [[] w1]; cbn [snd] in *; [exact H|].
  eapply (reserves_trans 0 0); [exact H|apply reserves_same; reflexivity].
Qed.

Lemma xc_domain_populate_physmap_exact_reserves w gfn :
  reserves 0 w (snd (xc_domain_populate_physmap_exact w gfn)).
Proof.
  unfold xc_domain_populate_physmap_exact. pose proof (hypercall_reserves w) as H.
  destruct (hypercall w) as [[] w1]; cbn [snd] in *; [exact H|].
  eapply (reserves_trans 0 0); [exact H|apply reserves_same; reflexivity].
Qed.

Lemma xc_domain_increase_reservation_exact_reserves w :
  reserves 1 w (snd (xc_domain_increase_reservation_exact w)).
Proof.
  unfold xc_domain_increase_reservation_exact. pose proof (hypercall_reserves w) as H.
  destruct (hypercall w) as [[] w1]; cbn [snd] in *.
  - apply (reserves_weaken 0); [lia|exact H].
  - destruct (gfn_supply (xen w1)) as [|gfn rest]; cbn [snd].
    + apply (reserves_weaken 0); [lia|exact H].
    + eapply (reserves_trans 0 1); [exact H|].
      split; [reflexivity|]. split; [reflexivity|].
      exists [gfn]. split; [simpl; lia|reflexivity].
Qed.

Lemma gt_allocate_shadow_frame_reserves l w :
  reserves 1 w (snd (gt_allocate_shadow_frame l w)).
Proof.
  unfold gt_allocate_shadow_frame.
  pose proof (xc_domain_setmaxmem_reserves w (wrap64 (curr_mem_size l + GT_PAGE_SIZE))) as H1.
  destruct (xc_domain_setmaxmem _ _) as [rc1 w1]; cbn [snd] in *.
  destruct (rc1 <? 0); [apply (reserves_weaken 0); [lia|exact H1]|].
  pose proof (xc_domain_increase_reservation_exact_reserves w1) as H2.
  destruct (xc_domain_increase_reservation_exact w1) as [[rc2 gfn] w2]; cbn [snd] in *.
  pose proof (reserves_trans _ _ _ _ _ H1 H2) as H12.
  destruct (rc2 <? 0); [exact H12|].
  pose proof (xc_domain_populate_physmap_exact_reserves w2 gfn) as H3.
  destruct (xc_domain_populate_physmap_exact w2 gfn) as [rc3 w3]; cbn [snd] in *.
  pose proof (reserves_trans _ _ _ _ _ H12 H3) as H123.
  destruct (rc3 <? 0); exact H123.
Qed.

Lemma gt_add_paddr_record_reserves l w page shadow off cb rcb d :
  reserves 0 w (snd (gt_add_paddr_record l w page shadow off cb rcb d)).
Proof.
  unfold gt_add_paddr_record, g_new0.
  match goal with |- context [vmi_write_8_pa ?w0 ?pa ?v] =>
    pose proof (vmi_write_8_pa_reserves w0 pa v) as H;
    destruct (vmi_write_8_pa w0 pa v) as [ok w2] end.
  cbn [snd] in *. destruct (negb ok); exact H.
Qed.

Lemma gt_ensure_shadow_frame_reserves l w frame shadow :
  match gt_ensure_shadow_frame l w frame shadow with
  | inl (_, _, w') => reserves (if shadow =? 0 then 1 else 0) w w'
  | inr (_, w') => reserves (if shadow =? 0 then 1 else 0) w w'
  end.
Proof.
  unfold gt_ensure_shadow_frame. destruct (shadow =? 0); [|apply reserves_refl].
  pose proof (gt_allocate_shadow_frame_reserves l w) as Ha.
  destruct (gt_allocate_shadow_frame l w) as [[shadow' l1] w1]; cbn [snd] in *.
  destruct (shadow' =? 0); [exact Ha|].
  match goal with |- context [xc_altp2m_change_gfn ?a ?b ?c ?e] =>
    pose proof (xc_altp2m_change_gfn_reserves a b c e) as Hc;
    destruct (xc_altp2m_change_gfn a b c e) as [st w2] end.
  cbn [snd] in *. pose proof (reserves_trans _ _ _ _ _ Ha Hc) as Hac.
  destruct (st <? 0); exact Hac.
Qed.

(** An install hands out at most one frame, and none when the frame of
    the address already has a shadow. *)
Lemma gt_setup_mem_trap_reserves l w va cb rcb d :
  reserves
    (if default 0 (gt_page_translation l
                     !! Z.shiftr (vmi_translate_kv2p w va) GT_PAGE_OFFSET_BITS) =? 0
     then 1 else 0)
    w (snd (gt_setup_mem_trap l w va cb rcb d)).
Proof.
  unfold gt_setup_mem_trap.
  destruct (vmi_translate_kv2p w va =? 0);
    [apply (reserves_weaken 0); [lia|apply reserves_refl]|].
  set (frame := Z.shiftr _ _). set (off := _ mod _).
  set (shadow0 := default 0 _).
  pose proof (gt_ensure_shadow_frame_reserves l w frame shadow0) as Hs.
  set (n := if shadow0 =? 0 then 1%nat else 0%nat) in *.
  assert (Hn : (n <= 1)%nat) by (subst n; destruct (shadow0 =? 0); lia).
  destruct (gt_ensure_shadow_frame l w frame shadow0) as [[[shadow l1] w1]|[l1 w1]].
  2:{ exact Hs. }
  destruct (gt_page_record_collection l1 !! shadow) as [page|].
  - destruct (children page !! off); [exact Hs|].
    replace n with (n + 0)%nat by lia.
    eapply reserves_trans; [exact Hs|apply gt_add_paddr_record_reserves].
  - destruct (negb _); [exact Hs|].
    match goal with |- context [vmi_write_pa ?a ?b ?c] =>
      pose proof (vmi_write_pa_reserves a b c) as Hw;
      destruct (vmi_write_pa a b c) as [ret w2] end.
    cbn [snd] in *. pose proof (reserves_trans _ _ _ _ _ Hs Hw) as H2.
    replace (n + 0)%nat with n in H2 by lia.
    destruct (negb _); [exact H2|].
    replace n with (n + 0)%nat by lia.
    eapply reserves_trans; [exact H2|].
    eapply (reserves_trans 0 0); [|apply gt_add_paddr_record_reserves].
    apply reserves_same; reflexivity.
Qed.

Lemma gt_allocate_shadow_frame_interrupted l w :
  gt_interrupted (snd (fst (gt_allocate_shadow_frame l w))) = gt_interrupted l.
Proof.
  unfold gt_allocate_shadow_frame.
  destruct (xc_domain_setmaxmem _ _) as [rc1 w1].
  destruct (rc1 <? 0); [reflexivity|].
  destruct (xc_domain_increase_reservation_exact w1) as [[rc2 gfn] w2].
  destruct (rc2 <? 0); [reflexivity|].
  destruct (xc_domain_populate_physmap_exact w2 gfn) as [rc3 w3].
  destruct (rc3 <? 0); reflexivity.
Qed.

Lemma gt_ensure_shadow_frame_interrupted l w frame shadow :
  match gt_ensure_shadow_frame l w frame shadow with
  | inl (_, l', _) | inr (l', _) => gt_interrupted l' = gt_interrupted l
  end.
Proof.
  unfold gt_ensure_shadow_frame. destruct (shadow =? 0); [|reflexivity].
  pose proof (gt_allocate_shadow_frame_interrupted l w) as Ha.
  destruct (gt_allocate_shadow_frame l w) as [[shadow' l1] w1]; cbn [fst snd] in Ha.
  destruct (shadow' =? 0); [exact Ha|].
  destruct (xc_altp2m_change_gfn _ _ _ _) as [st w2].
  destruct (st <? 0); exact Ha.
Qed.

Lemma gt_add_paddr_record_interrupted l w page shadow off cb rcb d :
  gt_interrupted (snd (fst (gt_add_paddr_record l w page shadow off cb rcb d)))
  = gt_interrupted l.
Proof.
  unfold gt_add_paddr_record, g_new0.
  destruct (vmi_write_8_pa _ _ _) as [ok w2]. destruct (negb ok); reflexivity.
Qed.

Lemma gt_setup_mem_trap_interrupted l w va cb rcb d :
  gt_interrupted (snd (fst (gt_setup_mem_trap l w va cb rcb d))) = gt_interrupted l.
Proof.
  unfold gt_setup_mem_trap.
  destruct (vmi_translate_kv2p w va =? 0); [reflexivity|].
  set (frame := Z.shiftr _ _). set (off := _ mod _). set (shadow0 := default 0 _).
  pose proof (gt_ensure_shadow_frame_interrupted l w frame shadow0) as Hs.
  destruct (gt_ensure_shadow_frame l w frame shadow0) as [[[shadow l1] w1]|[l1 w1]];
    [|exact Hs].
  destruct (gt_page_record_collection l1 !! shadow) as [page|].
  - destruct (children page !! off); [exact Hs|].
    rewrite gt_add_paddr_record_interrupted. exact Hs.
  - destruct (negb _); [exact Hs|].
    destruct (vmi_write_pa _ _ _) as [ret w2].
    destruct (negb _); [exact Hs|].
    rewrite gt_add_paddr_record_interrupted. exact Hs.
Qed.

(** An install at an address that has a record is a lookup. *)
Lemma install_on_registered l w va r cb rcb d :
  vmi_translate_kv2p w va ≠ 0 ->
  gt_paddr_record_from_va l w va = Some r ->
  gt_setup_mem_trap l w va cb rcb d = (Some r, l, w).
Proof.
  intros Hpa Hreg. unfold gt_setup_mem_trap.
  apply Z.eqb_neq in Hpa. rewrite Hpa.
  unfold gt_paddr_record_from_va, gt_paddr_record_from_pa in Hreg.
  unfold gt_ensure_shadow_frame.
  destruct (default 0 _ =? 0); [discriminate|].
  destruct (gt_page_record_collection l !! _) as [page|]; [|discriminate].
  rewrite Hreg. reflexivity.
Qed.

Lemma install_needs_translation l w va r cb rcb d :
  fst (fst (gt_setup_mem_trap l w va cb rcb d)) = Some r ->
  vmi_translate_kv2p w va ≠ 0.
Proof.
  unfold gt_setup_mem_trap. intros H Hz. apply Z.eqb_eq in Hz.
  rewrite Hz in H. discriminate.
Qed.

Section Install.

Variables (l : GTLoop) (w : World) (va : Z).

(** C10. An install at an address that has a record changes neither the
    tables nor the world: the record keeps its callbacks and payload, the
    ones supplied are dropped, no byte is written; the call returns that
    record. *)
Theorem install_at_trapped_address_keeps_record r syscall_cb sysret_cb user_data :
  gt_paddr_record_from_va l w va = Some r ->
  let again := gt_setup_mem_trap l w va syscall_cb sysret_cb user_data in
  snd (fst again) = l
  ∧ snd again = w
  ∧ gt_paddr_record_from_va (snd (fst again)) (snd again) va = Some r
  ∧ (vmi_translate_kv2p w va ≠ 0 -> fst (fst again) = Some r).
Proof.
  intros Hreg again.
  destruct (Z.eq_dec (vmi_translate_kv2p w va) 0) as [Hz|Hnz].
  - assert (Hnone : again = (None, l, w)).
    { subst again. unfold gt_setup_mem_trap.
      apply Z.eqb_eq in Hz. rewrite Hz. reflexivity. }
    rewrite Hnone. cbn [fst snd]. repeat apply conj; try reflexivity.
    + exact Hreg.
    + intros Hne. apply Z.eqb_eq in Hz. apply Z.eqb_neq in Hne. congruence.
  - assert (Hsame : again = (Some r, l, w))
      by (apply install_on_registered; assumption).
    rewrite Hsame. cbn [fst snd]. repeat apply conj; try reflexivity.
    exact Hreg.
Qed.

(** C1, as amended.  When an install returns a record that the table
    then holds for the address, a second install at the address returns
    the same record and changes nothing (no second record, no frame
    handed out); the first install has at most one frame handed out, and
    none when the frame of the address already had a shadow. *)
Theorem repeated_install_returns_same_record r cb1 rcb1 d1 cb2 rcb2 d2 :
  let first := gt_setup_mem_trap l w va cb1 rcb1 d1 in
  let l1 := snd (fst first) in
  let w1 := snd first in
  fst (fst first) = Some r ->
  gt_paddr_record_from_va l1 w1 va = Some r ->
  gt_setup_mem_trap l1 w1 va cb2 rcb2 d2 = (Some r, l1, w1)
  ∧ (length (reserved (xen w1)) <= length (reserved (xen w)) + 1)%nat
  ∧ (default 0 (gt_page_translation l
                  !! Z.shiftr (vmi_translate_kv2p w va) GT_PAGE_OFFSET_BITS) ≠ 0 ->
     reserved (xen w1) = reserved (xen w)).
Proof.
  intros first l1 w1 Hret Hreg.
  pose proof (gt_setup_mem_trap_reserves l w va cb1 rcb1 d1) as (Hk & _ & gfns & Hlen & Hres).
  fold first in Hk, Hres. fold w1 in Hk, Hres.
  split; [|split].
  - apply install_on_registered; [|exact Hreg].
    unfold vmi_translate_kv2p. rewrite Hk.
    apply (install_needs_translation l w va r cb1 rcb1 d1 Hret).
  - rewrite Hres, length_app.
    destruct (_ =? 0) in Hlen; lia.
  - intros Hknown. apply Z.eqb_neq in Hknown. rewrite Hknown in Hlen.
    destruct gfns; [exact Hres|simpl in Hlen; lia].
Qed.

End Install.

(** ** What an install registers *)

Lemma gt_ensure_shadow_frame_known l w frame shadow0 shadow l1 w1 :
  shadow0 = default 0 (gt_page_translation l !! frame) ->
  gt_ensure_shadow_frame l w frame shadow0 = inl (shadow, l1, w1) ->
  default 0 (gt_page_translation l1 !! frame) = shadow
  ∧ shadow ≠ 0
  ∧ gt_page_record_collection l1 = gt_page_record_collection l.
Proof.
  intros Hs0. unfold gt_ensure_shadow_frame.
  destruct (shadow0 =? 0) eqn:Hz.
  - assert (Hcol : gt_page_record_collection (snd (fst (gt_allocate_shadow_frame l w)))
                   = gt_page_record_collection l).
    { unfold gt_allocate_shadow_frame.
      destruct (xc_domain_setmaxmem _ _) as [rc1 wa].
      destruct (rc1 <? 0); [reflexivity|].
      destruct (xc_domain_increase_reservation_exact wa) as [[rc2 gfn] wb].
      destruct (rc2 <? 0); [reflexivity|].
      destruct (xc_domain_populate_physmap_exact wb gfn) as [rc3 wc].
      destruct (rc3 <? 0); reflexivity. }
    destruct (gt_allocate_shadow_frame l w) as [[shadow' l'] w']. cbn [fst snd] in Hcol.
    destruct (shadow' =? 0) eqn:Hz'; [discriminate|].
    destruct (xc_altp2m_change_gfn _ _ _ _) as [st w2].
    destruct (st <? 0); [discriminate|].
    intros H. injection H as <- <- <-. cbn.
    rewrite lookup_insert_eq. cbn. apply Z.eqb_neq in Hz'. auto.
  - intros H. injection H as <- <- <-. apply Z.eqb_neq in Hz.
    rewrite <- Hs0. auto.
Qed.

Lemma vmi_write_8_pa_fails w pa v :
  fst (vmi_write_8_pa w pa v) = false ->
  valid_pa (snd (vmi_write_8_pa w pa v)) pa = false.
Proof.
  unfold vmi_write_8_pa, vmi_write_pa. cbn [length valid_prefix].
  destruct (valid_pa w pa) eqn:Hv; cbn; [discriminate|]. intros _. exact Hv.
Qed.

(** The record the tail of the install returns is the child stored under
    its offset, unless its breakpoint byte could not be written. *)
Lemma gt_add_paddr_record_registers l w page shadow off cb rcb d :
  gt_page_record_collection l !! shadow = Some page ->
  ∃ r l' w',
    gt_add_paddr_record l w page shadow off cb rcb d = (Some r, l', w')
    ∧ parent r = shadow ∧ offset r = off
    ∧ gt_page_translation l' = gt_page_translation l
    ∧ ((∃ page', gt_page_record_collection l' !! shadow = Some page'
                 ∧ children page' !! off = Some r)
       ∨ valid_pa w' (shadow_byte_pa r) = false).
Proof.
  intros Hpage. unfold gt_add_paddr_record, g_new0.
  match goal with |- context [vmi_write_8_pa ?w0 ?pa ?v] =>
    pose proof (vmi_write_8_pa_fails w0 pa v) as Hfail;
    destruct (vmi_write_8_pa w0 pa v) as [ok w2] end.
  cbn [fst snd] in Hfail. destruct ok; cbn [negb].
  - eexists _, _, _. split; [reflexivity|]. repeat apply conj; try reflexivity.
    left. eexists. cbn. rewrite lookup_insert_eq. split; [reflexivity|].
    cbn. apply lookup_insert_eq.
  - eexists _, _, _. split; [reflexivity|]. repeat apply conj; try reflexivity.
    right. apply Hfail. reflexivity.
Qed.

(** X2. An install that returns a record has stored it in the table, unless
    the breakpoint byte of the record could not be written. *)
Lemma install_registers_record l w va cb rcb d r :
  let done := gt_setup_mem_trap l w va cb rcb d in
  fst (fst done) = Some r ->
  gt_paddr_record_from_va (snd (fst done)) (snd done) va = Some r
  ∨ valid_pa (snd done) (shadow_byte_pa r) = false.
Proof.
  intros done Hret.
  pose proof (gt_setup_mem_trap_reserves l w va cb rcb d) as (Hk & _).
  fold done in Hk.
  unfold gt_paddr_record_from_va, gt_paddr_record_from_pa, vmi_translate_kv2p.
  rewrite Hk. fold (vmi_translate_kv2p w va).
  revert Hret. subst done. unfold gt_setup_mem_trap.
  destruct (vmi_translate_kv2p w va =? 0); [discriminate|].
  set (frame := Z.shiftr _ _). set (off := _ mod _).
  destruct (gt_ensure_shadow_frame l w frame _) as [[[shadow l1] w1]|[l1 w1]] eqn:He;
    [|discriminate].
  apply gt_ensure_shadow_frame_known in He as (Htr & Hnz & Hcol); [|reflexivity].
  apply Z.eqb_neq in Hnz.
  destruct (gt_page_record_collection l1 !! shadow) as [page|] eqn:Hpage.
  - destruct (children page !! off) as [r'|] eqn:Hchild.
    + cbn [fst snd]. intros H. injection H as ->. left.
      rewrite Htr, Hnz, Hpage. exact Hchild.
    + destruct (gt_add_paddr_record_registers l1 w1 page shadow off cb rcb d Hpage)
        as (r' & l' & w' & Hadd & Hparent & Hoff & Htr' & Hcase).
      rewrite Hadd. cbn [fst snd]. intros H. injection H as ->.
      destruct Hcase as [(page' & Hp' & Hc')|Hbad]; [left|right; exact Hbad].
      rewrite Htr', Htr, Hnz, Hp'. exact Hc'.
  - destruct (negb _); [discriminate|].
    destruct (vmi_write_pa _ _ _) as [ret w2].
    destruct (negb _); [discriminate|].
    match goal with |- context [gt_add_paddr_record ?l2 ?w3 ?pg _ _ _ _ _] =>
      destruct (gt_add_paddr_record_registers l2 w3 pg shadow off cb rcb d)
        as (r' & l' & w' & Hadd & Hparent & Hoff & Htr' & Hcase) end.
    { cbn. apply lookup_insert_eq. }
    rewrite Hadd. cbn [fst snd]. intros H. injection H as ->.
    destruct Hcase as [(page' & Hp' & Hc')|Hbad]; [left|right; exact Hbad].
    rewrite Htr'. cbn [gt_page_translation set_page_record_collection].
    rewrite Htr, Hnz, Hp'. exact Hc'.
Qed.

(** ** Registering callbacks *)

Lemma gt_loop_set_cb_unresolved l w kernel_func cb rcb d :
  vmi_translate_ksym2v w kernel_func = 0 ->
  gt_loop_set_cb l w kernel_func cb rcb d
  = (false, l, vmi_resume_vm (vmi_pause_vm w)).
Proof.
  intros Hsym. unfold gt_loop_set_cb.
  change (vmi_translate_ksym2v (vmi_pause_vm w) kernel_func)
    with (vmi_translate_ksym2v w kernel_func).
  rewrite Hsym. reflexivity.
Qed.

Lemma gt_loop_set_cb_interrupted l w kernel_func cb rcb d :
  gt_interrupted (snd (fst (gt_loop_set_cb l w kernel_func cb rcb d)))
  = gt_interrupted l.
Proof.
  unfold gt_loop_set_cb. destruct (_ =? 0); [reflexivity|].
  match goal with |- context [gt_setup_mem_trap ?a ?b ?c ?e ?f ?g] =>
    pose proof (gt_setup_mem_trap_interrupted a b c e f g) as H;
    destruct (gt_setup_mem_trap a b c e f g) as [[[r|] l1] w2] end; exact H.
Qed.

Lemma gt_loop_set_cb_ksym2v l w kernel_func cb rcb d :
  ksym2v (guest (snd (gt_loop_set_cb l w kernel_func cb rcb d))) = ksym2v (guest w).
Proof.
  unfold gt_loop_set_cb. destruct (_ =? 0); [reflexivity|].
  match goal with |- context [gt_setup_mem_trap ?a ?b ?c ?e ?f ?g] =>
    pose proof (gt_setup_mem_trap_reserves a b c e f g) as (_ & H & _);
    destruct (gt_setup_mem_trap a b c e f g) as [[[r|] l1] w2] end; exact H.
Qed.

Lemma gt_loop_set_cbs_from_counts cbs count l w :
  gt_interrupted l = false ->
  gt_loop_set_cbs_from count l w cbs
  = (count + installed (fst (fst (set_cb_per_entry l w cbs))),
     snd (fst (set_cb_per_entry l w cbs)), snd (set_cb_per_entry l w cbs)).
Proof.
  revert count l w. induction cbs as [|c rest IH]; intros count l w Hrun.
  - cbn. f_equal. f_equal. unfold installed. simpl. lia.
  - cbn [gt_loop_set_cbs_from set_cb_per_entry]. rewrite Hrun.
    pose proof (gt_loop_set_cb_interrupted l w (name c) (cb_syscall_cb c)
                  (cb_sysret_cb c) (user_data c)) as Hflag.
    destruct (gt_loop_set_cb l w _ _ _ _) as [[ok l1] w1]. cbn [fst snd] in Hflag.
    rewrite IH by congruence.
    destruct (set_cb_per_entry l1 w1 rest) as [[oks l2] w2]. cbn [fst snd].
    f_equal. f_equal. unfold installed. destruct ok; simpl; lia.
Qed.

Lemma set_cb_per_entry_length cbs l w :
  length (fst (fst (set_cb_per_entry l w cbs))) = length cbs.
Proof.
  revert l w. induction cbs as [|c rest IH]; intros l w; [reflexivity|].
  cbn [set_cb_per_entry].
  destruct (gt_loop_set_cb l w _ _ _ _) as [[ok l1] w1].
  specialize (IH l1 w1).
  destruct (set_cb_per_entry l1 w1 rest) as [[oks l2] w2].
  cbn [fst snd length] in *. rewrite IH. reflexivity.
Qed.

Lemma set_cb_per_entry_unresolved cbs l w (i : nat) c :
  cbs !! i = Some c ->
  ksym2v (guest w) (name c) = 0 ->
  fst (fst (set_cb_per_entry l w cbs)) !! i = Some false.
Proof.
  revert l w i. induction cbs as [|c0 rest IH]; intros l w i Hi Hsym; [discriminate|].
  cbn [set_cb_per_entry]. destruct i as [|i].
  - injection Hi as ->.
    rewrite gt_loop_set_cb_unresolved by exact Hsym.
    destruct (set_cb_per_entry _ _ rest) as [[oks l2] w2]. reflexivity.
  - pose proof (gt_loop_set_cb_ksym2v l w (name c0) (cb_syscall_cb c0)
                  (cb_sysret_cb c0) (user_data c0)) as Hk.
    destruct (gt_loop_set_cb l w _ _ _ _) as [[ok l1] w1]. cbn [snd] in Hk.
    specialize (IH l1 w1 i Hi). rewrite Hk in IH. specialize (IH Hsym).
    destruct (set_cb_per_entry l1 w1 rest) as [[oks l2] w2]. exact IH.
Qed.

Section SetCallbacks.

Variables (l : GTLoop) (w : World) (callbacks : list GTSyscallCallback).

(** While the loop is not interrupted, set-callbacks is set-callback on
    each entry in turn and returns the number of entries for which
    set-callback returned [true]; every entry gets an outcome, an entry
    whose symbol resolves to 0 gets [false], and set-callback on such an
    entry leaves the loop as it was and the world paused and resumed,
    nothing else. *)
Theorem set_cbs_counts_true_results :
  gt_interrupted l = false ->
  let each := set_cb_per_entry l w callbacks in
  gt_loop_set_cbs l w callbacks
  = (installed (fst (fst each)), snd (fst each), snd each)
  ∧ length (fst (fst each)) = length callbacks
  ∧ (∀ (i : nat) c,
       callbacks !! i = Some c ->
       vmi_translate_ksym2v w (name c) = 0 ->
       fst (fst each) !! i = Some false)
  ∧ (∀ l0 w0 c,
       vmi_translate_ksym2v w0 (name c) = 0 ->
       gt_loop_set_cb l0 w0 (name c) (cb_syscall_cb c) (cb_sysret_cb c)
                      (user_data c)
       = (false, l0, vmi_resume_vm (vmi_pause_vm w0))).
Proof.
  intros Hrun each. repeat split.
  - unfold gt_loop_set_cbs. rewrite gt_loop_set_cbs_from_counts by exact Hrun.
    reflexivity.
  - apply set_cb_per_entry_length.
  - intros i c Hi Hsym. apply (set_cb_per_entry_unresolved _ _ _ _ c Hi Hsym).
  - intros l0 w0 c. apply gt_loop_set_cb_unresolved.
Qed.

End SetCallbacks.

(** ** Guest memory *)

Lemma store_bytes_lookup bs m pa a :
  store_bytes m pa bs !! a
  = if (pa <=? a) && (a <? pa + Z.of_nat (length bs))
    then bs !! Z.to_nat (a - pa)
    else m !! a.
Proof.
  revert m pa. induction bs as [|b rest IH]; intros m pa.
  - cbn [store_bytes length].
    destruct (Z.leb_spec pa a), (Z.ltb_spec a (pa + Z.of_nat 0));
      cbn [andb]; try reflexivity; lia.
  - cbn [store_bytes length]. rewrite IH.
    destruct (Z.eq_dec a pa) as [->|Hne].
    + destruct (Z.leb_spec (pa + 1) pa); [lia|]. cbn [andb].
      rewrite lookup_insert_eq.
      destruct (Z.leb_spec pa pa); [|lia].
      destruct (Z.ltb_spec pa (pa + Z.of_nat (S (length rest)))); [|lia].
      cbn [andb]. replace (pa - pa) with 0 by lia. reflexivity.
    + rewrite lookup_insert_ne by congruence.
      destruct (Z.leb_spec (pa + 1) a), (Z.leb_spec pa a); try lia; cbn [andb];
        [|reflexivity].
      destruct (Z.ltb_spec a (pa + 1 + Z.of_nat (length rest))),
               (Z.ltb_spec a (pa + Z.of_nat (S (length rest)))); try lia;
        [|reflexivity].
      replace (Z.to_nat (a - pa)) with (S (Z.to_nat (a - (pa + 1)))) by lia.
      reflexivity.
Qed.

Lemma store_bytes_overwrite m pa bs1 bs2 :
  length bs1 = length bs2 ->
  store_bytes (store_bytes m pa bs1) pa bs2 = store_bytes m pa bs2.
Proof.
  intros Hlen. apply map_eq. intros a. rewrite !store_bytes_lookup, Hlen.
  destruct (_ && _); reflexivity.
Qed.

Lemma vmi_write_pa_bytes w pa buf :
  bytes (guest (snd (vmi_write_pa w pa buf)))
  = store_bytes (bytes (guest w)) pa (take (valid_prefix w pa (length buf)) buf).
Proof. unfold vmi_write_pa. destruct (valid_prefix _ _ _); reflexivity. Qed.

Lemma vmi_write_64_pa_bytes w pa v :
  bytes (guest (snd (vmi_write_64_pa w pa v)))
  = store_bytes (bytes (guest w)) pa (take (valid_prefix w pa 8) (le_bytes 8 v)).
Proof.
  rewrite vmi_write_64_pa_unfold. cbn [snd].
  rewrite vmi_write_pa_bytes, length_le_bytes. reflexivity.
Qed.

Lemma vmi_read_64_pa_backed w pa v :
  vmi_read_64_pa w pa = Some v -> valid_prefix w pa 8 = 8%nat.
Proof.
  unfold vmi_read_64_pa, vmi_read_pa. rewrite length_load_bytes.
  destruct (Nat.eqb _ 8) eqn:H; [|discriminate]. intros _.
  apply Nat.eqb_eq in H. exact H.
Qed.

(** ** The two dispatchers *)

Lemma corresponding_records l s pa :
  corresponds l s ->
  is_Some (gt_paddr_record_from_pa l pa)
  ↔ is_Some (VF.vf_paddr_record_from_pa s pa).
Proof.
  intros (_ & _ & _ & Htr & Hcol & _).
  unfold gt_paddr_record_from_pa, VF.vf_paddr_record_from_pa. rewrite <- Htr.
  destruct (default 0 _ =? 0); [split; intros [? ?]; discriminate|].
  set (shadow := default 0 _).
  pose proof (f_equal (λ m, m !! shadow) Hcol) as Hk. cbn beta in Hk.
  rewrite !lookup_fmap in Hk.
  destruct (gt_page_record_collection l !! shadow) as [p1|];
    destruct (VF.vf_page_record_collection s !! shadow) as [p2|];
    try discriminate; [|split; intros [? ?]; discriminate].
  injection Hk as Hdom.
  rewrite <- !elem_of_dom, Hdom. reflexivity.
Qed.

Lemma corresponding_threads l s tid :
  corresponds l s ->
  is_Some (gt_ret_addr_mapping l !! tid)
  ↔ is_Some (VF.vf_ret_addr_mapping s !! tid).
Proof.
  intros (_ & _ & _ & _ & _ & Hdom & _).
  rewrite <- !elem_of_dom, Hdom. reflexivity.
Qed.

Section Equivalence.

Variables (l : GTLoop) (s : VF.vf_state) (w : World) (event : vmi_event_t).

Hypothesis related : corresponds l s.

Lemma call_sites_agree :
  gla event ≠ trampoline_addr l ->
  is_Some (gt_paddr_record_from_va l w (gla event)) ->
  vmi_translate_kv2p w (rsp event) ≠ 0 ->
  is_Some (vmi_read_64_pa w (vmi_translate_kv2p w (rsp event))) ->
  let '(r1, e1, l', w1) := gt_breakpoint_cb l w event in
  let '(r2, e2, s', w2) := VF.vf_breakpoint_cb s w event in
  r1 = r2 ∧ e1 = e2
  ∧ bytes (guest w1) = bytes (guest w2) ∧ rip (guest w1) = rip (guest w2)
  ∧ corresponds l' s'.
Proof.
  intros Hsite [record Hrec] Hloc [v Hread].
  pose proof related as (Hret & Htramp & Hwidth & Htr & Hcol & Hdom & Hkeys).
  assert (Hrec' : is_Some (VF.vf_paddr_record_from_va s w (gla event))).
  { apply (corresponding_records l s _ related). exists record. exact Hrec. }
  destruct Hrec' as [record' Hrec'].
  unfold gt_breakpoint_cb, VF.vf_breakpoint_cb.
  rewrite <- Htramp. rewrite call_site_test by assumption.
  cbn [gla rsp cr3 vcpu_id set_reinject set_slat_id]. rewrite Hrec, Hrec'.
  apply Z.eqb_neq in Hloc. rewrite Hloc, Hread.
  change (default (indeterminate w) (Some v)) with v.
  rewrite <- Hret.
  destruct (v =? return_addr l) eqn:Hv; cbn [negb].
  2:{ repeat split; try reflexivity; assumption. }
  set (loc := vmi_translate_kv2p w (rsp event)) in *.
  pose proof (vmi_read_64_pa_backed w loc v Hread) as Hbacked.
  unfold ret_addr_mapping_insert.
  set (w1 := log (ESyscallCb _ _ _ _) w).
  set (w1' := log (EPrintSyscall _ _) w).
  split; [reflexivity|]. split; [reflexivity|].
  split; [|split].
  - (* guest memory *)
    rewrite !vmi_write_64_pa_bytes.
    destruct (gt_ret_addr_mapping l !! rsp event) as [old|] eqn:Hold.
    + pose proof (Hkeys _ _ Hold) as Hkey. cbn beta in Hkey.
      unfold gt_restore_return_addr. rewrite Hkey.
      change (vmi_translate_kv2p w1 (rsp event)) with loc. rewrite Hloc.
      rewrite (valid_prefix_xen w1) by apply vmi_write_64_pa_xen.
      rewrite vmi_write_64_pa_bytes.
      rewrite (valid_prefix_xen w w1), (valid_prefix_xen w w1'), Hbacked
        by reflexivity.
      rewrite !take_ge by (rewrite length_le_bytes; lia).
      apply store_bytes_overwrite. rewrite !length_le_bytes. reflexivity.
    + rewrite (valid_prefix_xen w w1), (valid_prefix_xen w w1') by reflexivity.
      reflexivity.
  - (* RIP *)
    rewrite !vmi_write_64_pa_rip.
    destruct (gt_ret_addr_mapping l !! rsp event) as [old|];
      [rewrite gt_restore_return_addr_rip|]; reflexivity.
  - (* the tables afterwards *)
    repeat split; try assumption; cbn.
    + rewrite !dom_insert_L, Hdom. reflexivity.
    + apply map_Forall_insert_2; [reflexivity|exact Hkeys].
Qed.

Lemma return_sites_agree :
  gla event = trampoline_addr l ->
  vmi_translate_kv2p w (wrap64 (rsp event - 8)) ≠ 0 ->
  let '(r1, e1, l', w1) := gt_breakpoint_cb l w event in
  let '(r2, e2, s', w2) := VF.vf_breakpoint_cb s w event in
  r1 = r2 ∧ e1 = e2
  ∧ bytes (guest w1) = bytes (guest w2) ∧ rip (guest w1) = rip (guest w2)
  ∧ corresponds l' s'.
Proof.
  intros Hsite Hloc.
  pose proof related as (Hret & Htramp & Hwidth & Htr & Hcol & Hdom & Hkeys).
  unfold gt_breakpoint_cb, VF.vf_breakpoint_cb.
  rewrite <- Htramp. rewrite return_site_test by assumption.
  cbn [gla rsp cr3 vcpu_id set_reinject set_slat_id]. rewrite Hwidth.
  set (tid := wrap64 (rsp event - 8)) in *.
  pose proof (corresponding_threads l s tid related) as Htid.
  destruct (gt_ret_addr_mapping l !! tid) as [state|] eqn:Hst;
    destruct (VF.vf_ret_addr_mapping s !! tid) as [record|] eqn:Hrec.
  - unfold ret_addr_mapping_remove. rewrite Hst.
    pose proof (Hkeys _ _ Hst) as Hkey. cbn beta in Hkey.
    set (w1 := log (ESysretCb _ _ _ _) w).
    set (w1' := log (EPrintSysret _ _) w).
    split; [reflexivity|]. split; [reflexivity|]. split; [|split].
    + unfold gt_restore_return_addr. rewrite Hkey.
      change (vmi_translate_kv2p (vmi_set_vcpureg_rip w1 _ _) tid)
        with (vmi_translate_kv2p w tid).
      change (vmi_translate_kv2p w1' tid) with (vmi_translate_kv2p w tid).
      apply Z.eqb_neq in Hloc. rewrite Hloc.
      rewrite vmi_write_64_pa_bytes. cbn [vmi_set_vcpureg_rip guest set_guest log bytes set_rip].
      rewrite vmi_write_64_pa_bytes, <- Hret.
      rewrite (valid_prefix_xen w (vmi_set_vcpureg_rip w1 _ _)),
        (valid_prefix_xen w w1') by reflexivity.
      reflexivity.
    + rewrite gt_restore_return_addr_rip.
      cbn [vmi_set_vcpureg_rip guest set_guest log rip set_rip].
      rewrite vmi_write_64_pa_rip, <- Hret. reflexivity.
    + repeat split; try assumption; cbn.
      * rewrite !dom_delete_L, Hdom. reflexivity.
      * apply map_Forall_delete, Hkeys.
  - exfalso. destruct Htid as [Htid _]. destruct Htid; [eauto|discriminate].
  - exfalso. destruct Htid as [_ Htid]. destruct Htid; [eauto|discriminate].
  - repeat split; try reflexivity; assumption.
Qed.

End Equivalence.

Lemma le_val_le_bytes n v : le_val (le_bytes n v) = v mod 256 ^ Z.of_nat n.
Proof.
  revert v. induction n as [|n IH]; intros v.
  - cbn. rewrite Z.mod_1_r. reflexivity.
  - cbn [le_bytes le_val]. rewrite IH.
    replace (256 ^ Z.of_nat (S n)) with (256 * 256 ^ Z.of_nat n)
      by (rewrite Nat2Z.inj_succ, Z.pow_succ_r by lia; reflexivity).
    rewrite Z.rem_mul_r by (try apply Z.pow_pos_nonneg; lia). reflexivity.
Qed.

Lemma load_bytes_stored w m pa bs :
  bytes (guest w) = store_bytes m pa bs ->
  load_bytes w pa (length bs) = bs.
Proof.
  revert m pa. induction bs as [|b rest IH]; intros m pa Hm; [reflexivity|].
  cbn [length load_bytes]. f_equal.
  - unfold byte_at. rewrite Hm. cbn [store_bytes]. rewrite store_bytes_lookup.
    destruct (Z.leb_spec (pa + 1) pa); [lia|]. cbn [andb].
    rewrite lookup_insert_eq. reflexivity.
  - apply (IH (<[pa := b]> m)). exact Hm.
Qed.

(** A 64-bit word written to a backed slot is the word read back. *)
Lemma vmi_write_64_pa_read_back w pa v :
  valid_prefix w pa 8 = 8%nat ->
  vmi_read_64_pa (snd (vmi_write_64_pa w pa v)) pa = Some (wrap64 v).
Proof.
  intros Hv. unfold vmi_read_64_pa, vmi_read_pa.
  rewrite (valid_prefix_xen w) by apply vmi_write_64_pa_xen. rewrite Hv.
  rewrite length_load_bytes. cbn [Nat.eqb]. f_equal.
  pose proof (vmi_write_64_pa_bytes w pa v) as Hb. rewrite Hv in Hb.
  rewrite take_ge in Hb by (rewrite length_le_bytes; lia).
  pose proof (load_bytes_stored _ _ _ _ Hb) as Hl.
  rewrite length_le_bytes in Hl. rewrite Hl, le_val_le_bytes. reflexivity.
Qed.

(** After the notifier has run, the slot of the thread holds the
    canonical return address. *)
Lemma gt_restore_return_addr_restores l w st :
  vmi_translate_kv2p w (thread_id st) ≠ 0 ->
  valid_prefix w (vmi_translate_kv2p w (thread_id st)) 8 = 8%nat ->
  vmi_read_64_pa (gt_restore_return_addr l w st)
                 (vmi_translate_kv2p w (thread_id st))
  = Some (wrap64 (return_addr l)).
Proof.
  intros Hpa Hv. unfold gt_restore_return_addr.
  apply Z.eqb_neq in Hpa. rewrite Hpa.
  apply vmi_write_64_pa_read_back, Hv.
Qed.

(** When the breakpoint byte cannot be written, the install still
    hands a record to its caller, one that no table holds. *)
Lemma gt_add_paddr_record_write_fails l w page shadow off cb rcb d :
  valid_pa w (wrap64 (wrap64 (Z.shiftl shadow GT_PAGE_OFFSET_BITS) + off)) = false ->
  ∃ w',
    gt_add_paddr_record l w page shadow off cb rcb d
    = (Some (mkPaddr (heap_next w) off cb rcb shadow d), l, w').
Proof.
  intros Hbad. unfold gt_add_paddr_record, g_new0, vmi_write_8_pa, vmi_write_pa.
  cbn [length valid_prefix]. unfold valid_pa in *. cbn [xen]. rewrite Hbad.
  eexists. reflexivity.
Qed.

(** X5. A call-site trap with the expected stack: the entry callback runs,
    its result is kept under the stack pointer, and the stack slot holds
    the trampoline address afterwards. *)
Lemma call_site_trap_records_entry l w event record :
  gla event ≠ trampoline_addr l ->
  gt_paddr_record_from_va l w (gla event) = Some record ->
  vmi_translate_kv2p w (rsp event) ≠ 0 ->
  vmi_read_64_pa w (vmi_translate_kv2p w (rsp event)) = Some (return_addr l) ->
  let pid := vmi_dtb_to_pid w (cr3 event) in
  let payload := cb_return w (syscall_cb record) pid (rsp event) (data record) in
  let '(response, event', l', w') := gt_breakpoint_cb l w event in
  response = response_or VMI_EVENT_RESPONSE_TOGGLE_SINGLESTEP
                         VMI_EVENT_RESPONSE_VMM_PAGETABLE_ID
  ∧ event' = set_slat_id 0 (set_reinject 0 event)
  ∧ gt_ret_addr_mapping l'
    = <[rsp event := mkState record payload (rsp event)]> (gt_ret_addr_mapping l)
  ∧ ESyscallCb (syscall_cb record) pid (rsp event) (data record) ∈ trace w'
  ∧ vmi_read_64_pa w' (vmi_translate_kv2p w (rsp event))
    = Some (wrap64 (trampoline_addr l)).
Proof.
  intros Hsite Hrec Hloc Hread pid payload.
  pose proof (vmi_read_64_pa_backed _ _ _ Hread) as Hbacked.
  unfold gt_breakpoint_cb. rewrite call_site_test by assumption.
  cbn [gla rsp cr3 vcpu_id set_reinject set_slat_id]. rewrite Hrec.
  apply Z.eqb_neq in Hloc. rewrite Hloc, Hread, Z.eqb_refl. cbn [negb].
  unfold ret_addr_mapping_insert.
  set (w1 := log _ w).
  set (w2 := match gt_ret_addr_mapping l !! rsp event with
             | Some old => gt_restore_return_addr l w1 old
             | None => w1
             end).
  assert (Hx : xen w2 = xen w).
  { subst w2. destruct (_ !! _); [rewrite gt_restore_return_addr_xen|]; reflexivity. }
  assert (He : extends w1 w2).
  { subst w2. destruct (_ !! _);
      [apply gt_restore_return_addr_extends|apply extends_refl]. }
  repeat apply conj; try reflexivity.
  - eapply extends_elem; [apply vmi_write_64_pa_extends|].
    eapply extends_elem; [exact He|]. subst w1. cbn. apply list_elem_of_here.
  - apply vmi_write_64_pa_read_back.
    rewrite (valid_prefix_xen w) by exact Hx. exact Hbacked.
Qed.

(** ** The stack after the tracker is drained *)

Lemma load_bytes_agree w w' pa n :
  (∀ i, 0 <= i < Z.of_nat n -> byte_at w' (pa + i) = byte_at w (pa + i)) ->
  load_bytes w' pa n = load_bytes w pa n.
Proof.
  revert pa. induction n as [|n IH]; intros pa Hsame; [reflexivity|].
  cbn [load_bytes]. f_equal.
  - specialize (Hsame 0). rewrite Z.add_0_r in Hsame. apply Hsame. lia.
  - apply IH. intros i Hi. replace (pa + 1 + i) with (pa + (i + 1)) by lia.
    apply Hsame. lia.
Qed.

Lemma valid_prefix_bound w pa n : (valid_prefix w pa n <= n)%nat.
Proof.
  revert pa. induction n as [|n IH]; intros pa; cbn [valid_prefix]; [lia|].
  destruct (valid_pa w pa); [specialize (IH (pa + 1))|]; lia.
Qed.

(** A write that stays clear of a slot leaves the word in the slot. *)
Lemma vmi_write_64_pa_elsewhere w pa pa' v :
  pa' + 8 <= pa ∨ pa + 8 <= pa' ->
  vmi_read_64_pa (snd (vmi_write_64_pa w pa' v)) pa = vmi_read_64_pa w pa.
Proof.
  intros Hclear. unfold vmi_read_64_pa, vmi_read_pa.
  rewrite (valid_prefix_xen w) by apply vmi_write_64_pa_xen.
  rewrite !length_load_bytes.
  destruct (Nat.eqb (valid_prefix w pa 8) 8) eqn:Hv; [|reflexivity].
  f_equal. f_equal. apply load_bytes_agree. intros i Hi.
  pose proof (valid_prefix_bound w pa 8) as Hle.
  unfold byte_at. rewrite vmi_write_64_pa_bytes, store_bytes_lookup.
  rewrite length_take, length_le_bytes.
  pose proof (valid_prefix_bound w pa' 8) as Hle'.
  destruct (Z.leb_spec pa' (pa + i)), (Z.ltb_spec (pa + i)
    (pa' + Z.of_nat (valid_prefix w pa' 8 `min` 8))); cbn [andb]; try reflexivity.
  lia.
Qed.

Section Drain.

Variables (l : GTLoop) (pa : Z).

Lemma restore_keeps_slot w st :
  vmi_read_64_pa w pa = Some (wrap64 (return_addr l)) ->
  slot_apart pa w st ->
  vmi_read_64_pa (gt_restore_return_addr l w st) pa
  = Some (wrap64 (return_addr l)).
Proof.
  intros Hheld Hapart. unfold gt_restore_return_addr.
  destruct (_ =? 0) eqn:Hz; [exact Hheld|].
  destruct Hapart as [Hsame|Hclear].
  - rewrite Hsame. apply vmi_write_64_pa_read_back.
    apply (vmi_read_64_pa_backed w pa _ Hheld).
  - rewrite vmi_write_64_pa_elsewhere by exact Hclear. exact Hheld.
Qed.

Lemma drain_restores_slot sts w :
  pa ≠ 0 ->
  valid_prefix w pa 8 = 8%nat ->
  Forall (slot_apart pa w) sts ->
  vmi_read_64_pa w pa = Some (wrap64 (return_addr l))
  ∨ (∃ st, st ∈ sts ∧ vmi_translate_kv2p w (thread_id st) = pa) ->
  vmi_read_64_pa (foldl (gt_restore_return_addr l) w sts) pa
  = Some (wrap64 (return_addr l)).
Proof.
  intros Hpa. revert w. induction sts as [|s sts IH]; intros w Hv Hall Hcase.
  - destruct Hcase as [Hheld|(st & Hin & _)]; [exact Hheld|].
    apply elem_of_nil in Hin. contradiction.
  - cbn [foldl]. apply Forall_cons in Hall as [Hs Hall].
    assert (Hk : ∀ st, vmi_translate_kv2p (gt_restore_return_addr l w s) (thread_id st)
                       = vmi_translate_kv2p w (thread_id st)).
    { intros st. unfold vmi_translate_kv2p.
      rewrite gt_restore_return_addr_kv2p. reflexivity. }
    apply IH.
    + rewrite (valid_prefix_xen w); [exact Hv|apply gt_restore_return_addr_xen].
    + eapply Forall_impl; [exact Hall|]. intros st Hst.
      unfold slot_apart in *. rewrite Hk. exact Hst.
    + destruct (Z.eq_dec (vmi_translate_kv2p w (thread_id s)) pa) as [Hhere|Hnot].
      * left. rewrite <- Hhere. apply gt_restore_return_addr_restores.
        -- rewrite Hhere. exact Hpa.
        -- rewrite Hhere. exact Hv.
      * destruct Hcase as [Hheld|(st & Hin & Hst)].
        -- left. apply restore_keeps_slot; assumption.
        -- right. exists st. apply elem_of_cons in Hin as [->|Hin];
             [contradiction|]. split; [exact Hin|]. rewrite Hk. exact Hst.
Qed.

End Drain.

(** Draining the tracker leaves the canonical return address in the slot
    of every thread, when the slots of the threads tracked do not overlap
    in part. *)
Lemma drain_restores_every_slot l w tid state :
  gt_ret_addr_mapping l !! tid = Some state ->
  let pa := vmi_translate_kv2p w (thread_id state) in
  pa ≠ 0 ->
  valid_prefix w pa 8 = 8%nat ->
  map_Forall (λ _ st, slot_apart pa w st) (gt_ret_addr_mapping l) ->
  vmi_read_64_pa
    (destroy_values (gt_restore_return_addr l) (gt_ret_addr_mapping l) w) pa
  = Some (wrap64 (return_addr l)).
Proof.
  intros Hin pa Hpa Hv Hall. unfold destroy_values.
  apply drain_restores_slot; try assumption.
  - apply Forall_forall. intros st Hst.
    apply list_elem_of_fmap in Hst as ([k st'] & -> & Hst).
    apply elem_of_map_to_list in Hst. exact (Hall _ _ Hst).
  - right. exists state. split; [|reflexivity].
    apply list_elem_of_fmap. exists (tid, state). split; [reflexivity|].
    apply elem_of_map_to_list. exact Hin.
Qed.

(** ** The stack after quit *)

Lemma keeps_slot_refl pa w : keeps_slot pa w w.
Proof. split; [reflexivity|]. intros; reflexivity. Qed.

Lemma keeps_slot_trans pa w1 w2 w3 :
  keeps_slot pa w1 w2 -> keeps_slot pa w2 w3 -> keeps_slot pa w1 w3.
Proof.
  intros [Hv1 Hb1] [Hv2 Hb2]. split; [congruence|].
  intros i Hi. rewrite Hb2, Hb1 by exact Hi. reflexivity.
Qed.

Lemma keeps_slot_read pa w w' :
  keeps_slot pa w w' -> vmi_read_64_pa w' pa = vmi_read_64_pa w pa.
Proof.
  intros [Hv Hb]. unfold vmi_read_64_pa, vmi_read_pa. rewrite Hv.
  rewrite !length_load_bytes.
  destruct (Nat.eqb _ 8) eqn:H8; [|reflexivity].
  apply Nat.eqb_eq in H8. rewrite H8. f_equal. f_equal.
  apply load_bytes_agree. exact Hb.
Qed.

Lemma keeps_slot_same pa w w' :
  guest w' = guest w -> ram (xen w') = ram (xen w) -> keeps_slot pa w w'.
Proof.
  intros Hg Hr. split.
  - generalize 8%nat. intros n. revert pa.
    induction n as [|n IH]; intros pa; [reflexivity|].
    cbn [valid_prefix]. unfold valid_pa. rewrite Hr, IH. reflexivity.
  - intros i _. unfold byte_at. rewrite Hg. reflexivity.
Qed.

Lemma valid_prefix_agree w w' pa n :
  (∀ i, 0 <= i < Z.of_nat n -> valid_pa w' (pa + i) = valid_pa w (pa + i)) ->
  valid_prefix w' pa n = valid_prefix w pa n.
Proof.
  revert pa. induction n as [|n IH]; intros pa Hsame; [reflexivity|].
  cbn [valid_prefix].
  assert (H0 : valid_pa w' pa = valid_pa w pa).
  { specialize (Hsame 0). rewrite Z.add_0_r in Hsame. apply Hsame. lia. }
  rewrite H0. destruct (valid_pa w pa); [|reflexivity]. f_equal.
  apply IH. intros i Hi. replace (pa + 1 + i) with (pa + (i + 1)) by lia.
  apply Hsame. lia.
Qed.

Lemma hypercall_keeps_slot pa w : keeps_slot pa w (snd (hypercall w)).
Proof. unfold hypercall. destruct (xen_faults _); apply keeps_slot_same; reflexivity. Qed.

Lemma vmi_write_8_pa_keeps_slot pa w wa v :
  wa < pa ∨ pa + 8 <= wa ->
  keeps_slot pa w (snd (vmi_write_8_pa w wa v)).
Proof.
  intros Hclear. rewrite vmi_write_8_pa_unfold. cbn [snd]. split.
  - apply valid_prefix_xen, vmi_write_pa_xen.
  - intros i Hi. unfold byte_at.
    rewrite vmi_write_pa_bytes, store_bytes_lookup, length_take.
    cbn [length].
    destruct (Z.leb_spec wa (pa + i)),
             (Z.ltb_spec (pa + i) (wa + Z.of_nat (valid_prefix w wa 1 `min` 1)));
      cbn [andb]; try reflexivity.
    lia.
Qed.

Lemma gt_destroy_page_record_keeps_slot l pa w page :
  page_apart pa page ->
  keeps_slot pa w (gt_destroy_page_record l w page).
Proof.
  intros [Hframe Hchildren]. unfold gt_destroy_page_record.
  set (w1 := destroy_values _ _ w).
  assert (H1 : keeps_slot pa w w1).
  { subst w1. unfold destroy_values.
    assert (Hall : Forall (λ r,
              let shadow_pa :=
                wrap64 (wrap64 (Z.shiftl (shadow_frame page) GT_PAGE_OFFSET_BITS)
                        + offset r) in
              shadow_pa < pa ∨ pa + 8 <= shadow_pa)
            (map snd (map_to_list (children page)))).
    { apply Forall_forall. intros r Hr.
      apply list_elem_of_fmap in Hr as ([k r'] & -> & Hr).
      apply elem_of_map_to_list in Hr. exact (Hchildren _ _ Hr). }
    revert w. induction Hall as [|r rs Hr _ IH]; intros w; [apply keeps_slot_refl|].
    cbn [foldl]. eapply keeps_slot_trans; [|apply IH].
    unfold gt_destroy_paddr_record, gt_remove_breakpoint.
    destruct (vmi_read_8_pa _ _); [|apply keeps_slot_refl].
    apply vmi_write_8_pa_keeps_slot. exact Hr. }
  set (w2 := vmi_set_mem_event w1 _ _ _).
  assert (H2 : keeps_slot pa w1 w2) by (apply keeps_slot_same; reflexivity).
  assert (H3 : keeps_slot pa w2
                 (snd (xc_altp2m_change_gfn w2 (shadow_view l)
                         (shadow_frame page) INVALID_GFN))).
  { unfold xc_altp2m_change_gfn. pose proof (hypercall_keeps_slot pa w2) as Hh.
    destruct (hypercall w2) as [[] w3]; cbn [snd] in *; [exact Hh|].
    destruct (_ =? _); (eapply keeps_slot_trans;
      [exact Hh|apply keeps_slot_same; reflexivity]). }
  set (w3 := snd (xc_altp2m_change_gfn _ _ _ _)) in *.
  eapply keeps_slot_trans; [exact H1|].
  eapply keeps_slot_trans; [exact H2|].
  eapply keeps_slot_trans; [exact H3|].
  unfold xc_domain_decrease_reservation_exact.
  pose proof (hypercall_keeps_slot pa w3) as Hh.
  destruct (hypercall w3) as [[] w4]; cbn [snd] in *; [exact Hh|].
  eapply keeps_slot_trans; [exact Hh|]. split.
  - apply valid_prefix_agree. intros i Hi. unfold valid_pa. cbn.
    apply bool_decide_ext. rewrite elem_of_difference, elem_of_singleton.
    specialize (Hframe i Hi). tauto.
  - intros i _. reflexivity.
Qed.

(** X8. After quit, the slot of every thread that was in flight holds the
    canonical return address, when the slots of the threads tracked do
    not overlap in part and lie outside the shadow frames. *)
Lemma quit_leaves_return_addr_in_slots l w tid state :
  gt_ret_addr_mapping l !! tid = Some state ->
  let pa := vmi_translate_kv2p w (thread_id state) in
  pa ≠ 0 ->
  valid_prefix w pa 8 = 8%nat ->
  map_Forall (λ _ st, slot_apart pa w st) (gt_ret_addr_mapping l) ->
  map_Forall (λ _ page, page_apart pa page) (gt_page_record_collection l) ->
  vmi_read_64_pa (snd (gt_loop_quit l w)) pa = Some (wrap64 (return_addr l)).
Proof.
  intros Hin pa Hpa Hv Hslots Hpages. unfold gt_loop_quit. cbn [snd].
  set (l1 := set_page_translation ∅ l).
  set (w2 := destroy_values (gt_restore_return_addr l1) _ _).
  assert (H2 : vmi_read_64_pa w2 pa = Some (wrap64 (return_addr l))).
  { subst w2. apply (drain_restores_every_slot l1 (vmi_pause_vm w) tid state);
      try assumption. }
  set (w3 := destroy_values _ _ w2).
  assert (H3 : keeps_slot pa w2 w3).
  { subst w3. unfold destroy_values. cbn [gt_page_record_collection set_ret_addr_mapping l1 set_page_translation].
    assert (Hall : Forall (page_apart pa)
                     (map snd (map_to_list (gt_page_record_collection l)))).
    { apply Forall_forall. intros page Hp.
      apply list_elem_of_fmap in Hp as ([k page'] & -> & Hp).
      apply elem_of_map_to_list in Hp. exact (Hpages _ _ Hp). }
    generalize w2. induction Hall as [|page pages Hp _ IH]; intros w0;
      [apply keeps_slot_refl|].
    cbn [foldl]. eapply keeps_slot_trans; [|apply IH].
    apply gt_destroy_page_record_keeps_slot, Hp. }
  rewrite <- H2. apply keeps_slot_read.
  eapply keeps_slot_trans; [exact H3|].
  eapply keeps_slot_trans; [|apply keeps_slot_same; reflexivity].
  unfold xc_altp2m_switch_to_view. pose proof (hypercall_keeps_slot pa w3) as Hh.
  destruct (hypercall w3) as [[] w4]; cbn [snd] in *; [exact Hh|].
  eapply keeps_slot_trans; [exact Hh|apply keeps_slot_same; reflexivity].
Qed.

(** ** Quit *)

(** What quit does after the tracker is drained leaves a slot that lies
    outside the shadow frames as it is. *)
Lemma quit_tail_keeps_slot l pa w :
  map_Forall (λ _ page, page_apart pa page) (gt_page_record_collection l) ->
  keeps_slot pa w
    (vmi_resume_vm
       (snd (xc_altp2m_switch_to_view
               (destroy_values (gt_destroy_page_record l)
                               (gt_page_record_collection l) w) 0))).
Proof.
  intros Hpages.
  set (w3 := destroy_values _ _ w).
  assert (H3 : keeps_slot pa w w3).
  { subst w3. unfold destroy_values.
    assert (Hall : Forall (page_apart pa)
                     (map snd (map_to_list (gt_page_record_collection l)))).
    { apply Forall_forall. intros page Hp.
      apply list_elem_of_fmap in Hp as ([k page'] & -> & Hp).
      apply elem_of_map_to_list in Hp. exact (Hpages _ _ Hp). }
    generalize w. induction Hall as [|page pages Hp _ IH]; intros w0;
      [apply keeps_slot_refl|].
    cbn [foldl]. eapply keeps_slot_trans; [|apply IH].
    apply gt_destroy_page_record_keeps_slot, Hp. }
  eapply keeps_slot_trans; [exact H3|].
  eapply keeps_slot_trans; [|apply keeps_slot_same; reflexivity].
  unfold xc_altp2m_switch_to_view. pose proof (hypercall_keeps_slot pa w3) as Hh.
  destruct (hypercall w3) as [[] w4]; cbn [snd] in *; [exact Hh|].
  eapply keeps_slot_trans; [exact Hh|apply keeps_slot_same; reflexivity].
Qed.

(** C5. On quit, for every entry of the tracker whose slot translates and
    is backed, the canonical return address is written to the slot while
    the guest is still paused, and the tracker ends empty.  The slot
    holds the canonical return address when quit returns, provided the
    slots of the threads tracked do not overlap in part and the slot
    lies outside the shadow frames, which quit releases afterwards. *)
Theorem quit_restores_return_slots l w tid state :
  gt_ret_addr_mapping l !! tid = Some state ->
  let pa := vmi_translate_kv2p w (thread_id state) in
  pa ≠ 0 ->
  valid_prefix w pa 8 = 8%nat ->
  gt_ret_addr_mapping (fst (gt_loop_quit l w)) = ∅
  ∧ (∃ before,
       trace (snd (gt_loop_quit l w)) = EResume :: before
       ∧ EWrite pa (le_bytes 8 (return_addr l)) ∈ before)
  ∧ (map_Forall (λ _ st, slot_apart pa w st) (gt_ret_addr_mapping l) ->
     map_Forall (λ _ page, page_apart pa page) (gt_page_record_collection l) ->
     vmi_read_64_pa (snd (gt_loop_quit l w)) pa = Some (wrap64 (return_addr l))).
Proof.
  intros Hin pa Hpa Hv. split; [reflexivity|]. split.
  - unfold gt_loop_quit. cbn [snd]. unfold vmi_resume_vm at 1. cbn [trace log].
    eexists. split; [reflexivity|].
    rewrite xc_altp2m_switch_to_view_trace.
    eapply extends_elem.
    { apply destroy_values_extends. intros. apply gt_destroy_page_record_extends. }
    unfold destroy_values. subst pa.
    change (vmi_translate_kv2p w (thread_id state))
      with (vmi_translate_kv2p (vmi_pause_vm w) (thread_id state)).
    apply (drain_writes_every_slot (set_page_translation ∅ l)).
    + apply list_elem_of_fmap. exists (tid, state). split; [reflexivity|].
      apply elem_of_map_to_list. exact Hin.
    + exact Hpa.
    + rewrite (valid_prefix_xen w); [exact Hv|reflexivity].
  - intros Hslots Hpages. unfold gt_loop_quit. cbn [snd].
    set (l1 := set_page_translation ∅ l).
    set (w2 := destroy_values (gt_restore_return_addr l1) _ _).
    assert (H2 : vmi_read_64_pa w2 pa = Some (wrap64 (return_addr l))).
    { subst w2. apply (drain_restores_every_slot l1 (vmi_pause_vm w) tid state);
        assumption. }
    rewrite <- H2. apply keeps_slot_read.
    apply (quit_tail_keeps_slot (set_ret_addr_mapping ∅ l1) pa w2). exact Hpages.
Qed.

Section Agreement.

Variables (l : GTLoop) (s : VF.vf_state) (w : World) (event : vmi_event_t).

(** C9, as amended.  On corresponding states of a 64-bit guest, for a
    trap at the trampoline or at a trapped address, when the stack slot
    of the thread translates (and, at a call site, can be read), the two
    dispatchers give the same response and the same event fields, leave
    the same guest memory and the same RIP, and end in corresponding
    states. *)
Theorem dispatchers_agree_on_serviced_traps :
  corresponds l s ->
  (gla event ≠ trampoline_addr l ->
   is_Some (gt_paddr_record_from_va l w (gla event))
   ∧ is_Some (vmi_read_64_pa w (vmi_translate_kv2p w (rsp event)))) ->
  vmi_translate_kv2p w (if gla event =? trampoline_addr l
                        then wrap64 (rsp event - 8) else rsp event) ≠ 0 ->
  let '(r1, e1, l', w1) := gt_breakpoint_cb l w event in
  let '(r2, e2, s', w2) := VF.vf_breakpoint_cb s w event in
  r1 = r2 ∧ e1 = e2
  ∧ bytes (guest w1) = bytes (guest w2) ∧ rip (guest w1) = rip (guest w2)
  ∧ corresponds l' s'.
Proof.
  intros Hrel Hcall Hslot.
  destruct (Z.eq_dec (gla event) (trampoline_addr l)) as [Hsite|Hsite].
  - apply return_sites_agree; [exact Hrel|exact Hsite|].
    apply Z.eqb_eq in Hsite. rewrite Hsite in Hslot. exact Hslot.
  - destruct (Hcall Hsite) as [Hrec Hread].
    apply call_sites_agree; try assumption.
    apply Z.eqb_neq in Hsite. rewrite Hsite in Hslot. exact Hslot.
Qed.

End Agreement.

(** ** Page-record teardown *)

Lemma foldl_xen {V} (notify : World -> V -> World) (vs : list V) w :
  (∀ w v, xen (notify w v) = xen w) -> xen (foldl notify w vs) = xen w.
Proof.
  intros Hn. revert w. induction vs as [|v vs IH]; intros w; [reflexivity|].
  simpl. rewrite IH. apply Hn.
Qed.

Lemma gt_destroy_paddr_record_xen page w r :
  xen (gt_destroy_paddr_record page w r) = xen w.
Proof.
  unfold gt_destroy_paddr_record, gt_remove_breakpoint.
  destruct (vmi_read_8_pa _ _); [|reflexivity].
  rewrite vmi_write_8_pa_unfold. apply vmi_write_pa_xen.
Qed.

Lemma hypercall_altp2m w : altp2m (xen (snd (hypercall w))) = altp2m (xen w).
Proof. unfold hypercall. destruct (xen_faults _); reflexivity. Qed.

(** Tearing a page record down leaves the remapping of its original
    frame in the shadow view: the entry dropped is the one of the shadow
    frame. *)
Lemma gt_destroy_page_record_altp2m l w page :
  frame page ≠ shadow_frame page ->
  altp2m (xen (gt_destroy_page_record l w page)) !! frame page
  = altp2m (xen w) !! frame page.
Proof.
  intros Hne. unfold gt_destroy_page_record.
  set (w1 := destroy_values _ _ w).
  assert (Hx : xen w1 = xen w).
  { apply foldl_xen. intros. apply gt_destroy_paddr_record_xen. }
  set (w2 := vmi_set_mem_event w1 _ _ _).
  assert (H2 : altp2m (xen w2) = altp2m (xen w)) by (cbn; rewrite Hx; reflexivity).
  unfold xc_domain_decrease_reservation_exact, xc_altp2m_change_gfn.
  pose proof (hypercall_altp2m w2) as Hh.
  destruct (hypercall w2) as [[] w3]; cbn [snd] in *.
  - pose proof (hypercall_altp2m w3) as Hh3.
    destruct (hypercall w3) as [[] w4]; cbn [snd] in *; cbn; congruence.
  - change (INVALID_GFN =? INVALID_GFN) with true. cbv iota. cbn [snd].
    set (w4 := set_xen _ w3).
    assert (H4 : altp2m (xen w4) !! frame page = altp2m (xen w) !! frame page).
    { subst w4. cbn. rewrite lookup_delete_ne by congruence. congruence. }
    pose proof (hypercall_altp2m w4) as Hh4.
    destruct (hypercall w4) as [[] w5]; cbn [snd] in *; cbn; congruence.
Qed.

(** C2. Tearing down the page record of [sys_open] (frame 0x1200, shadow
    0x40000), in either tracer: the mem-access trap on 0x1200 is off and
    the shadow frame is released, yet the shadow view still maps 0x1200
    to 0x40000. *)
Lemma destroy_page_record_keeps_remap :
  let page := mkPage 0x1200 0x40000 {[ 0x100 := ex_record ]} in
  gt_page_record_collection ex_loop1 !! 0x40000 = Some page
  ∧ altp2m (xen ex_world1) !! 0x1200 = Some 0x40000
  ∧ (let w := gt_destroy_page_record ex_loop1 ex_world1 page in
     altp2m (xen w) !! 0x1200 = Some 0x40000
     ∧ mem_event (xen w) !! 0x1200 = Some VMI_MEMACCESS_N
     ∧ valid_pa w 0x40000000 = false)
  ∧ (let w := VF.vf_destroy_page_record ex_vf_state1 ex_world1 ex_vf_page in
     altp2m (xen w) !! 0x1200 = Some 0x40000
     ∧ mem_event (xen w) !! 0x1200 = Some VMI_MEMACCESS_N
     ∧ valid_pa w 0x40000000 = false).
Proof. vm_compute. repeat apply conj; reflexivity. Qed.

(** ** The scenarios *)

(** C1 as stated fails: the hypervisor fails to populate the first frame
    it hands out, the install returns no record, and the install repeated
    returns one, on a second frame. *)
Lemma install_retry_allocates_again :
  let w := ex_world [false; false; true] in
  let first := gt_setup_mem_trap ex_loop w ex_va 7 8 9 in
  let second := gt_setup_mem_trap (snd (fst first)) (snd first) ex_va 7 8 9 in
  fst (fst first) = None
  ∧ fst (fst second) = Some (mkPaddr 0x5000 0x100 7 8 0x40001 9)
  ∧ reserved (xen (snd second)) = [0x40001; 0x40000]
  ∧ ¬ (fst (fst first) = fst (fst second)
       ∧ (length (reserved (xen (snd second)))
          <= length (reserved (xen w)) + 1)%nat).
Proof.
  cbv zeta. repeat apply conj; try (vm_compute; reflexivity).
  intros [H _]. vm_compute in H. discriminate.
Qed.

(** With the shadow frame of [sys_open] unbacked, installing [sys_read]
    twice returns two records, neither of which the table holds. *)
Lemma install_with_failed_write_returns_fresh_records :
  let first := gt_setup_mem_trap ex_loop1 ex_world_unbacked ex_va_read 4 5 6 in
  let second :=
    gt_setup_mem_trap (snd (fst first)) (snd first) ex_va_read 4 5 6 in
  fst (fst first) = Some (mkPaddr 0x5001 0x200 4 5 0x40000 6)
  ∧ fst (fst second) = Some (mkPaddr 0x5002 0x200 4 5 0x40000 6)
  ∧ snd (fst second) = ex_loop1
  ∧ gt_paddr_record_from_va (snd (fst second)) (snd second) ex_va_read = None.
Proof. cbv zeta. repeat apply conj; vm_compute; reflexivity. Qed.

(** C8.  The count is not the number of installs that succeeded.
    [sys_open] is trapped and its shadow frame 0x40000 is no longer
    backed; [sys_read], in the same frame, is registered.  The write of
    the breakpoint byte fails, yet set-callbacks returns 1: the tables
    are what they were, [sys_read] has no record, and the byte at its
    offset of the shadow frame is not the breakpoint instruction. *)
Lemma set_cbs_counts_failed_install :
  let done :=
    gt_loop_set_cbs ex_loop1 ex_world_unbacked [mkCallback "sys_read" 4 5 6] in
  gt_interrupted ex_loop1 = false
  ∧ vmi_translate_ksym2v ex_world_unbacked "sys_read" = ex_va_read
  ∧ fst (fst done) = 1
  ∧ snd (fst done) = ex_loop1
  ∧ gt_paddr_record_from_va (snd (fst done)) (snd done) ex_va_read = None
  ∧ byte_at (snd done) (0x40000 * GT_PAGE_SIZE + 0x200) = 0.
Proof. cbv zeta. repeat apply conj; vm_compute; reflexivity. Qed.

(** [sys_open] installed twice on the example guest. *)
Lemma repeated_install_returns_same_record_witness :
  gt_setup_mem_trap ex_loop1 ex_world1 ex_va 17 18 19
  = (Some ex_record, ex_loop1, ex_world1)
  ∧ (length (reserved (xen ex_world1))
     <= length (reserved (xen (ex_world []))) + 1)%nat
  ∧ (default 0 (gt_page_translation ex_loop
                  !! Z.shiftr (vmi_translate_kv2p (ex_world []) ex_va)
                              GT_PAGE_OFFSET_BITS) ≠ 0 ->
     reserved (xen ex_world1) = reserved (xen (ex_world []))).
Proof.
  apply (repeated_install_returns_same_record ex_loop (ex_world []) ex_va
           ex_record 7 8 9 17 18 19); vm_compute; reflexivity.
Defined.

(** A second registration of [sys_open], with other callbacks. *)
Lemma install_at_trapped_address_keeps_record_witness :
  let again := gt_setup_mem_trap ex_loop1 ex_world1 ex_va 17 18 19 in
  snd (fst again) = ex_loop1
  ∧ snd again = ex_world1
  ∧ gt_paddr_record_from_va (snd (fst again)) (snd again) ex_va = Some ex_record
  ∧ (vmi_translate_kv2p ex_world1 ex_va ≠ 0 -> fst (fst again) = Some ex_record).
Proof.
  apply (install_at_trapped_address_keeps_record ex_loop1 ex_world1 ex_va
           ex_record 17 18 19).
  vm_compute. reflexivity.
Defined.



(** The thread that entered [sys_open] returns: the return callback gets
    16, what the entry callback returned. *)
Lemma return_site_trap_witness :
  ∃ w' writes,
    gt_breakpoint_cb ex_loop2 ex_world2 ex_return_event
    = (VMI_EVENT_RESPONSE_NONE, set_reinject 0 ex_return_event,
       set_ret_addr_mapping (delete ex_stack (gt_ret_addr_mapping ex_loop2)) ex_loop2,
       w')
    ∧ trace w'
      = writes ++ ESetRip 0 ex_return_addr :: ESysretCb 8 7 ex_stack 16
               :: trace ex_world2
    ∧ (writes = []
       ∨ ∃ bs, writes = [EWrite (vmi_translate_kv2p ex_world2 ex_stack) bs])
    ∧ rip (guest w') !! 0 = Some ex_return_addr.
Proof.
  pose proof (return_site_trap ex_loop2 ex_world2 ex_return_event) as H.
  assert (Hst : gt_ret_addr_mapping ex_loop2
                  !! wrap64 (rsp ex_return_event - return_addr_width ex_loop2)
                = Some (mkState ex_record 16 ex_stack))
    by (vm_compute; reflexivity).
  rewrite Hst in H. apply H. vm_compute. reflexivity.
Defined.

Lemma ex_slot_frame i :
  0 <= i < 8 -> Z.shiftr (0xa5f3e00 + i) GT_PAGE_OFFSET_BITS = 0xa5f3.
Proof.
  intros Hi. change GT_PAGE_OFFSET_BITS with 12. rewrite Z.shiftr_div_pow2 by lia.
  change (2 ^ 12) with 4096. symmetry.
  apply (Z.div_unique _ _ _ (0xe00 + i)); lia.
Qed.

(** Quit while the thread is inside [sys_open]: its slot, which held
    the trampoline address, holds the return address again. *)
Lemma quit_restores_return_slots_witness :
  gt_ret_addr_mapping (fst (gt_loop_quit ex_loop2 ex_world2)) = ∅
  ∧ (∃ before,
       trace (snd (gt_loop_quit ex_loop2 ex_world2)) = EResume :: before
       ∧ EWrite 0xa5f3e00 (le_bytes 8 ex_return_addr) ∈ before)
  ∧ vmi_read_64_pa ex_world2 0xa5f3e00 = Some ex_trampoline_addr
  ∧ vmi_read_64_pa (snd (gt_loop_quit ex_loop2 ex_world2)) 0xa5f3e00
    = Some ex_return_addr.
Proof.
  assert (Hmap : gt_ret_addr_mapping ex_loop2
                 = {[ ex_stack := mkState ex_record 16 ex_stack ]})
    by (vm_compute; reflexivity).
  assert (Hcol : gt_page_record_collection ex_loop2
                 = {[ 0x40000 := mkPage 0x1200 0x40000 {[ 0x100 := ex_record ]} ]})
    by (vm_compute; reflexivity).
  assert (Hpa : vmi_translate_kv2p ex_world2 ex_stack = 0xa5f3e00)
    by (vm_compute; reflexivity).
  pose proof (quit_restores_return_slots ex_loop2 ex_world2 ex_stack
                (mkState ex_record 16 ex_stack)) as H.
  cbv zeta in H. cbn [thread_id] in H. rewrite Hpa, Hmap, Hcol in H.
  destruct H as (Hempty & Htrace & Hread).
  - apply lookup_singleton_eq.
  - intros Hz. discriminate Hz.
  - vm_compute. reflexivity.
  - split; [exact Hempty|]. split; [exact Htrace|].
    split; [vm_compute; reflexivity|]. apply Hread.
    + apply map_Forall_singleton. left. exact Hpa.
    + apply map_Forall_singleton. split.
      * intros i Hi. rewrite ex_slot_frame by exact Hi.
        vm_compute. intros Hz. discriminate Hz.
      * apply map_Forall_singleton. right. vm_compute. intros Hz. discriminate Hz.
Defined.

(** The example guest holds its first [int 3] at offset 0x4f. *)
Lemma trampoline_is_first_int3_of_entry_page_witness :
  gt_find_trampoline_addr (ex_world []) = ex_trampoline_addr.
Proof.
  destruct (trampoline_is_first_int3_of_entry_page (ex_world [])
              0xffffffff81800000) as [Hfirst _].
  - reflexivity.
  - vm_compute. discriminate.
  - vm_compute. reflexivity.
  - rewrite (Hfirst 0x4f).
    + reflexivity.
    + vm_compute. split; [discriminate|reflexivity].
    + vm_compute. reflexivity.
    + intros j Hj. unfold byte_at.
      change (vmi_translate_kv2p (ex_world []) 0xffffffff81800000) with 0x1800000.
      cbn [guest ex_world bytes ex_guest].
      rewrite store_bytes_lookup.
      destruct (_ && _) eqn:Hrange.
      * apply andb_true_iff in Hrange as [H1 _]. apply Z.leb_le in H1. lia.
      * rewrite lookup_insert_ne by lia. rewrite lookup_empty. discriminate.
Defined.

(** Three entries, the second with an unknown symbol: the count is 2. *)
Lemma set_cbs_counts_true_results_witness :
  fst (fst (gt_loop_set_cbs ex_loop (ex_world []) ex_callbacks)) = 2
  ∧ fst (fst (set_cb_per_entry ex_loop (ex_world []) ex_callbacks))
    = [true; false; true].
Proof.
  destruct (set_cbs_counts_true_results ex_loop (ex_world []) ex_callbacks)
    as (Hcount & _ & _ & _); [reflexivity|].
  rewrite Hcount. vm_compute. split; reflexivity.
Defined.

(** C9 as stated fails: on a trap at an address neither tracer trapped,
    the callback-exposing dispatcher answers NONE and the identifier-based
    one EMULATE. *)
Lemma stale_trap_responses_differ :
  corresponds ex_loop ex_vf_state
  ∧ fst (fst (fst (gt_breakpoint_cb ex_loop (ex_world []) ex_stale_event)))
    = VMI_EVENT_RESPONSE_NONE
  ∧ fst (fst (fst (VF.vf_breakpoint_cb ex_vf_state (ex_world []) ex_stale_event)))
    = VMI_EVENT_RESPONSE_EMULATE
  ∧ fst (fst (fst (gt_breakpoint_cb ex_loop (ex_world []) ex_stale_event)))
    ≠ fst (fst (fst (VF.vf_breakpoint_cb ex_vf_state (ex_world []) ex_stale_event))).
Proof.
  split; [|repeat apply conj; try (vm_compute; reflexivity); vm_compute; discriminate].
  repeat apply conj; try (vm_compute; reflexivity).
  apply map_Forall_empty.
Qed.

Lemma ex_states_correspond : corresponds ex_loop1 ex_vf_state1.
Proof.
  repeat apply conj; try (vm_compute; reflexivity).
  replace (gt_ret_addr_mapping ex_loop1) with (∅ : gmap Z gt_syscall_state)
    by (vm_compute; reflexivity).
  apply map_Forall_empty.
Qed.

(** Both tracers service the entry into [sys_open]. *)
Lemma dispatchers_agree_on_serviced_traps_witness :
  let '(r1, e1, l', w1) := gt_breakpoint_cb ex_loop1 ex_world1 ex_call_event in
  let '(r2, e2, s', w2) := VF.vf_breakpoint_cb ex_vf_state1 ex_world1 ex_call_event in
  r1 = r2 ∧ e1 = e2
  ∧ bytes (guest w1) = bytes (guest w2) ∧ rip (guest w1) = rip (guest w2)
  ∧ corresponds l' s'.
Proof.
  apply (dispatchers_agree_on_serviced_traps ex_loop1 ex_vf_state1 ex_world1
           ex_call_event).
  - exact ex_states_correspond.
  - intros _. split; vm_compute; eexists; reflexivity.
  - vm_compute. discriminate.
Defined.

(** ** The tables stay well formed *)

Lemma gt_allocate_shadow_frame_tables l w :
  let l' := snd (fst (gt_allocate_shadow_frame l w)) in
  gt_page_translation l' = gt_page_translation l
  ∧ gt_page_record_collection l' = gt_page_record_collection l
  ∧ gt_ret_addr_mapping l' = gt_ret_addr_mapping l.
Proof.
  unfold gt_allocate_shadow_frame.
  destruct (xc_domain_setmaxmem _ _) as [rc1 wa].
  destruct (rc1 <? 0); [auto|].
  destruct (xc_domain_increase_reservation_exact wa) as [[rc2 gfn] wb].
  destruct (rc2 <? 0); [auto|].
  destruct (xc_domain_populate_physmap_exact wb gfn) as [rc3 wc].
  destruct (rc3 <? 0); auto.
Qed.

Lemma registered_insert_child l shadow page off r0 r :
  gt_page_record_collection l !! shadow = Some page ->
  children page !! off = None ->
  registered l r ->
  registered
    (set_page_record_collection
       (<[shadow := mkPage (frame page) (shadow_frame page)
                           (<[off := r0]> (children page))]>
          (gt_page_record_collection l)) l) r.
Proof.
  intros Hpage Hnone (page' & Hp & Hc). unfold registered. cbn.
  destruct (Z.eq_dec (parent r) shadow) as [He|Hne].
  - rewrite He in *. rewrite lookup_insert_eq. eexists. split; [reflexivity|].
    cbn. assert (page' = page) by congruence. subst page'.
    rewrite lookup_insert_ne; [exact Hc|]. intros Heq. rewrite Heq in Hnone. congruence.
  - rewrite lookup_insert_ne by congruence. eauto.
Qed.

Lemma tables_ok_add_child l shadow page off r0 :
  tables_ok l ->
  gt_page_record_collection l !! shadow = Some page ->
  children page !! off = None ->
  offset r0 = off -> parent r0 = shadow ->
  tables_ok
    (set_page_record_collection
       (<[shadow := mkPage (frame page) (shadow_frame page)
                           (<[off := r0]> (children page))]>
          (gt_page_record_collection l)) l).
Proof.
  intros (Htr & Hcol & Hret) Hpage Hnone Hoff Hpar.
  destruct (Hcol _ _ Hpage) as (Hnz & Hsf & Hfr & Hch).
  split; [exact Htr|]. split.
  - cbn. apply map_Forall_insert_2.
    + cbn. repeat apply conj; try assumption.
      apply map_Forall_insert_2; [auto|exact Hch].
    + exact Hcol.
  - cbn. intros tid st Hst. destruct (Hret _ _ Hst) as [Htid Hreg].
    split; [exact Htid|]. apply registered_insert_child; assumption.
Qed.

Lemma tables_ok_add_paddr_record l w page shadow off cb rcb d :
  tables_ok l ->
  gt_page_record_collection l !! shadow = Some page ->
  children page !! off = None ->
  tables_ok (snd (fst (gt_add_paddr_record l w page shadow off cb rcb d))).
Proof.
  intros Hok Hpage Hnone. unfold gt_add_paddr_record, g_new0.
  destruct (vmi_write_8_pa _ _ _) as [[] w2]; cbn [negb fst snd]; [|exact Hok].
  apply tables_ok_add_child; auto.
Qed.

Lemma tables_ok_ensure_shadow_frame l w fr :
  tables_ok l ->
  match gt_ensure_shadow_frame l w fr (default 0 (gt_page_translation l !! fr)) with
  | inr (l', _) => tables_ok l'
  | inl (shadow, l', _) =>
      tables_ok l' ∧ shadow ≠ 0 ∧ gt_page_translation l' !! fr = Some shadow
  end.
Proof.
  intros Hok. unfold gt_ensure_shadow_frame.
  destruct (default 0 (gt_page_translation l !! fr) =? 0) eqn:Hz.
  - pose proof (gt_allocate_shadow_frame_tables l w) as (Ht & Hc & Hr).
    destruct (gt_allocate_shadow_frame l w) as [[shadow l1] w1].
    cbn [fst snd] in Ht, Hc, Hr.
    assert (Hok1 : tables_ok l1).
    { destruct Hok as (Htr & Hcol & Hret). unfold tables_ok, registered.
      rewrite Ht, Hc, Hr. auto. }
    destruct (shadow =? 0) eqn:Hs; [exact Hok1|].
    apply Z.eqb_neq in Hs. apply Z.eqb_eq in Hz.
    assert (Hok2 : tables_ok (set_page_translation
                                (<[fr := shadow]> (gt_page_translation l1)) l1)).
    { destruct Hok1 as (Htr & Hcol & Hret). split; [|split].
      - cbn. apply map_Forall_insert_2; assumption.
      - cbn. intros S page HS. destruct (Hcol _ _ HS) as (Hnz & Hsf & Hfr & Hch).
        repeat apply conj; try assumption.
        rewrite lookup_insert_ne; [exact Hfr|].
        intros Heq. rewrite <- Heq in Hfr. rewrite <- Ht, Hfr in Hz.
        cbn in Hz. contradiction.
      - exact Hret. }
    destruct (xc_altp2m_change_gfn _ _ _ _) as [st w2].
    destruct (st <? 0); [exact Hok2|].
    split; [exact Hok2|]. split; [exact Hs|]. cbn. apply lookup_insert_eq.
  - apply Z.eqb_neq in Hz. split; [exact Hok|]. split; [exact Hz|].
    destruct (gt_page_translation l !! fr); cbn in *; congruence.
Qed.

Lemma tables_ok_setup_mem_trap l w va cb rcb d :
  tables_ok l -> tables_ok (snd (fst (gt_setup_mem_trap l w va cb rcb d))).
Proof.
  intros Hok. unfold gt_setup_mem_trap.
  destruct (vmi_translate_kv2p w va =? 0); [exact Hok|].
  set (fr := Z.shiftr _ _). set (off := _ mod _).
  pose proof (tables_ok_ensure_shadow_frame l w fr Hok) as He.
  destruct (gt_ensure_shadow_frame l w fr _) as [[[shadow l1] w1]|[l1 w1]];
    [|exact He].
  destruct He as (Hok1 & Hnz & Htr).
  destruct (gt_page_record_collection l1 !! shadow) as [page|] eqn:Hpage.
  - destruct (children page !! off) as [r'|] eqn:Hchild; [exact Hok1|].
    apply tables_ok_add_paddr_record; assumption.
  - destruct (negb _); [exact Hok1|].
    destruct (vmi_write_pa _ _ _) as [ret w2].
    destruct (negb _); [exact Hok1|].
    apply tables_ok_add_paddr_record.
    + destruct Hok1 as (Ht1 & Hcol & Hret). split; [exact Ht1|]. split.
      * cbn. apply map_Forall_insert_2; [|exact Hcol].
        cbn. repeat apply conj; auto. apply map_Forall_empty.
      * cbn. intros tid st Hst. destruct (Hret _ _ Hst) as [Htid (pg & Hp & Hc)].
        split; [exact Htid|]. exists pg. split; [|exact Hc]. cbn.
        rewrite lookup_insert_ne; [exact Hp|]. intros Heq. congruence.
    + cbn. apply lookup_insert_eq.
    + reflexivity.
Qed.

Lemma lookup_registered l pa r :
  tables_ok l -> gt_paddr_record_from_pa l pa = Some r -> registered l r.
Proof.
  intros (_ & Hcol & _). unfold gt_paddr_record_from_pa.
  destruct (_ =? 0); [discriminate|].
  destruct (gt_page_record_collection l !! _) as [page|] eqn:Hpage; [|discriminate].
  intros Hc. destruct (Hcol _ _ Hpage) as (_ & _ & _ & Hch).
  destruct (Hch _ _ Hc) as [Hoff Hpar].
  exists page. rewrite Hoff, Hpar. auto.
Qed.

Lemma tables_ok_ret_addr_mapping l m :
  tables_ok l ->
  map_Forall (λ tid st, thread_id st = tid ∧ registered l (syscall_paddr_record st)) m ->
  tables_ok (set_ret_addr_mapping m l).
Proof. intros (Htr & Hcol & _) Hm. split; [exact Htr|]. split; [exact Hcol|exact Hm]. Qed.

Lemma tables_ok_breakpoint_cb l w event :
  tables_ok l -> tables_ok (snd (fst (gt_breakpoint_cb l w event))).
Proof.
  intros Hok. pose proof Hok as (_ & _ & Hret). unfold gt_breakpoint_cb.
  destruct (negb _).
  - destruct (gt_paddr_record_from_va l w _) as [record|] eqn:Hrec; [|exact Hok].
    destruct (_ =? 0); [exact Hok|].
    destruct (vmi_read_64_pa _ _) as [v|]; [|exact Hok].
    destruct (negb _); [exact Hok|]. cbn.
    apply tables_ok_ret_addr_mapping; [exact Hok|].
    apply map_Forall_insert_2; [|exact Hret].
    split; [reflexivity|]. cbn. eapply lookup_registered; [exact Hok|exact Hrec].
  - destruct (gt_ret_addr_mapping l !! _) as [state|] eqn:Hst; [|exact Hok].
    unfold ret_addr_mapping_remove. rewrite Hst. cbn.
    apply tables_ok_ret_addr_mapping; [exact Hok|].
    apply map_Forall_delete. exact Hret.
Qed.

Lemma tables_ok_loop_set_cb l w kernel_func cb rcb d :
  tables_ok l -> tables_ok (snd (fst (gt_loop_set_cb l w kernel_func cb rcb d))).
Proof.
  intros Hok. unfold gt_loop_set_cb.
  destruct (_ =? 0); [exact Hok|].
  pose proof (tables_ok_setup_mem_trap l (vmi_pause_vm w)
                (vmi_translate_ksym2v (vmi_pause_vm w) kernel_func) cb rcb d Hok) as H.
  destruct (gt_setup_mem_trap _ _ _ _ _ _) as [[[r|] l1] w1]; exact H.
Qed.

(** X4. Every operation keeps the tables well formed: an install, a
    batch of registrations, the servicing of a trap, and quit (which
    leaves them empty). *)
Theorem tables_stay_well_formed l w :
  tables_ok l ->
  (∀ va cb rcb d, tables_ok (snd (fst (gt_setup_mem_trap l w va cb rcb d))))
  ∧ (∀ callbacks, tables_ok (snd (fst (gt_loop_set_cbs l w callbacks))))
  ∧ (∀ event, tables_ok (snd (fst (gt_breakpoint_cb l w event))))
  ∧ tables_ok (fst (gt_loop_quit l w)).
Proof.
  intros Hok. split; [|split; [|split]].
  - intros. apply tables_ok_setup_mem_trap, Hok.
  - intros callbacks. unfold gt_loop_set_cbs. generalize 0.
    revert l w Hok. induction callbacks as [|c rest IH]; intros l w Hok count;
      [exact Hok|].
    cbn [gt_loop_set_cbs_from]. destruct (gt_interrupted l); [exact Hok|].
    pose proof (tables_ok_loop_set_cb l w (name c) (cb_syscall_cb c)
                  (cb_sysret_cb c) (user_data c) Hok) as H1.
    destruct (gt_loop_set_cb _ _ _ _ _ _) as [[ok l1] w1]. apply IH, H1.
  - intros. apply tables_ok_breakpoint_cb, Hok.
  - unfold gt_loop_quit, tables_ok, registered. cbn.
    repeat apply conj; apply map_Forall_empty.
Qed.

(** ** Installs only add *)

Lemma gt_add_paddr_record_keeps l w page shadow off cb rcb d pa r :
  gt_page_record_collection l !! shadow = Some page ->
  children page !! off = None ->
  gt_paddr_record_from_pa l pa = Some r ->
  gt_paddr_record_from_pa
    (snd (fst (gt_add_paddr_record l w page shadow off cb rcb d))) pa = Some r.
Proof.
  intros Hpage Hnone Hr. unfold gt_add_paddr_record, g_new0.
  destruct (vmi_write_8_pa _ _ _) as [[] w2]; cbn [negb fst snd]; [|exact Hr].
  revert Hr. unfold gt_paddr_record_from_pa. cbn.
  destruct (_ =? 0); [discriminate|].
  set (S := default 0 _).
  destruct (Z.eq_dec S shadow) as [->|Hne].
  - rewrite lookup_insert_eq, Hpage. cbn. intros Hc.
    rewrite lookup_insert_ne; [exact Hc|]. intros Heq. congruence.
  - rewrite lookup_insert_ne by congruence. auto.
Qed.

Lemma gt_ensure_shadow_frame_keeps l w fr pa r :
  gt_paddr_record_from_pa l pa = Some r ->
  match gt_ensure_shadow_frame l w fr (default 0 (gt_page_translation l !! fr)) with
  | inr (l', _) | inl (_, l', _) => gt_paddr_record_from_pa l' pa = Some r
  end.
Proof.
  intros Hr. unfold gt_ensure_shadow_frame.
  destruct (default 0 (gt_page_translation l !! fr) =? 0) eqn:Hz; [|exact Hr].
  pose proof (gt_allocate_shadow_frame_tables l w) as (Ht & Hc & _).
  destruct (gt_allocate_shadow_frame l w) as [[shadow l1] w1].
  cbn [fst snd] in Ht, Hc.
  assert (H1 : gt_paddr_record_from_pa l1 pa = Some r).
  { unfold gt_paddr_record_from_pa in *. rewrite Ht, Hc. exact Hr. }
  destruct (shadow =? 0); [exact H1|].
  assert (H2 : gt_paddr_record_from_pa
                 (set_page_translation (<[fr := shadow]> (gt_page_translation l1)) l1)
                 pa = Some r).
  { revert H1. unfold gt_paddr_record_from_pa. cbn.
    destruct (Z.eq_dec fr (Z.shiftr pa GT_PAGE_OFFSET_BITS)) as [<-|Hne].
    - rewrite Ht. apply Z.eqb_eq in Hz. rewrite Hz. cbn. discriminate.
    - rewrite lookup_insert_ne by exact Hne. auto. }
  destruct (xc_altp2m_change_gfn _ _ _ _) as [st w2].
  destruct (st <? 0); exact H2.
Qed.

(** X3. An install never unregisters: a record found for an address
    before an install, at this address or any other, is the record found
    for it afterwards. *)
Theorem install_keeps_registrations l w va cb rcb d va0 r :
  let done := gt_setup_mem_trap l w va cb rcb d in
  gt_paddr_record_from_va l w va0 = Some r ->
  gt_paddr_record_from_va (snd (fst done)) (snd done) va0 = Some r.
Proof.
  intros done Hr.
  pose proof (gt_setup_mem_trap_reserves l w va cb rcb d) as (Hk & _).
  fold done in Hk.
  unfold gt_paddr_record_from_va, vmi_translate_kv2p in *. rewrite Hk.
  set (pa0 := kv2p (guest w) va0) in *. clearbody pa0. clear Hk.
  subst done. unfold gt_setup_mem_trap.
  destruct (vmi_translate_kv2p w va =? 0); [exact Hr|].
  set (fr := Z.shiftr _ _). set (off := _ mod _).
  pose proof (gt_ensure_shadow_frame_keeps l w fr pa0 r Hr) as He.
  destruct (gt_ensure_shadow_frame l w fr _) as [[[shadow l1] w1]|[l1 w1]];
    [|exact He].
  destruct (gt_page_record_collection l1 !! shadow) as [page|] eqn:Hpage.
  - destruct (children page !! off) as [r'|] eqn:Hchild; [exact He|].
    apply gt_add_paddr_record_keeps; assumption.
  - destruct (negb _); [exact He|].
    destruct (vmi_write_pa _ _ _) as [ret w2].
    destruct (negb _); [exact He|].
    apply gt_add_paddr_record_keeps.
    + cbn. apply lookup_insert_eq.
    + reflexivity.
    + revert He. unfold gt_paddr_record_from_pa. cbn.
      destruct (_ =? 0); [discriminate|].
      set (S := default 0 _).
      destruct (Z.eq_dec S shadow) as [->|Hne]; [rewrite Hpage; discriminate|].
      rewrite lookup_insert_ne by congruence. auto.
Qed.

(** ** What servicing a trap leaves alone *)

Lemma adds_refl P w : adds P w w.
Proof. exists []. split; [reflexivity|constructor]. Qed.

Lemma adds_trans P w1 w2 w3 : adds P w1 w2 -> adds P w2 w3 -> adds P w1 w3.
Proof.
  intros (t1 & H1 & F1) (t2 & H2 & F2). exists (t2 ++ t1). split.
  - rewrite H2, H1, app_assoc. reflexivity.
  - apply Forall_app. split; assumption.
Qed.

Lemma adds_one (P : effect -> Prop) w w' e :
  trace w' = e :: trace w -> P e -> adds P w w'.
Proof. intros Ht He. exists [e]. split; [exact Ht|]. repeat constructor. exact He. Qed.

Lemma adds_same P w w' : trace w' = trace w -> adds P w w'.
Proof. intros Ht. exists []. split; [exact Ht|constructor]. Qed.

Lemma adds_impl (P Q : effect -> Prop) w w' :
  (∀ e, P e -> Q e) -> adds P w w' -> adds Q w w'.
Proof.
  intros Hpq (t & Ht & Hf). exists t. split; [exact Ht|].
  eapply Forall_impl; [exact Hf|exact Hpq].
Qed.

Lemma vmi_write_64_pa_adds (P : effect -> Prop) w pa v :
  (∀ k, P (EWrite pa (take k (le_bytes 8 v)))) ->
  adds P w (snd (vmi_write_64_pa w pa v)).
Proof.
  intros HP. rewrite vmi_write_64_pa_unfold. cbn [snd].
  destruct (vmi_write_pa_trace w pa (le_bytes 8 v)) as [H|H].
  - apply adds_same, H.
  - eapply adds_one; [exact H|apply HP].
Qed.

Lemma gt_restore_return_addr_adds l w st :
  adds (dispatch_effect l) w (gt_restore_return_addr l w st).
Proof.
  unfold gt_restore_return_addr. destruct (_ =? 0); [apply adds_refl|].
  apply vmi_write_64_pa_adds. intros k. cbn. eauto.
Qed.

(** X7. Servicing a trap makes no hypercall and touches neither the
    address translation nor the breakpoint tables nor the interrupted
    flag; towards the guest it only calls callbacks, sets RIP to the
    return address and writes the trampoline address or the return
    address. *)
Theorem dispatcher_is_confined l w event :
  let '(_, _, l', w') := gt_breakpoint_cb l w event in
  xen w' = xen w
  ∧ kv2p (guest w') = kv2p (guest w)
  ∧ gt_page_translation l' = gt_page_translation l
  ∧ gt_page_record_collection l' = gt_page_record_collection l
  ∧ gt_interrupted l' = gt_interrupted l
  ∧ adds (dispatch_effect l) w w'.
Proof.
  unfold gt_breakpoint_cb. destruct (negb _).
  - destruct (gt_paddr_record_from_va l w _) as [record|].
    2: { repeat apply conj; try reflexivity. apply adds_refl. }
    destruct (_ =? 0).
    { repeat apply conj; try reflexivity. apply adds_refl. }
    destruct (vmi_read_64_pa _ _) as [v|].
    2: { repeat apply conj; try reflexivity. apply adds_refl. }
    destruct (negb _).
    { repeat apply conj; try reflexivity. apply adds_refl. }
    unfold ret_addr_mapping_insert.
    set (w1 := log _ w).
    set (w2 := match gt_ret_addr_mapping l !! _ with
               | Some old => gt_restore_return_addr l w1 old
               | None => w1
               end).
    assert (Hx : xen w2 = xen w).
    { subst w2. destruct (_ !! _); [rewrite gt_restore_return_addr_xen|]; reflexivity. }
    assert (Hk : kv2p (guest w2) = kv2p (guest w)).
    { subst w2. destruct (_ !! _); [rewrite gt_restore_return_addr_kv2p|]; reflexivity. }
    assert (Ha : adds (dispatch_effect l) w w2).
    { eapply adds_trans with (w2 := w1).
      - eapply adds_one; [reflexivity|exact I].
      - subst w2. destruct (_ !! _);
          [apply gt_restore_return_addr_adds|apply adds_refl]. }
    repeat apply conj; try reflexivity.
    + rewrite vmi_write_64_pa_xen. exact Hx.
    + rewrite vmi_write_64_pa_kv2p. exact Hk.
    + eapply adds_trans; [exact Ha|].
      apply vmi_write_64_pa_adds. intros k. cbn. eauto.
  - destruct (gt_ret_addr_mapping l !! _) as [state|] eqn:Hst.
    2: { repeat apply conj; try reflexivity. apply adds_refl. }
    unfold ret_addr_mapping_remove. rewrite Hst.
    set (w1 := log _ w). set (w2 := vmi_set_vcpureg_rip w1 _ _).
    repeat apply conj; try reflexivity.
    + rewrite gt_restore_return_addr_xen. reflexivity.
    + rewrite gt_restore_return_addr_kv2p. reflexivity.
    + eapply adds_trans with (w2 := w2).
      * exists [ESetRip (vcpu_id event) (return_addr l);
                ESysretCb (sysret_cb (syscall_paddr_record state))
                          (vmi_dtb_to_pid w (cr3 event))
                          (wrap64 (rsp event - return_addr_width l))
                          (state_data state)].
        split; [reflexivity|]. repeat constructor.
      * apply gt_restore_return_addr_adds.
Qed.

(** ** A system call from entry to return *)

Lemma call_site_trap_eq l w event record :
  gla event ≠ trampoline_addr l ->
  gt_paddr_record_from_va l w (gla event) = Some record ->
  vmi_translate_kv2p w (rsp event) ≠ 0 ->
  vmi_read_64_pa w (vmi_translate_kv2p w (rsp event)) = Some (return_addr l) ->
  gt_ret_addr_mapping l !! rsp event = None ->
  let pid := vmi_dtb_to_pid w (cr3 event) in
  let payload := cb_return w (syscall_cb record) pid (rsp event) (data record) in
  gt_breakpoint_cb l w event
  = (response_or VMI_EVENT_RESPONSE_TOGGLE_SINGLESTEP
                 VMI_EVENT_RESPONSE_VMM_PAGETABLE_ID,
     set_slat_id 0 (set_reinject 0 event),
     set_ret_addr_mapping
       (<[rsp event := mkState record payload (rsp event)]>
          (gt_ret_addr_mapping l)) l,
     snd (vmi_write_64_pa
            (log (ESyscallCb (syscall_cb record) pid (rsp event) (data record)) w)
            (vmi_translate_kv2p w (rsp event)) (trampoline_addr l))).
Proof.
  intros Hsite Hrec Hloc Hread Hfree pid payload.
  unfold gt_breakpoint_cb. rewrite call_site_test by assumption.
  cbn [gla rsp cr3 vcpu_id set_reinject set_slat_id]. rewrite Hrec.
  apply Z.eqb_neq in Hloc. rewrite Hloc, Hread, Z.eqb_refl. cbn [negb].
  unfold ret_addr_mapping_insert. rewrite Hfree. reflexivity.
Qed.

Lemma return_site_trap_eq l w event state :
  gla event = trampoline_addr l ->
  gt_ret_addr_mapping l !! wrap64 (rsp event - return_addr_width l) = Some state ->
  let tid := wrap64 (rsp event - return_addr_width l) in
  gt_breakpoint_cb l w event
  = (VMI_EVENT_RESPONSE_NONE, set_reinject 0 event,
     set_ret_addr_mapping (delete tid (gt_ret_addr_mapping l)) l,
     gt_restore_return_addr l
       (vmi_set_vcpureg_rip
          (log (ESysretCb (sysret_cb (syscall_paddr_record state))
                          (vmi_dtb_to_pid w (cr3 event)) tid (state_data state)) w)
          (return_addr l) (vcpu_id event))
       state).
Proof.
  intros Hsite Hst tid. unfold gt_breakpoint_cb.
  rewrite return_site_test by assumption.
  cbn [gla rsp cr3 vcpu_id set_reinject]. fold tid. fold tid in Hst. rewrite Hst.
  unfold ret_addr_mapping_remove. rewrite Hst. reflexivity.
Qed.

(** X6. A system call from entry to return.  A thread traps at a
    trapped call site with the return address in its stack slot, then at
    the trampoline with the stack pointer one word higher.  In between
    the slot holds the trampoline address.  Afterwards the loop is what
    it was, the slot holds the return address again, RIP of the VCPU is
    the return address, and the trace shows, in this order: the entry
    callback, the write of the trampoline address, the return callback
    with what the entry callback returned, RIP set, the write of the
    return address. *)
Theorem call_then_return_round_trip l w call ret record :
  gla call ≠ trampoline_addr l ->
  gt_paddr_record_from_va l w (gla call) = Some record ->
  vmi_translate_kv2p w (rsp call) ≠ 0 ->
  vmi_read_64_pa w (vmi_translate_kv2p w (rsp call)) = Some (return_addr l) ->
  gt_ret_addr_mapping l !! rsp call = None ->
  gla ret = trampoline_addr l ->
  wrap64 (rsp ret - return_addr_width l) = rsp call ->
  let slot := vmi_translate_kv2p w (rsp call) in
  let payload :=
    cb_return w (syscall_cb record) (vmi_dtb_to_pid w (cr3 call)) (rsp call)
              (data record) in
  let '(_, _, l1, w1) := gt_breakpoint_cb l w call in
  let '(_, _, l2, w2) := gt_breakpoint_cb l1 w1 ret in
  vmi_read_64_pa w1 slot = Some (wrap64 (trampoline_addr l))
  ∧ l2 = l
  ∧ vmi_read_64_pa w2 slot = Some (wrap64 (return_addr l))
  ∧ rip (guest w2) !! vcpu_id ret = Some (return_addr l)
  ∧ trace w2
    = [EWrite slot (le_bytes 8 (return_addr l));
       ESetRip (vcpu_id ret) (return_addr l);
       ESysretCb (sysret_cb record) (vmi_dtb_to_pid w (cr3 ret)) (rsp call) payload;
       EWrite slot (le_bytes 8 (trampoline_addr l));
       ESyscallCb (syscall_cb record) (vmi_dtb_to_pid w (cr3 call)) (rsp call)
                  (data record)]
      ++ trace w.
Proof.
  intros Hsite Hrec Hloc Hread Hfree Hret Htid slot payload.
  pose proof (vmi_read_64_pa_backed _ _ _ Hread) as Hbacked. fold slot in Hbacked.
  rewrite (call_site_trap_eq l w call record) by assumption.
  fold slot. fold payload.
  set (st := mkState record payload (rsp call)).
  set (l1 := set_ret_addr_mapping _ l).
  set (w0 := log _ w).
  set (w1 := snd (vmi_write_64_pa w0 slot (trampoline_addr l))).
  assert (Hst : gt_ret_addr_mapping l1 !! wrap64 (rsp ret - return_addr_width l1)
                = Some st).
  { subst l1. cbn. rewrite Htid. apply lookup_insert_eq. }
  rewrite (return_site_trap_eq l1 w1 ret st) by (try exact Hst; exact Hret).
  cbn [return_addr_width return_addr l1 set_ret_addr_mapping gt_ret_addr_mapping
       syscall_paddr_record state_data st].
  rewrite Htid.
  assert (Hx1 : xen w1 = xen w) by (subst w1; rewrite vmi_write_64_pa_xen; reflexivity).
  assert (Hk1 : kv2p (guest w1) = kv2p (guest w))
    by (subst w1; rewrite vmi_write_64_pa_kv2p; reflexivity).
  assert (Hd1 : dtb_to_pid (guest w1) = dtb_to_pid (guest w)).
  { subst w1. rewrite vmi_write_64_pa_unfold. cbn [snd]. unfold vmi_write_pa.
    destruct (valid_prefix _ _ _); reflexivity. }
  assert (Ht1 : trace w1 = EWrite slot (le_bytes 8 (trampoline_addr l)) :: trace w0).
  { subst w1. apply vmi_write_64_pa_complete.
    rewrite (valid_prefix_xen w); [exact Hbacked|reflexivity]. }
  set (w2 := vmi_set_vcpureg_rip _ _ _).
  assert (Hslot : vmi_translate_kv2p w2 (thread_id st) = slot).
  { unfold vmi_translate_kv2p. subst w2. cbn. rewrite Hk1. reflexivity. }
  assert (Hv2 : valid_prefix w2 slot 8 = 8%nat).
  { rewrite (valid_prefix_xen w); [exact Hbacked|]. subst w2. cbn. exact Hx1. }
  repeat apply conj.
  - subst w1. apply vmi_write_64_pa_read_back.
    rewrite (valid_prefix_xen w); [exact Hbacked|reflexivity].
  - rewrite delete_insert_id by exact Hfree. subst l1. destruct l. reflexivity.
  - rewrite <- Hslot. apply (gt_restore_return_addr_restores l1).
    + rewrite Hslot. exact Hloc.
    + rewrite Hslot. exact Hv2.
  - rewrite gt_restore_return_addr_rip. subst w2. cbn. apply lookup_insert_eq.
  - rewrite gt_restore_return_addr_writes.
    + rewrite Hslot. subst w2. cbn. rewrite Ht1. unfold vmi_dtb_to_pid.
      rewrite Hd1. reflexivity.
    + rewrite Hslot. exact Hloc.
    + rewrite Hslot. exact Hv2.
Qed.

(** ** Writes happen while the guest is paused *)

Lemma xc_domain_setmaxmem_trace w size :
  trace (snd (xc_domain_setmaxmem w size)) = trace w.
Proof.
  unfold xc_domain_setmaxmem. pose proof (hypercall_trace w) as H.
  destruct (hypercall w) as [[] w1]; exact H.
Qed.



Lemma xc_altp2m_destroy_view_trace w view :
  trace (snd (xc_altp2m_destroy_view w view)) = trace w.
Proof.
  unfold xc_altp2m_destroy_view. pose proof (hypercall_trace w) as H.
  destruct (hypercall w) as [[] w1]; exact H.
Qed.

Lemma xc_altp2m_set_domain_state_trace w state :
  trace (snd (xc_altp2m_set_domain_state w state)) = trace w.
Proof.
  unfold xc_altp2m_set_domain_state. pose proof (hypercall_trace w) as H.
  destruct (hypercall w) as [[] w1]; exact H.
Qed.












(** ** Quit and free *)

Lemma hypercall_keeps w :
  guest (snd (hypercall w)) = guest w
  ∧ ram (xen (snd (hypercall w))) = ram (xen w)
  ∧ altp2m (xen (snd (hypercall w))) = altp2m (xen w)
  ∧ mem_event (xen (snd (hypercall w))) = mem_event (xen w)
  ∧ active_view (xen (snd (hypercall w))) = active_view (xen w)
  ∧ maxmem (xen (snd (hypercall w))) = maxmem (xen w).
Proof. unfold hypercall. destruct (xen_faults _); repeat apply conj; reflexivity. Qed.







(** X12. After quit the tracer is inert: a batch of registrations sets
    nothing and leaves everything as it is, no address has a record, and
    every trap is answered with no response flag and changes nothing (a
    trap away from the trampoline is handed back to the guest). *)
Theorem after_quit_nothing_is_traced l w w0 :
  let l' := fst (gt_loop_quit l w) in
  (∀ callbacks, gt_loop_set_cbs l' w0 callbacks = (0, l', w0))
  ∧ (∀ va, gt_paddr_record_from_va l' w0 va = None)
  ∧ (∀ event,
       gt_breakpoint_cb l' w0 event
       = (VMI_EVENT_RESPONSE_NONE,
          set_reinject (if gla event =? trampoline_addr l then 0 else 1) event,
          l', w0)).
Proof.
  intros l'. assert (Hnone : ∀ va, gt_paddr_record_from_va l' w0 va = None).
  { intros va. unfold gt_paddr_record_from_va, gt_paddr_record_from_pa. subst l'.
    cbn. rewrite lookup_empty. reflexivity. }
  split; [|split; [exact Hnone|]].
  - intros [|c rest]; reflexivity.
  - intros event.
    assert (Hmap : gt_ret_addr_mapping l' = ∅) by reflexivity.
    assert (Htramp : trampoline_addr l' = trampoline_addr l) by reflexivity.
    unfold gt_breakpoint_cb. rewrite Hmap, Htramp. cbn [gla set_reinject].
    destruct (gla event =? trampoline_addr l); cbn [negb].
    + rewrite lookup_empty. reflexivity.
    + rewrite (Hnone (gla event)). reflexivity.
Qed.

(** ** The answer of the trampoline locator *)

Lemma look_for_int3_hit w lstar pa n k :
  look_for_int3 lstar (load_bytes w pa n) k ≠ 0 ->
  ∃ i, (i < n)%nat
       ∧ look_for_int3 lstar (load_bytes w pa n) k = wrap64 (lstar + (k + Z.of_nat i))
       ∧ byte_at w (pa + Z.of_nat i) = GT_BREAKPOINT_INST
       ∧ ∀ j, (j < i)%nat -> byte_at w (pa + Z.of_nat j) ≠ GT_BREAKPOINT_INST.
Proof.
  revert pa k. induction n as [|n IH]; intros pa k; [cbn; congruence|].
  cbn [load_bytes look_for_int3].
  destruct (byte_at w pa =? GT_BREAKPOINT_INST) eqn:Hb.
  - intros _. exists O. apply Z.eqb_eq in Hb.
    replace (pa + Z.of_nat 0) with pa by lia.
    replace (k + Z.of_nat 0) with k by lia.
    repeat apply conj; auto; [lia|]. intros j Hj. lia.
  - intros Hnz. destruct (IH _ _ Hnz) as (i & Hi & Heq & Hhit & Hmiss).
    exists (S i). repeat apply conj.
    + lia.
    + rewrite Heq. f_equal. lia.
    + replace (pa + Z.of_nat (S i)) with (pa + 1 + Z.of_nat i) by lia. exact Hhit.
    + intros [|j] Hj.
      * replace (pa + Z.of_nat 0) with pa by lia. apply Z.eqb_neq, Hb.
      * replace (pa + Z.of_nat (S j)) with (pa + 1 + Z.of_nat j) by lia.
        apply Hmiss. lia.
Qed.

Lemma valid_prefix_full w pa n i :
  valid_prefix w pa n = n -> (i < n)%nat -> valid_pa w (pa + Z.of_nat i) = true.
Proof.
  revert pa i. induction n as [|n IH]; intros pa i Hfull Hi; [lia|].
  cbn [valid_prefix] in Hfull. destruct (valid_pa w pa) eqn:Hv; [|discriminate].
  destruct i as [|i].
  - replace (pa + Z.of_nat 0) with pa by lia. exact Hv.
  - replace (pa + Z.of_nat (S i)) with (pa + 1 + Z.of_nat i) by lia.
    apply IH; [congruence|lia].
Qed.

(** X13. A nonzero answer of the trampoline locator is never wrong: the
    LSTAR register was read and translates, and the answer is LSTAR plus
    an offset within the page at which the guest memory is backed and
    holds the breakpoint byte, no earlier offset of the page doing so.
    Whenever the register cannot be read, does not translate, or the
    page cannot be read whole, the answer is 0. *)
Theorem trampoline_answer_is_sound w :
  gt_find_trampoline_addr w ≠ 0 ->
  ∃ lstar i,
    vmi_get_vcpureg_lstar w = Some lstar
    ∧ vmi_translate_kv2p w lstar ≠ 0
    ∧ length (vmi_read_pa w (vmi_translate_kv2p w lstar) (Z.to_nat GT_PAGE_SIZE))
      = Z.to_nat GT_PAGE_SIZE
    ∧ 0 <= i < GT_PAGE_SIZE
    ∧ gt_find_trampoline_addr w = wrap64 (lstar + i)
    ∧ valid_pa w (vmi_translate_kv2p w lstar + i) = true
    ∧ byte_at w (vmi_translate_kv2p w lstar + i) = GT_BREAKPOINT_INST
    ∧ ∀ j, 0 <= j < i ->
           byte_at w (vmi_translate_kv2p w lstar + j) ≠ GT_BREAKPOINT_INST.
Proof.
  unfold gt_find_trampoline_addr.
  destruct (vmi_get_vcpureg_lstar w) as [lstar|]; [|congruence].
  destruct (vmi_translate_kv2p w lstar =? 0) eqn:Hp; [congruence|].
  apply Z.eqb_neq in Hp.
  destruct (_ <? GT_PAGE_SIZE) eqn:Hlen; [congruence|].
  apply Z.ltb_ge in Hlen. unfold vmi_read_pa in *.
  rewrite length_load_bytes in Hlen.
  assert (Hfull : valid_prefix w (vmi_translate_kv2p w lstar) (Z.to_nat GT_PAGE_SIZE)
                  = Z.to_nat GT_PAGE_SIZE).
  { pose proof (valid_prefix_bound w (vmi_translate_kv2p w lstar)
                  (Z.to_nat GT_PAGE_SIZE)) as Hb.
    rewrite page_size_nat in *. change GT_PAGE_SIZE with 4096 in Hlen. lia. }
  rewrite Hfull. intros Hnz.
  destruct (look_for_int3_hit _ _ _ _ _ Hnz) as (i & Hi & Heq & Hhit & Hmiss).
  rewrite page_size_nat in Hi.
  exists lstar, (Z.of_nat i). repeat apply conj; auto.
  - unfold vmi_read_pa. rewrite length_load_bytes. exact Hfull.
  - lia.
  - change GT_PAGE_SIZE with 4096. lia.
  - apply (valid_prefix_full w _ _ i Hfull). rewrite page_size_nat. exact Hi.
  - intros j Hj. replace j with (Z.of_nat (Z.to_nat j)) by lia. apply Hmiss. lia.
Qed.

(** ** What an install does to the domain and to guest memory *)

Lemma gt_allocate_shadow_frame_spec l w :
  let '(gfn, l', w') := gt_allocate_shadow_frame l w in
  guest w' = guest w
  ∧ altp2m (xen w') = altp2m (xen w)
  ∧ mem_event (xen w') = mem_event (xen w)
  ∧ (maxmem (xen w') = maxmem (xen w) ∧ curr_mem_size l' = curr_mem_size l
     ∨ maxmem (xen w') = wrap64 (curr_mem_size l + GT_PAGE_SIZE)
       ∧ curr_mem_size l' = wrap64 (curr_mem_size l + GT_PAGE_SIZE))
  ∧ (gfn ≠ 0 ->
     ram (xen w') = {[gfn]} ∪ ram (xen w)
     ∧ reserved (xen w') = gfn :: reserved (xen w)).
Proof.
  unfold gt_allocate_shadow_frame, xc_domain_setmaxmem,
    xc_domain_increase_reservation_exact, xc_domain_populate_physmap_exact,
    hypercall.
  destruct w as [g [mm faults supply res rm alt me av] tr hn cbr ind].
  cbn [xen xen_faults].
  destruct faults as [|[] faults]; cbn;
    try (repeat apply conj; auto; congruence).
  - destruct supply as [|gfn supply]; cbn;
      repeat apply conj; auto; congruence.
  - destruct faults as [|[] faults]; cbn;
      try (repeat apply conj; auto; congruence).
    + destruct supply as [|gfn supply]; cbn;
        repeat apply conj; auto; congruence.
    + destruct supply as [|gfn supply]; cbn;
        try (repeat apply conj; auto; congruence).
      destruct faults as [|[] faults]; cbn;
        repeat apply conj; auto; congruence.
Qed.

Lemma load_bytes_lookup w pa n i :
  (i < n)%nat -> load_bytes w pa n !! i = Some (byte_at w (pa + Z.of_nat i)).
Proof.
  revert pa i. induction n as [|n IH]; intros pa i Hi; [lia|].
  cbn [load_bytes]. destruct i as [|i].
  - cbn. f_equal. f_equal. lia.
  - cbn. rewrite IH by lia. f_equal. f_equal. lia.
Qed.

Lemma shift_frame s i :
  0 <= i < GT_PAGE_SIZE -> Z.shiftr (s * GT_PAGE_SIZE + i) GT_PAGE_OFFSET_BITS = s.
Proof.
  intros Hi. change GT_PAGE_SIZE with 4096 in *. change GT_PAGE_OFFSET_BITS with 12.
  rewrite Z.shiftr_div_pow2 by lia. change (2 ^ 12) with 4096.
  replace (s * 4096 + i) with (i + s * 4096) by lia.
  rewrite Z.div_add by lia. rewrite Z.div_small by lia. lia.
Qed.

Lemma wrap_frame_base s :
  0 <= s < 2 ^ 52 -> wrap64 (Z.shiftl s GT_PAGE_OFFSET_BITS) = s * GT_PAGE_SIZE.
Proof.
  intros Hs. change GT_PAGE_OFFSET_BITS with 12. change GT_PAGE_SIZE with 4096.
  rewrite Z.shiftl_mul_pow2 by lia. change (2 ^ 12) with 4096.
  unfold wrap64. apply Z.mod_small. lia.
Qed.

Lemma wrap_frame_byte s i :
  0 <= s < 2 ^ 52 -> 0 <= i < GT_PAGE_SIZE ->
  wrap64 (wrap64 (Z.shiftl s GT_PAGE_OFFSET_BITS) + i) = s * GT_PAGE_SIZE + i.
Proof.
  intros Hs Hi. rewrite wrap_frame_base by exact Hs.
  change GT_PAGE_SIZE with 4096 in *. unfold wrap64. apply Z.mod_small. lia.
Qed.

Lemma valid_prefix_page w s n :
  valid_pa w (s * GT_PAGE_SIZE) = true -> (n <= 4096)%nat ->
  ∀ k, 0 <= k -> k + Z.of_nat n <= GT_PAGE_SIZE ->
  valid_prefix w (s * GT_PAGE_SIZE + k) n = n.
Proof.
  intros Hv. induction n as [|n IH]; intros Hn k Hk Hfit; [reflexivity|].
  cbn [valid_prefix].
  assert (Hvk : valid_pa w (s * GT_PAGE_SIZE + k) = true).
  { unfold valid_pa in *. rewrite shift_frame by lia.
    rewrite <- (shift_frame s 0) by (change GT_PAGE_SIZE with 4096; lia).
    rewrite Z.add_0_r. exact Hv. }
  rewrite Hvk. f_equal.
  replace (s * GT_PAGE_SIZE + k + 1) with (s * GT_PAGE_SIZE + (k + 1)) by lia.
  apply IH; lia.
Qed.

Lemma hypercall_reserved w : reserved (xen (snd (hypercall w))) = reserved (xen w).
Proof. unfold hypercall. destruct (xen_faults _); reflexivity. Qed.

Lemma vmi_write_8_pa_ok w pa v :
  valid_pa w pa = true ->
  vmi_write_8_pa w pa v
  = (true, log (EWrite pa [v mod 256])
             (set_guest (fun g => set_bytes (<[pa := v mod 256]> (bytes g)) g) w)).
Proof.
  intros Hv. unfold vmi_write_8_pa, vmi_write_pa. cbn [length valid_prefix].
  rewrite Hv. reflexivity.
Qed.

(** X1. The first install in a frame, when it returns a record.  On
    well-formed tables, for an address whose frame has no shadow frame
    yet, with the frame handed out below 2^52 and not yet a shadow frame:
    the record is registered; exactly that one frame is reserved and
    backed; the shadow view shows it in place of the frame of the
    address, which is trapped on read and write; the shadow frame is a
    copy of the original frame but for the breakpoint byte at the offset
    of the address; no byte outside the shadow frame has changed. *)
Theorem install_builds_shadow_copy l w va cb rcb d r l' w' :
  let pa := vmi_translate_kv2p w va in
  let fr := Z.shiftr pa GT_PAGE_OFFSET_BITS in
  let off := pa mod GT_PAGE_SIZE in
  tables_ok l ->
  0 <= pa < 2 ^ 64 ->
  gt_page_translation l !! fr = None ->
  gt_setup_mem_trap l w va cb rcb d = (Some r, l', w') ->
  gt_page_record_collection l !! parent r = None ->
  0 <= parent r < 2 ^ 52 ->
  gt_paddr_record_from_va l' w' va = Some r
  ∧ reserved (xen w') = parent r :: reserved (xen w)
  ∧ ram (xen w') = {[parent r]} ∪ ram (xen w)
  ∧ altp2m (xen w') = <[fr := parent r]> (altp2m (xen w))
  ∧ mem_event (xen w') = <[fr := VMI_MEMACCESS_RW]> (mem_event (xen w))
  ∧ (∀ i, 0 <= i < GT_PAGE_SIZE ->
       byte_at w' (parent r * GT_PAGE_SIZE + i)
       = if i =? off then GT_BREAKPOINT_INST
         else byte_at w (fr * GT_PAGE_SIZE + i))
  ∧ (∀ a, Z.shiftr a GT_PAGE_OFFSET_BITS ≠ parent r -> byte_at w' a = byte_at w a).
Proof.
  intros pa fr off Hok Hpa Htr Hdone Hcol Hgfn.
  pose proof (gt_setup_mem_trap_reserves l w va cb rcb d) as (Hk & _).
  rewrite Hdone in Hk. cbn [snd] in Hk.
  revert Hdone. unfold gt_setup_mem_trap. fold pa.
  destruct (pa =? 0) eqn:Hz; [discriminate|]. fold fr off.
  rewrite Htr. cbn [default]. unfold gt_ensure_shadow_frame.
  change (0 =? 0) with true. cbv iota.
  pose proof (gt_allocate_shadow_frame_spec l w) as Ha.
  pose proof (gt_allocate_shadow_frame_tables l w) as (Ht & Hc & _).
  destruct (gt_allocate_shadow_frame l w) as [[gfn l1] w1]. cbn [fst snd] in Ht, Hc.
  destruct Ha as (Hg1 & Halt1 & Hme1 & _ & Hram1).
  destruct (gfn =? 0) eqn:Hgz; [discriminate|]. apply Z.eqb_neq in Hgz.
  destruct (Hram1 Hgz) as [Hram Hres]. clear Hram1.
  unfold xc_altp2m_change_gfn.
  destruct (hypercall_keeps w1) as (Hg2 & Hr2 & Ha2 & Hm2 & _).
  pose proof (hypercall_reserved w1) as Hres2.
  destruct (hypercall w1) as [fails w2]. cbn [snd] in *.
  destruct fails; [discriminate|].
  set (l2 := set_page_translation _ l1).
  set (w2' := snd (if gfn =? INVALID_GFN
                   then (0, set_xen (fun x => set_altp2m (delete fr (altp2m x)) x) w2)
                   else (0, set_xen (fun x => set_altp2m (<[fr := gfn]> (altp2m x)) x) w2))).
  assert (Hstep :
    (let '(xc_status, w3) :=
       if gfn =? INVALID_GFN
       then (0, set_xen (fun x => set_altp2m (delete fr (altp2m x)) x) w2)
       else (0, set_xen (fun x => set_altp2m (<[fr := gfn]> (altp2m x)) x) w2) in
     if xc_status <? 0 then inr (l2, w3) else inl (gfn, l2, w3))
    = inl (gfn, l2, w2')).
  { subst w2'. destruct (gfn =? INVALID_GFN); reflexivity. }
  rewrite Hstep. clear Hstep.
  assert (Hg2' : guest w2' = guest w)
    by (subst w2'; destruct (gfn =? INVALID_GFN); cbn; congruence).
  assert (Hr2' : ram (xen w2') = {[gfn]} ∪ ram (xen w))
    by (subst w2'; destruct (gfn =? INVALID_GFN); cbn; congruence).
  assert (Hres2' : reserved (xen w2') = gfn :: reserved (xen w))
    by (subst w2'; destruct (gfn =? INVALID_GFN); cbn; congruence).
  assert (Hm2' : mem_event (xen w2') = mem_event (xen w))
    by (subst w2'; destruct (gfn =? INVALID_GFN); cbn; congruence).
  assert (Ha2' : gfn ≠ INVALID_GFN ->
                 altp2m (xen w2') = <[fr := gfn]> (altp2m (xen w))).
  { intros Hne. apply Z.eqb_neq in Hne. subst w2'. rewrite Hne. cbn. congruence. }
  clearbody w2'. clear Hg2 Hr2 Ha2 Hm2 Hres2 w2 Hg1 Halt1 Hme1 Hram Hres w1.
  assert (Hcol2 : gt_page_record_collection l2 = gt_page_record_collection l)
    by (subst l2; exact Hc).
  assert (Htr2 : gt_page_translation l2 !! fr = Some gfn)
    by (subst l2; cbn; apply lookup_insert_eq).
  clearbody l2. rewrite Hcol2.
  destruct (gt_page_record_collection l !! gfn) as [page|] eqn:Hpage.
  { destruct Hok as (_ & Hpages & _).
    destruct (Hpages _ _ Hpage) as (_ & _ & _ & Hch).
    destruct (children page !! off) as [r'|] eqn:Hchild.
    - intros H. injection H as <- _ _. destruct (Hch _ _ Hchild) as [_ Hp].
      rewrite Hp in Hcol. congruence.
    - unfold gt_add_paddr_record, g_new0.
      destruct (vmi_write_8_pa _ _ _) as [[] w5]; cbn [negb];
        intros H; injection H as <- _ _; cbn [parent] in Hcol; congruence. }
  set (buff := vmi_read_pa w2' _ _).
  destruct (negb (Z.of_nat (length buff) =? GT_PAGE_SIZE)) eqn:Hlen; [discriminate|].
  apply negb_false_iff, Z.eqb_eq in Hlen.
  pose proof (vmi_write_pa_bytes w2' (wrap64 (Z.shiftl gfn GT_PAGE_OFFSET_BITS)) buff) as Hb3.
  pose proof (vmi_write_pa_xen w2' (wrap64 (Z.shiftl gfn GT_PAGE_OFFSET_BITS)) buff) as Hx3.
  assert (Hret3 : fst (vmi_write_pa w2' (wrap64 (Z.shiftl gfn GT_PAGE_OFFSET_BITS)) buff)
                  = valid_prefix w2' (wrap64 (Z.shiftl gfn GT_PAGE_OFFSET_BITS)) (length buff)).
  { unfold vmi_write_pa. destruct (valid_prefix _ _ _); reflexivity. }
  destruct (vmi_write_pa w2' _ buff) as [ret w3]. cbn [fst snd] in Hb3, Hx3, Hret3.
  destruct (negb (Z.of_nat ret =? GT_PAGE_SIZE)) eqn:Hret; [discriminate|].
  apply negb_false_iff, Z.eqb_eq in Hret.
  assert (Hfr : 0 <= fr < 2 ^ 52).
  { subst fr. change GT_PAGE_OFFSET_BITS with 12. rewrite Z.shiftr_div_pow2 by lia.
    change (2 ^ 12) with 4096. split; [apply Z.div_pos; lia|].
    apply Z.div_lt_upper_bound; lia. }
  assert (Hoff : 0 <= off < GT_PAGE_SIZE).
  { subst off. apply Z.mod_pos_bound. reflexivity. }
  assert (Hbuff : buff = load_bytes w2' (fr * GT_PAGE_SIZE) (Z.to_nat GT_PAGE_SIZE)).
  { subst buff. unfold vmi_read_pa in *. rewrite length_load_bytes in Hlen.
    rewrite wrap_frame_base in * by exact Hfr.
    f_equal. apply Nat2Z.inj. rewrite Hlen. reflexivity. }
  assert (Hlenb : length buff = Z.to_nat GT_PAGE_SIZE).
  { rewrite Hbuff. apply length_load_bytes. }
  clearbody buff.
  unfold gt_add_paddr_record, g_new0.
  set (w4 := mkWorld _ _ _ _ _ _).
  assert (Hx4 : xen w4 = set_mem_event (<[fr := VMI_MEMACCESS_RW]> (mem_event (xen w3)))
                                       (xen w3)) by reflexivity.
  assert (Hg4 : guest w4 = guest w3) by reflexivity.
  clearbody w4.
  destruct (vmi_write_8_pa w4 _ _) as [ok w5] eqn:Hw8.
  intros Hdone.
  assert (Hpar : parent r = gfn).
  { destruct ok; cbn [negb] in Hdone; injection Hdone as <- _ _; reflexivity. }
  rewrite Hpar in *. clear Hcol.
  assert (Haddr : wrap64 (wrap64 (Z.shiftl gfn GT_PAGE_OFFSET_BITS) + off)
                  = gfn * GT_PAGE_SIZE + off) by (apply wrap_frame_byte; assumption).
  rewrite Haddr in *.
  assert (Hv4 : valid_pa w4 (gfn * GT_PAGE_SIZE + off) = true).
  { unfold valid_pa. rewrite shift_frame by exact Hoff. rewrite Hx4. cbn.
    rewrite Hx3, Hr2'. apply bool_decide_eq_true.
    apply elem_of_union. left. apply elem_of_singleton. reflexivity. }
  rewrite (vmi_write_8_pa_ok _ _ _ Hv4) in Hw8. injection Hw8 as <- <-.
  cbn [negb] in Hdone. injection Hdone as <- <- <-.
  assert (Hne : gfn ≠ INVALID_GFN) by (unfold INVALID_GFN; lia).
  assert (Htake : take (valid_prefix w2' (wrap64 (Z.shiftl gfn GT_PAGE_OFFSET_BITS))
                                     (length buff)) buff = buff).
  { apply take_ge. rewrite <- Hret3. apply Nat2Z.inj_le. rewrite Hret, Hlen. lia. }
  rewrite Htake, wrap_frame_base in Hb3 by exact Hgfn.
  assert (Hbytes : ∀ a,
            byte_at (log (EWrite (gfn * GT_PAGE_SIZE + off) [GT_BREAKPOINT_INST mod 256])
                       (set_guest (fun g => set_bytes
                          (<[gfn * GT_PAGE_SIZE + off := GT_BREAKPOINT_INST mod 256]>
                             (bytes g)) g) w4)) a
            = if a =? gfn * GT_PAGE_SIZE + off then GT_BREAKPOINT_INST
              else if (gfn * GT_PAGE_SIZE <=? a) && (a <? gfn * GT_PAGE_SIZE + GT_PAGE_SIZE)
                   then byte_at w (fr * GT_PAGE_SIZE + (a - gfn * GT_PAGE_SIZE))
                   else byte_at w a).
  { intros a. unfold byte_at. cbn [guest log set_guest bytes set_bytes].
    destruct (Z.eqb_spec a (gfn * GT_PAGE_SIZE + off)) as [->|Hna].
    - rewrite lookup_insert_eq. reflexivity.
    - rewrite lookup_insert_ne by congruence. rewrite Hg4, Hb3, store_bytes_lookup.
      rewrite Hlenb. change (Z.of_nat (Z.to_nat GT_PAGE_SIZE)) with GT_PAGE_SIZE.
      destruct ((gfn * GT_PAGE_SIZE <=? a) && (a <? gfn * GT_PAGE_SIZE + GT_PAGE_SIZE))
        eqn:Hin.
      + apply andb_true_iff in Hin as [H1 H2].
        apply Z.leb_le in H1. apply Z.ltb_lt in H2.
        rewrite Hbuff, load_bytes_lookup.
        * cbn [default]. rewrite Z2Nat.id by lia. unfold byte_at. rewrite Hg2'. reflexivity.
        * apply Nat2Z.inj_lt. change GT_PAGE_SIZE with 4096 in *.
          rewrite !Z2Nat.id by lia. lia.
      + rewrite Hg2'. reflexivity. }
  repeat apply conj.
  - unfold gt_paddr_record_from_va, gt_paddr_record_from_pa, vmi_translate_kv2p.
    rewrite Hk. fold (vmi_translate_kv2p w va). fold pa. fold fr. fold off.
    cbn [gt_page_translation set_page_record_collection gt_page_record_collection].
    rewrite Htr2. change (default 0 (Some gfn)) with gfn.
    apply Z.eqb_neq in Hgz. rewrite Hgz.
    rewrite lookup_insert_eq. cbn [children]. apply lookup_insert_eq.
  - cbn. rewrite Hx4. cbn. rewrite Hx3. exact Hres2'.
  - cbn. rewrite Hx4. cbn. rewrite Hx3. exact Hr2'.
  - cbn. rewrite Hx4. cbn. rewrite Hx3. apply Ha2', Hne.
  - cbn. rewrite Hx4. cbn. rewrite Hx3, Hm2'. reflexivity.
  - intros i Hi. rewrite Hbytes.
    destruct (Z.eqb_spec i off) as [->|Hio].
    + rewrite Z.eqb_refl. reflexivity.
    + destruct (Z.eqb_spec (gfn * GT_PAGE_SIZE + i) (gfn * GT_PAGE_SIZE + off)); [lia|].
      destruct (Z.leb_spec (gfn * GT_PAGE_SIZE) (gfn * GT_PAGE_SIZE + i)); [|lia].
      destruct (Z.ltb_spec (gfn * GT_PAGE_SIZE + i) (gfn * GT_PAGE_SIZE + GT_PAGE_SIZE));
        [|lia].
      cbn [andb]. f_equal. lia.
  - intros a Ha. rewrite Hbytes.
    destruct (Z.eqb_spec a (gfn * GT_PAGE_SIZE + off)) as [->|_].
    { rewrite shift_frame in Ha by exact Hoff. contradiction. }
    destruct (Z.leb_spec (gfn * GT_PAGE_SIZE) a); [|reflexivity].
    destruct (Z.ltb_spec a (gfn * GT_PAGE_SIZE + GT_PAGE_SIZE)); [|reflexivity].
    exfalso. apply Ha.
    replace a with (gfn * GT_PAGE_SIZE + (a - gfn * GT_PAGE_SIZE)) by lia.
    apply shift_frame. lia.
Qed.

(** ** The memory ceiling *)

Lemma gt_add_paddr_record_ceiling l w page shadow off cb rcb d :
  let done := gt_add_paddr_record l w page shadow off cb rcb d in
  curr_mem_size (snd (fst done)) = curr_mem_size l
  ∧ maxmem (xen (snd done)) = maxmem (xen w).
Proof.
  unfold gt_add_paddr_record, g_new0.
  match goal with |- context [vmi_write_8_pa ?w0 ?pa ?v] =>
    pose proof (vmi_write_8_pa_unfold w0 pa v) as Hu;
    pose proof (vmi_write_pa_xen w0 pa [v mod 256]) as Hx;
    destruct (vmi_write_8_pa w0 pa v) as [ok w2] end.
  injection Hu as _ ->. cbn in Hx.
  destruct ok; cbn; rewrite Hx; auto.
Qed.

(** X14. The loop's record of the guest memory size follows the
    ceiling of the domain: when they agree before an install they agree
    after it, whatever the install's outcome, and the ceiling has stayed
    or grown by one page. *)
Theorem memory_ceiling_tracks_allocations l w va cb rcb d :
  curr_mem_size l = maxmem (xen w) ->
  let done := gt_setup_mem_trap l w va cb rcb d in
  curr_mem_size (snd (fst done)) = maxmem (xen (snd done))
  ∧ (maxmem (xen (snd done)) = maxmem (xen w)
     ∨ maxmem (xen (snd done)) = wrap64 (maxmem (xen w) + GT_PAGE_SIZE)).
Proof.
  intros Hagree. cbv zeta. unfold gt_setup_mem_trap.
  destruct (vmi_translate_kv2p w va =? 0); [cbn; auto|].
  set (fr := Z.shiftr _ _). set (off := _ mod _).
  assert (He : match gt_ensure_shadow_frame l w fr
                       (default 0 (gt_page_translation l !! fr)) with
               | inr (l', w') | inl (_, l', w') =>
                   curr_mem_size l' = maxmem (xen w')
                   ∧ (maxmem (xen w') = maxmem (xen w)
                      ∨ maxmem (xen w') = wrap64 (maxmem (xen w) + GT_PAGE_SIZE))
               end).
  { unfold gt_ensure_shadow_frame. destruct (_ =? 0); [|auto].
    pose proof (gt_allocate_shadow_frame_spec l w) as Ha.
    destruct (gt_allocate_shadow_frame l w) as [[gfn l1] w1].
    destruct Ha as (_ & _ & _ & Hceil & _).
    assert (H1 : curr_mem_size l1 = maxmem (xen w1)
                 ∧ (maxmem (xen w1) = maxmem (xen w)
                    ∨ maxmem (xen w1) = wrap64 (maxmem (xen w) + GT_PAGE_SIZE))).
    { rewrite <- Hagree. destruct Hceil as [[-> ->]|[-> ->]]; auto. }
    destruct (gfn =? 0); [exact H1|].
    unfold xc_altp2m_change_gfn.
    destruct (hypercall_keeps w1) as (_ & _ & _ & _ & _ & Hm).
    destruct (hypercall w1) as [[] w2]; cbn [snd] in Hm; cbn; [rewrite Hm; exact H1|].
    destruct (gfn =? INVALID_GFN); cbn; rewrite Hm; exact H1. }
  destruct (gt_ensure_shadow_frame l w fr _) as [[[shadow l1] w1]|[l1 w1]];
    [|exact He].
  destruct (gt_page_record_collection l1 !! shadow) as [page|].
  - destruct (children page !! off); [exact He|].
    destruct (gt_add_paddr_record_ceiling l1 w1 page shadow off cb rcb d) as [-> ->].
    exact He.
  - destruct (negb _); [exact He|].
    match goal with |- context [vmi_write_pa ?w0 ?pa ?b] =>
      pose proof (vmi_write_pa_xen w0 pa b) as Hx;
      destruct (vmi_write_pa w0 pa b) as [ret w2] end.
    cbn [snd] in Hx.
    destruct (negb _); [cbn [fst snd]; rewrite Hx; exact He|].
    match goal with |- context [gt_add_paddr_record ?l2 ?w3 ?pg _ _ _ _ _] =>
      destruct (gt_add_paddr_record_ceiling l2 w3 pg shadow off cb rcb d) as [-> ->] end.
    cbn. rewrite Hx. exact He.
Qed.

(** ** Removing a breakpoint *)

(** X15. Removing a breakpoint copies the byte of the original frame at
    the record's offset over the byte at that offset of the shadow frame
    and touches nothing else; it fails, leaving the guest as it is, when
    either byte lies in memory that is not backed. *)
Theorem remove_breakpoint_restores_byte w page r :
  let orig :=
    wrap64 (wrap64 (Z.shiftl (frame page) GT_PAGE_OFFSET_BITS) + offset r) in
  let shadow :=
    wrap64 (wrap64 (Z.shiftl (shadow_frame page) GT_PAGE_OFFSET_BITS) + offset r) in
  let '(ok, w') := gt_remove_breakpoint w page r in
  ok = valid_pa w orig && valid_pa w shadow
  ∧ xen w' = xen w
  ∧ (ok = false -> w' = w)
  ∧ (ok = true ->
     byte_at w' shadow = byte_at w orig mod 256
     ∧ (∀ a, a ≠ shadow -> byte_at w' a = byte_at w a)
     ∧ trace w' = EWrite shadow [byte_at w orig mod 256] :: trace w).
Proof.
  intros orig shadow. unfold gt_remove_breakpoint. fold orig shadow.
  unfold vmi_read_8_pa, vmi_read_pa. cbn [valid_prefix].
  destruct (valid_pa w orig) eqn:Ho; cbn [load_bytes andb].
  - unfold vmi_write_8_pa, vmi_write_pa. cbn [length valid_prefix].
    destruct (valid_pa w shadow) eqn:Hs; cbn [Nat.eqb].
    + repeat apply conj; try reflexivity; [discriminate|]. intros _.
      repeat apply conj; try reflexivity.
      * unfold byte_at. cbn. rewrite lookup_insert_eq. reflexivity.
      * intros a Ha. unfold byte_at. cbn. rewrite lookup_insert_ne by congruence.
        reflexivity.
    + repeat apply conj; try reflexivity; discriminate.
  - repeat apply conj; try reflexivity; discriminate.
Qed.

(** ** The identifier-based tracer beside the callback-exposing one *)

Lemma vf_look_for_int3_agrees lstar code k :
  match VF.vf_look_for_int3 code k with
  | Some i => look_for_int3 lstar code k = wrap64 (lstar + i)
  | None => look_for_int3 lstar code k = 0
  end.
Proof.
  revert k. induction code as [|b rest IH]; intros k; [reflexivity|].
  cbn [VF.vf_look_for_int3 look_for_int3].
  change VF.VF_BREAKPOINT_INST with GT_BREAKPOINT_INST.
  destruct (b =? GT_BREAKPOINT_INST); cbn [negb]; [reflexivity|apply IH].
Qed.

(** X17. The two trampoline locators agree: the identifier-based one
    succeeds with the address the callback-exposing one returns, and
    when it fails, leaving its state as it was, the other returns 0. *)
Theorem trampoline_locators_agree s w :
  let '(ok, s') := VF.vf_find_trampoline_addr s w in
  (ok = true -> s' = VF.set_trampoline_addr (gt_find_trampoline_addr w) s)
  ∧ (ok = false -> s' = s ∧ gt_find_trampoline_addr w = 0).
Proof.
  unfold VF.vf_find_trampoline_addr, gt_find_trampoline_addr.
  destruct (vmi_get_vcpureg_lstar w) as [lstar|]; [|split; [discriminate|auto]].
  destruct (_ =? 0); [split; [discriminate|auto]|].
  change VF.VF_PAGE_SIZE with GT_PAGE_SIZE.
  destruct (_ <? GT_PAGE_SIZE); [split; [discriminate|auto]|].
  pose proof (vf_look_for_int3_agrees lstar
                (vmi_read_pa w (vmi_translate_kv2p w lstar) (Z.to_nat GT_PAGE_SIZE)) 0) as H.
  destruct (VF.vf_look_for_int3 _ 0) as [i|].
  - split; [|discriminate]. intros _. rewrite H. reflexivity.
  - split; [discriminate|auto].
Qed.

Lemma allocators_agree l m w :
  curr_mem_size l = VF.curr_mem_size m ->
  let '(gfn, l', w1) := gt_allocate_shadow_frame l w in
  let '(gfn', m', w2) := VF.vf_allocate_shadow_page m w in
  gfn' = gfn ∧ w2 = w1 ∧ curr_mem_size l' = VF.curr_mem_size m'
  ∧ shadow_view l' = shadow_view l
  ∧ gt_page_translation l' = gt_page_translation l
  ∧ gt_page_record_collection l' = gt_page_record_collection l.
Proof.
  intros Hc. unfold gt_allocate_shadow_frame, VF.vf_allocate_shadow_page.
  change VF.VF_PAGE_SIZE with GT_PAGE_SIZE. rewrite <- Hc.
  unfold xc_domain_setmaxmem, xc_domain_increase_reservation_exact,
    xc_domain_populate_physmap_exact, hypercall.
  destruct w as [g [mm faults supply res rm alt me av] tr hn cbr ind].
  cbn [xen xen_faults].
  destruct faults as [|[] faults]; cbn; auto 10.
  - destruct supply as [|gfn supply]; cbn; auto 10.
  - destruct faults as [|[] faults]; cbn; auto 10.
    + destruct supply as [|gfn supply]; cbn; auto 10.
    + destruct supply as [|gfn supply]; cbn; auto 10.
      destruct faults as [|[] faults]; cbn; auto 10.
Qed.

Lemma same_traps_collection l s m c c' :
  same_traps l s m ->
  gt_page_shape <$> c = vf_page_shape <$> c' ->
  same_traps (set_page_record_collection c l) (VF.set_page_record_collection c' s) m.
Proof. intros (Hv & Hc & Ht & _) Hs. repeat apply conj; assumption. Qed.

Lemma add_paddr_records_agree l s m w page page' shadow off cb rcb d :
  same_traps l s m ->
  gt_page_shape page = vf_page_shape page' ->
  let '(r, l', w1) := gt_add_paddr_record l w page shadow off cb rcb d in
  let '(r', s', w2) := VF.vf_add_paddr_record s w page' shadow off in
  w2 = w1
  ∧ same_traps l' s' m
  ∧ (λ r, (addr r, offset r, parent r)) <$> r
    = (λ r, (VF.addr r, VF.offset r, VF.parent r)) <$> r'.
Proof.
  intros Hsame Hshape. unfold gt_add_paddr_record, VF.vf_add_paddr_record, g_new0.
  change VF.VF_PAGE_OFFSET_BITS with GT_PAGE_OFFSET_BITS.
  change VF.VF_BREAKPOINT_INST with GT_BREAKPOINT_INST.
  destruct (vmi_write_8_pa _ _ _) as [[] w2]; cbn [negb].
  - split; [reflexivity|]. split; [|reflexivity].
    apply same_traps_collection; [exact Hsame|].
    rewrite !fmap_insert. destruct Hsame as (_ & _ & _ & ->). f_equal.
    unfold gt_page_shape, vf_page_shape in *. cbn.
    injection Hshape as Hf Hs Hc. rewrite !fmap_insert, Hf, Hs, Hc. reflexivity.
  - split; [reflexivity|]. split; [exact Hsame|reflexivity].
Qed.

Lemma ensure_shadow_agree l s m w fr shadow :
  same_traps l s m ->
  match gt_ensure_shadow_frame l w fr shadow,
        VF.vf_ensure_shadow_page s m w fr shadow with
  | inl (sh, l', w1), inl (sh', s', m', w2) =>
      sh' = sh ∧ w2 = w1 ∧ same_traps l' s' m'
  | inr (l', w1), inr (s', m', w2) => w2 = w1 ∧ same_traps l' s' m'
  | _, _ => False
  end.
Proof.
  intros Hsame. unfold gt_ensure_shadow_frame, VF.vf_ensure_shadow_page.
  destruct (shadow =? 0); [|auto].
  destruct Hsame as (Hv & Hc & Ht & Hs).
  pose proof (allocators_agree l m w Hc) as Ha.
  destruct (gt_allocate_shadow_frame l w) as [[gfn l1] w1].
  destruct (VF.vf_allocate_shadow_page m w) as [[gfn' m1] w1'].
  destruct Ha as (-> & -> & Hc1 & Hv1 & Ht1 & Hp1).
  assert (Hsame1 : same_traps l1 s m1).
  { unfold same_traps. rewrite Hv1, Ht1, Hp1. auto. }
  destruct (gfn =? 0); [auto|].
  cbn [shadow_view VF.shadow_view set_page_translation VF.set_page_translation].
  rewrite Hv1, Hv.
  destruct (xc_altp2m_change_gfn _ _ _ _) as [st w2].
  assert (Hsame2 : same_traps
                     (set_page_translation (<[fr := gfn]> (gt_page_translation l1)) l1)
                     (VF.set_page_translation (<[fr := gfn]> (VF.vf_page_translation s)) s)
                     m1).
  { destruct Hsame1 as (Hv' & Hc' & Ht' & Hs').
    split; [|split; [|split]]; cbn; congruence. }
  destruct (st <? 0); auto.
Qed.

(** X16. The two installs agree.  From states that have trapped the
    same places, an install at the same address leaves the same world
    (the same hypercalls, the same guest memory, the same trace) and
    states that have again trapped the same places, and both return no
    record or records of the same identity, offset and shadow frame. *)
Theorem installs_agree l s m w va cb rcb d :
  same_traps l s m ->
  let '(r, l', w1) := gt_setup_mem_trap l w va cb rcb d in
  let '(r', s', m', w2) := VF.vf_setup_mem_trap s m w va in
  w2 = w1
  ∧ same_traps l' s' m'
  ∧ (λ r, (addr r, offset r, parent r)) <$> r
    = (λ r, (VF.addr r, VF.offset r, VF.parent r)) <$> r'.
Proof.
  intros Hsame. unfold gt_setup_mem_trap, VF.vf_setup_mem_trap.
  change VF.VF_PAGE_OFFSET_BITS with GT_PAGE_OFFSET_BITS.
  change VF.VF_PAGE_SIZE with GT_PAGE_SIZE.
  destruct (vmi_translate_kv2p w va =? 0); [auto|].
  set (fr := Z.shiftr _ _). set (off := _ mod _).
  assert (Ht : gt_page_translation l = VF.vf_page_translation s)
    by (destruct Hsame as (_ & _ & Ht & _); exact Ht).
  rewrite <- Ht.
  pose proof (ensure_shadow_agree l s m w fr
                (default 0 (gt_page_translation l !! fr)) Hsame) as He.
  destruct (gt_ensure_shadow_frame l w fr _) as [[[shadow l1] w1]|[l1 w1]],
           (VF.vf_ensure_shadow_page s m w fr _) as [[[[shadow' s1] m1] w1']|[[s1 m1] w1']];
    try contradiction; [|destruct He as [-> He]; auto].
  destruct He as (-> & -> & Hsame1).
  pose proof Hsame1 as (Hv1 & _ & _ & Hs1).
  apply (f_equal (.!! shadow)) in Hs1. rewrite !lookup_fmap in Hs1.
  destruct (gt_page_record_collection l1 !! shadow) as [page|],
           (VF.vf_page_record_collection s1 !! shadow) as [page'|];
    try discriminate.
  - assert (Hshape : gt_page_shape page = vf_page_shape page')
      by (injection Hs1; intros; unfold gt_page_shape, vf_page_shape; congruence).
    injection Hs1 as _ _ Hch.
    apply (f_equal (.!! off)) in Hch. rewrite !lookup_fmap in Hch.
    destruct (children page !! off) as [r|], (VF.children page' !! off) as [r'|];
      try discriminate.
    + split; [reflexivity|]. split; [exact Hsame1|exact Hch].
    + pose proof (add_paddr_records_agree l1 s1 m1 w1 page page' shadow off cb rcb d
                    Hsame1 Hshape) as Hadd.
      destruct (gt_add_paddr_record _ _ _ _ _ _ _ _) as [[r l2] w2].
      destruct (VF.vf_add_paddr_record _ _ _ _ _) as [[r' s2] w2']. exact Hadd.
  - destruct (negb _); [auto|].
    destruct (vmi_write_pa _ _ _) as [ret w2].
    destruct (negb _); [auto|].
    cbn [shadow_view VF.shadow_view set_page_record_collection
         VF.set_page_record_collection]. rewrite <- Hv1.
    match goal with
    | |- context [gt_add_paddr_record ?l2 ?w3 ?pg _ _ _ _ _] =>
        match goal with
        | |- context [VF.vf_add_paddr_record ?s2 _ ?pg' _ _] =>
            pose proof (add_paddr_records_agree l2 s2 m1 w3 pg pg' shadow off cb rcb d)
              as Hadd
        end
    end.
    destruct (gt_add_paddr_record _ _ _ _ _ _ _ _) as [[r l3] w4].
    destruct (VF.vf_add_paddr_record _ _ _ _ _) as [[r' s3] w4'].
    apply Hadd; [|unfold gt_page_shape, vf_page_shape; cbn; rewrite !fmap_empty; reflexivity].
    apply same_traps_collection; [exact Hsame1|].
    rewrite !fmap_insert. destruct Hsame1 as (_ & _ & _ & ->). f_equal.
Qed.

(** ** Finding the system calls to trace *)

(** X18. The scan of the names to trace for one table entry comes to a
    membership test: an entry whose name is not among them, or whose
    symbol does not resolve, changes nothing; otherwise there is one
    install at the address of the symbol, however often and wherever the
    name occurs, whose record gets the index of the entry as identifier;
    the scan reports failure only when that install returns no record. *)
Theorem traced_scan_is_membership_test s m w i name traced_syscalls :
  VF.vf_find_traced s m w i name traced_syscalls
  = if bool_decide (name ∈ traced_syscalls)
       && negb (vmi_translate_ksym2v w name =? 0)
    then
      let '(syscall_trap, s1, m1, w1) :=
        VF.vf_setup_mem_trap s m w (vmi_translate_ksym2v w name) in
      match syscall_trap with
      | None => (false, s1, m1, w1)
      | Some r => (true, VF.set_identifier (VF.addr r) i s1, m1, w1)
      end
    else (true, s, m, w).
Proof.
  induction traced_syscalls as [|t rest IH].
  - reflexivity.
  - cbn [VF.vf_find_traced]. destruct (String.eqb_spec name t) as [<-|Hne]; cbn [negb].
    + rewrite bool_decide_eq_true_2 by apply list_elem_of_here. cbn [andb].
      destruct (vmi_translate_ksym2v w name =? 0) eqn:Hz; cbn [negb]; [|reflexivity].
      rewrite IH. cbn [negb]. rewrite andb_false_r. reflexivity.
    + rewrite IH.
      replace (bool_decide (name ∈ t :: rest)) with (bool_decide (name ∈ rest));
        [reflexivity|].
      apply bool_decide_ext. rewrite elem_of_cons. tauto.
Qed.

Lemma vf_allocate_shadow_page_kv2p m w :
  kv2p (guest (snd (VF.vf_allocate_shadow_page m w))) = kv2p (guest w).
Proof.
  unfold VF.vf_allocate_shadow_page, xc_domain_setmaxmem,
    xc_domain_increase_reservation_exact, xc_domain_populate_physmap_exact,
    hypercall.
  destruct w as [g [mm faults supply res rm alt me av] tr hn cbr ind].
  cbn [xen xen_faults].
  destruct faults as [|[] faults]; cbn; auto.
  - destruct supply as [|gfn supply]; cbn; auto.
  - destruct faults as [|[] faults]; cbn; auto.
    + destruct supply as [|gfn supply]; cbn; auto.
    + destruct supply as [|gfn supply]; cbn; auto.
      destruct faults as [|[] faults]; cbn; auto.
Qed.

Lemma vf_ensure_shadow_page_known s m w fr :
  match VF.vf_ensure_shadow_page s m w fr
          (default 0 (VF.vf_page_translation s !! fr)) with
  | inr (_, _, w') => kv2p (guest w') = kv2p (guest w)
  | inl (shadow, s', _, w') =>
      kv2p (guest w') = kv2p (guest w)
      ∧ shadow ≠ 0
      ∧ default 0 (VF.vf_page_translation s' !! fr) = shadow
  end.
Proof.
  unfold VF.vf_ensure_shadow_page.
  destruct (default 0 (VF.vf_page_translation s !! fr) =? 0) eqn:Hz.
  - pose proof (vf_allocate_shadow_page_kv2p m w) as Hk.
    destruct (VF.vf_allocate_shadow_page m w) as [[shadow m1] w1]. cbn [snd] in Hk.
    destruct (shadow =? 0) eqn:Hs; [exact Hk|]. apply Z.eqb_neq in Hs.
    unfold xc_altp2m_change_gfn.
    destruct (hypercall_keeps w1) as (Hg & _).
    destruct (hypercall w1) as [[] w2]; cbn [snd] in Hg; cbn -[INVALID_GFN].
    + rewrite Hg. exact Hk.
    + destruct (shadow =? INVALID_GFN); cbn; rewrite Hg, lookup_insert_eq; auto.
  - apply Z.eqb_neq in Hz. auto.
Qed.

Lemma vf_add_paddr_record_lookup s w page shadow off :
  VF.vf_page_record_collection s !! shadow = Some page ->
  VF.children page !! off = None ->
  let '(trap, s', w') := VF.vf_add_paddr_record s w page shadow off in
  kv2p (guest w') = kv2p (guest w)
  ∧ VF.vf_page_translation s' = VF.vf_page_translation s
  ∧ ∃ r, trap = Some r
         ∧ (VF.vf_page_record_collection s' = VF.vf_page_record_collection s
            ∨ ∃ page', VF.vf_page_record_collection s' !! shadow = Some page'
                       ∧ VF.children page' !! off = Some r).
Proof.
  intros Hpage Hnone. unfold VF.vf_add_paddr_record, g_new0.
  match goal with |- context [vmi_write_8_pa ?w0 ?pa ?v] =>
    pose proof (vmi_write_8_pa_unfold w0 pa v) as Hu;
    pose proof (vmi_write_pa_kv2p w0 pa [v mod 256]) as Hk;
    destruct (vmi_write_8_pa w0 pa v) as [ok w2] end.
  injection Hu as _ ->. cbn in Hk.
  destruct ok; cbn [negb].
  - split; [exact Hk|]. split; [reflexivity|]. eexists. split; [reflexivity|].
    right. eexists. cbn. rewrite lookup_insert_eq. split; [reflexivity|].
    cbn. apply lookup_insert_eq.
  - split; [exact Hk|]. split; [reflexivity|]. eexists. split; [reflexivity|].
    left. reflexivity.
Qed.

Lemma vf_install_lookup s m w va :
  let '(trap, s', _, w') := VF.vf_setup_mem_trap s m w va in
  ∀ r, trap = Some r ->
       VF.vf_paddr_record_from_va s' w' va = Some r
       ∨ VF.vf_paddr_record_from_va s' w' va = None.
Proof.
  unfold VF.vf_setup_mem_trap, VF.vf_paddr_record_from_va, VF.vf_paddr_record_from_pa.
  change VF.VF_PAGE_OFFSET_BITS with GT_PAGE_OFFSET_BITS.
  change VF.VF_PAGE_SIZE with GT_PAGE_SIZE.
  destruct (vmi_translate_kv2p w va =? 0); [discriminate|].
  unfold vmi_translate_kv2p.
  set (pa := kv2p (guest w) va).
  set (fr := Z.shiftr pa _). set (off := pa mod _).
  pose proof (vf_ensure_shadow_page_known s m w fr) as He.
  destruct (VF.vf_ensure_shadow_page s m w fr _) as [[[[shadow s1] m1] w1]|[[s1 m1] w1]];
    [|discriminate].
  destruct He as (Hk & Hnz & Htr). apply Z.eqb_neq in Hnz.
  destruct (VF.vf_page_record_collection s1 !! shadow) as [page|] eqn:Hpage.
  - destruct (VF.children page !! off) as [r'|] eqn:Hchild.
    + intros r [= <-]. left. rewrite Hk. fold pa fr off.
      rewrite Htr, Hnz, Hpage. exact Hchild.
    + pose proof (vf_add_paddr_record_lookup s1 w1 page shadow off Hpage Hchild) as Ha.
      destruct (VF.vf_add_paddr_record s1 w1 page shadow off) as [[trap s3] w4].
      destruct Ha as (Hk4 & Ht4 & r0 & -> & Hcase).
      intros r [= <-]. rewrite Hk4, Hk. fold pa fr off. rewrite Ht4, Htr, Hnz.
      destruct Hcase as [->|(page' & -> & ->)]; [|left; reflexivity].
      rewrite Hpage, Hchild. right. reflexivity.
  - destruct (negb _); [discriminate|].
    match goal with |- context [vmi_write_pa ?w0 ?a ?b] =>
      pose proof (vmi_write_pa_kv2p w0 a b) as Hk2;
      destruct (vmi_write_pa w0 a b) as [ret w2] end.
    cbn [snd] in Hk2.
    destruct (negb _); [discriminate|].
    match goal with |- context [VF.vf_add_paddr_record ?s2 ?w3 ?pg _ _] =>
      pose proof (vf_add_paddr_record_lookup s2 w3 pg shadow off) as Ha;
      destruct (VF.vf_add_paddr_record s2 w3 pg shadow off) as [[trap s3] w4] end.
    destruct Ha as (Hk4 & Ht4 & r0 & -> & Hcase).
    { cbn. apply lookup_insert_eq. }
    { reflexivity. }
    intros r [= <-]. rewrite Hk4. cbn [guest vmi_set_mem_event set_xen].
    rewrite Hk2, Hk. fold pa fr off. rewrite Ht4.
    cbn [VF.vf_page_translation VF.set_page_record_collection].
    rewrite Htr, Hnz.
    destruct Hcase as [->|(page' & -> & ->)]; [|left; reflexivity].
    cbn. rewrite lookup_insert_eq. cbn. rewrite lookup_empty. right. reflexivity.
Qed.

Lemma set_identifier_lookup p i s w va :
  VF.vf_paddr_record_from_va (VF.set_identifier p i s) w va
  = (λ r, if VF.addr r =? p
          then VF.mkPaddr (VF.addr r) (VF.offset r) (VF.parent r) (i mod 2 ^ 16)
          else r)
    <$> VF.vf_paddr_record_from_va s w va.
Proof.
  unfold VF.vf_paddr_record_from_va, VF.vf_paddr_record_from_pa, VF.set_identifier.
  cbn [VF.vf_page_translation VF.vf_page_record_collection].
  destruct (_ =? 0); [reflexivity|].
  rewrite lookup_fmap.
  destruct (VF.vf_page_record_collection s !! _) as [page|]; [|reflexivity].
  cbn. rewrite lookup_fmap. reflexivity.
Qed.

(** X19. After the scan for table entry [i], whose name is to be traced
    and resolves, has succeeded, the record found at the address of the
    symbol carries the index [i] (as a 16-bit value) as its identifier. *)
Theorem traced_entry_gets_its_index s m w i name traced_syscalls :
  name ∈ traced_syscalls ->
  vmi_translate_ksym2v w name ≠ 0 ->
  let '(ok, s', _, w') := VF.vf_find_traced s m w i name traced_syscalls in
  ok = true ->
  ∀ r, VF.vf_paddr_record_from_va s' w' (vmi_translate_ksym2v w name) = Some r ->
       VF.identifier r = i mod 2 ^ 16.
Proof.
  intros Hin Hsym. induction traced_syscalls as [|t rest IH].
  - apply elem_of_nil in Hin. contradiction.
  - cbn [VF.vf_find_traced].
    destruct (String.eqb_spec name t) as [<-|Hne]; cbn [negb].
    + apply Z.eqb_neq in Hsym. rewrite Hsym.
      pose proof (vf_install_lookup s m w (vmi_translate_ksym2v w name)) as Hl.
      destruct (VF.vf_setup_mem_trap s m w _) as [[[[r0|] s1] m1] w1];
        [|discriminate].
      intros _ r. rewrite set_identifier_lookup.
      destruct (Hl r0 eq_refl) as [-> | ->]; [|discriminate].
      cbn. rewrite Z.eqb_refl. intros [= <-]. reflexivity.
    + apply IH. apply elem_of_cons in Hin as [?|?]; [contradiction|assumption].
Qed.

(** ** The teardown of the identifier-based tracer *)

Lemma vf_destroy_paddr_record_xen page w r :
  xen (VF.vf_destroy_paddr_record page w r) = xen w
  ∧ kv2p (guest (VF.vf_destroy_paddr_record page w r)) = kv2p (guest w)
  ∧ extends w (VF.vf_destroy_paddr_record page w r).
Proof.
  unfold VF.vf_destroy_paddr_record, VF.vf_remove_breakpoint.
  destruct (vmi_read_8_pa _ _); [|repeat apply conj; try reflexivity; apply extends_refl].
  rewrite vmi_write_8_pa_unfold. cbn [snd]. repeat apply conj.
  - apply vmi_write_pa_xen.
  - apply vmi_write_pa_kv2p.
  - apply vmi_write_pa_extends.
Qed.

Lemma vf_destroy_page_record_keeps s w page pa :
  (∀ i, 0 <= i < 8 ->
        Z.shiftr (pa + i) GT_PAGE_OFFSET_BITS ≠ VF.shadow_page page) ->
  valid_prefix (VF.vf_destroy_page_record s w page) pa 8 = valid_prefix w pa 8
  ∧ kv2p (guest (VF.vf_destroy_page_record s w page)) = kv2p (guest w)
  ∧ extends w (VF.vf_destroy_page_record s w page).
Proof.
  intros Hclear. unfold VF.vf_destroy_page_record.
  set (w1 := destroy_values _ _ w).
  assert (H1 : xen w1 = xen w ∧ kv2p (guest w1) = kv2p (guest w) ∧ extends w w1).
  { subst w1. unfold destroy_values.
    generalize (map snd (map_to_list (VF.children page))). intros rs. revert w.
    induction rs as [|r rs IH]; intros w; cbn [foldl].
    - repeat apply conj; try reflexivity. apply extends_refl.
    - destruct (vf_destroy_paddr_record_xen page w r) as (Hx & Hk & He).
      destruct (IH (VF.vf_destroy_paddr_record page w r)) as (Hx' & Hk' & He').
      repeat apply conj; [congruence|congruence|].
      eapply extends_trans; eassumption. }
  destruct H1 as (Hx1 & Hk1 & He1).
  set (w2 := vmi_set_mem_event w1 _ _ _).
  unfold xc_domain_decrease_reservation_exact, xc_altp2m_change_gfn.
  destruct (hypercall_keeps w2) as (Hg3 & Hr3 & _).
  pose proof (hypercall_trace w2) as Ht3.
  destruct (hypercall w2) as [f3 w3]. cbn [snd] in Hg3, Hr3, Ht3.
  change (INVALID_GFN =? INVALID_GFN) with true. cbv iota.
  set (w3' := snd (if f3 then (-1, w3)
                   else (0, set_xen (fun x => set_altp2m
                              (delete (VF.shadow_page page) (altp2m x)) x) w3))).
  assert (H3 : guest w3' = guest w1 ∧ ram (xen w3') = ram (xen w) ∧ trace w3' = trace w1).
  { subst w3'. destruct f3; cbn; rewrite Hg3, Hr3, Ht3;
      subst w2; cbn; rewrite Hx1; auto. }
  destruct H3 as (Hg3' & Hr3' & Ht3'). clearbody w3'.
  destruct (hypercall_keeps w3') as (Hg4 & Hr4 & _).
  pose proof (hypercall_trace w3') as Ht4.
  destruct (hypercall w3') as [f4 w4]. cbn [snd] in Hg4, Hr4, Ht4.
  assert (Hv : ∀ w5, ram (xen w5) = ram (xen w)
                      ∨ ram (xen w5) = ram (xen w) ∖ {[VF.shadow_page page]} ->
                valid_prefix w5 pa 8 = valid_prefix w pa 8).
  { intros w5 Hram. apply valid_prefix_agree. intros i Hi. unfold valid_pa.
    apply bool_decide_ext. destruct Hram as [->| ->]; [tauto|].
    rewrite elem_of_difference, elem_of_singleton.
    specialize (Hclear i ltac:(lia)). tauto. }
  destruct f4; cbn [snd].
  - repeat apply conj.
    + apply Hv. left. congruence.
    + congruence.
    + destruct He1 as [t Ht]. exists t. congruence.
  - repeat apply conj.
    + apply Hv. right. cbn. congruence.
    + cbn. congruence.
    + destruct He1 as [t Ht]. exists t. cbn. congruence.
Qed.

Lemma vf_restore_return_addr_keeps s w va :
  xen (VF.vf_restore_return_addr s w va) = xen w
  ∧ kv2p (guest (VF.vf_restore_return_addr s w va)) = kv2p (guest w)
  ∧ extends w (VF.vf_restore_return_addr s w va).
Proof.
  unfold VF.vf_restore_return_addr. repeat apply conj.
  - apply vmi_write_64_pa_xen.
  - apply vmi_write_64_pa_kv2p.
  - apply vmi_write_64_pa_extends.
Qed.

Lemma vf_drain_writes_every_slot s (keys : list Z) w tid :
  tid ∈ keys ->
  valid_prefix w (vmi_translate_kv2p w tid) 8 = 8%nat ->
  EWrite (vmi_translate_kv2p w tid) (le_bytes 8 (VF.return_point_addr s))
  ∈ trace (foldl (VF.vf_restore_return_addr s) w keys).
Proof.
  revert w. induction keys as [|k keys IH]; intros w Hin Hv.
  - apply elem_of_nil in Hin. contradiction.
  - cbn [foldl]. destruct (vf_restore_return_addr_keeps s w k) as (Hx & Hk & He).
    apply elem_of_cons in Hin as [->|Hin].
    + eapply extends_elem.
      * apply foldl_extends. intros w0 v. apply (vf_restore_return_addr_keeps s w0 v).
      * unfold VF.vf_restore_return_addr.
        rewrite vmi_write_64_pa_complete by exact Hv. apply list_elem_of_here.
    + assert (Hsame : vmi_translate_kv2p (VF.vf_restore_return_addr s w k) tid
                      = vmi_translate_kv2p w tid)
        by (unfold vmi_translate_kv2p; rewrite Hk; reflexivity).
      rewrite <- Hsame. apply IH; [exact Hin|].
      rewrite Hsame, (valid_prefix_xen w); [exact Hv|exact Hx].
Qed.

(** A slot that holds the return point holds it after the slot of
    another thread is restored, when the two do not overlap in part. *)
Lemma vf_restore_keeps_slot s w pa va :
  vmi_read_64_pa w pa = Some (wrap64 (VF.return_point_addr s)) ->
  vf_slot_apart pa w va ->
  vmi_read_64_pa (VF.vf_restore_return_addr s w va) pa
  = Some (wrap64 (VF.return_point_addr s)).
Proof.
  intros Hheld [Hsame|Hclear]; unfold VF.vf_restore_return_addr.
  - rewrite Hsame. apply vmi_write_64_pa_read_back.
    apply (vmi_read_64_pa_backed w pa _ Hheld).
  - rewrite vmi_write_64_pa_elsewhere by exact Hclear. exact Hheld.
Qed.

Lemma vf_drain_restores_slot s pa (keys : list Z) w :
  valid_prefix w pa 8 = 8%nat ->
  Forall (vf_slot_apart pa w) keys ->
  vmi_read_64_pa w pa = Some (wrap64 (VF.return_point_addr s))
  ∨ (∃ va, va ∈ keys ∧ vmi_translate_kv2p w va = pa) ->
  vmi_read_64_pa (foldl (VF.vf_restore_return_addr s) w keys) pa
  = Some (wrap64 (VF.return_point_addr s)).
Proof.
  revert w. induction keys as [|k keys IH]; intros w Hv Hall Hcase.
  - destruct Hcase as [Hheld|(va & Hin & _)]; [exact Hheld|].
    apply elem_of_nil in Hin. contradiction.
  - cbn [foldl]. apply Forall_cons in Hall as [Hk Hall].
    destruct (vf_restore_return_addr_keeps s w k) as (Hx & Hkv & _).
    assert (Hsame : ∀ va, vmi_translate_kv2p (VF.vf_restore_return_addr s w k) va
                          = vmi_translate_kv2p w va)
      by (intros va; unfold vmi_translate_kv2p; rewrite Hkv; reflexivity).
    apply IH.
    + rewrite (valid_prefix_xen w); [exact Hv|exact Hx].
    + eapply Forall_impl; [exact Hall|]. intros va Hva.
      unfold vf_slot_apart in *. rewrite Hsame. exact Hva.
    + destruct (Z.eq_dec (vmi_translate_kv2p w k) pa) as [Hhere|Hnot].
      * left. unfold VF.vf_restore_return_addr. rewrite Hhere.
        apply vmi_write_64_pa_read_back, Hv.
      * destruct Hcase as [Hheld|(va & Hin & Hva)].
        -- left. apply vf_restore_keeps_slot; assumption.
        -- right. exists va. apply elem_of_cons in Hin as [->|Hin];
             [contradiction|]. split; [exact Hin|]. rewrite Hsame. exact Hva.
Qed.

(** The four hypercalls that end the teardown leave guest memory and the
    backed frames as they are. *)
Lemma vf_teardown_tail_keeps_slot s m pa w :
  keeps_slot pa w
    (snd (xc_domain_setmaxmem
            (snd (xc_altp2m_set_domain_state
                    (snd (xc_altp2m_destroy_view
                            (snd (xc_altp2m_switch_to_view w 0))
                            (VF.shadow_view s)))
                    false))
            (VF.init_mem_size m))).
Proof.
  set (w3 := snd (xc_altp2m_switch_to_view w 0)).
  assert (H3 : keeps_slot pa w w3).
  { subst w3. unfold xc_altp2m_switch_to_view.
    pose proof (hypercall_keeps_slot pa w) as Hh.
    destruct (hypercall w) as [[] w']; cbn [snd] in *; [exact Hh|].
    eapply keeps_slot_trans; [exact Hh|apply keeps_slot_same; reflexivity]. }
  set (w4 := snd (xc_altp2m_destroy_view w3 _)).
  assert (H4 : keeps_slot pa w3 w4).
  { subst w4. unfold xc_altp2m_destroy_view.
    pose proof (hypercall_keeps_slot pa w3) as Hh.
    destruct (hypercall w3) as [f w']. exact Hh. }
  set (w5 := snd (xc_altp2m_set_domain_state w4 _)).
  assert (H5 : keeps_slot pa w4 w5).
  { subst w5. unfold xc_altp2m_set_domain_state.
    pose proof (hypercall_keeps_slot pa w4) as Hh.
    destruct (hypercall w4) as [f w']. exact Hh. }
  eapply keeps_slot_trans; [exact H3|].
  eapply keeps_slot_trans; [exact H4|].
  eapply keeps_slot_trans; [exact H5|].
  unfold xc_domain_setmaxmem. pose proof (hypercall_keeps_slot pa w5) as Hh.
  destruct (hypercall w5) as [[] w']; cbn [snd] in *; [exact Hh|].
  eapply keeps_slot_trans; [exact Hh|apply keeps_slot_same; reflexivity].
Qed.

(** X20. The teardown of the identifier-based tracer puts the return
    point back into the stack slot of every thread it tracks, when the
    slot is backed and lies in no shadow page: the word is written at the
    translation of the thread id, and is what the slot holds afterwards
    when the slots of the threads tracked do not overlap in part.  The
    translation is not checked, so that for a thread id that does not
    translate the word goes to physical address 0. *)
Theorem teardown_restores_return_slots s m w tid r :
  VF.vf_ret_addr_mapping s !! tid = Some r ->
  let pa := vmi_translate_kv2p w tid in
  valid_prefix w pa 8 = 8%nat ->
  map_Forall
    (λ _ page, ∀ i, 0 <= i < 8 ->
                    Z.shiftr (pa + i) GT_PAGE_OFFSET_BITS ≠ VF.shadow_page page)
    (VF.vf_page_record_collection s) ->
  EWrite pa (le_bytes 8 (VF.return_point_addr s))
  ∈ trace (VF.vf_teardown_state s m w)
  ∧ (map_Forall (λ va _, vf_slot_apart pa w va) (VF.vf_ret_addr_mapping s) ->
     vmi_read_64_pa (VF.vf_teardown_state s m w) pa
     = Some (wrap64 (VF.return_point_addr s))).
Proof.
  intros Hin pa Hv Hclear. unfold VF.vf_teardown_state.
  set (w1 := destroy_values _ _ w).
  assert (H1 : valid_prefix w1 pa 8 = valid_prefix w pa 8
               ∧ kv2p (guest w1) = kv2p (guest w)).
  { subst w1. unfold destroy_values.
    assert (Hall : Forall (λ page, ∀ i, 0 <= i < 8 ->
                     Z.shiftr (pa + i) GT_PAGE_OFFSET_BITS ≠ VF.shadow_page page)
                     (map snd (map_to_list (VF.vf_page_record_collection s)))).
    { apply Forall_forall. intros page Hp.
      apply list_elem_of_fmap in Hp as ([k page'] & -> & Hp).
      apply elem_of_map_to_list in Hp. exact (Hclear _ _ Hp). }
    generalize w. induction Hall as [|page pages Hp _ IH]; intros w0; cbn [foldl].
    - auto.
    - destruct (vf_destroy_page_record_keeps s w0 page pa Hp) as (Hv' & Hk' & _).
      destruct (IH (VF.vf_destroy_page_record s w0 page)) as (Hv'' & Hk'').
      split; congruence. }
  destruct H1 as (Hv1 & Hk1).
  assert (Hsame : ∀ va, vmi_translate_kv2p w1 va = vmi_translate_kv2p w va)
    by (intros va; unfold vmi_translate_kv2p; rewrite Hk1; reflexivity).
  assert (Hkey : tid ∈ map fst (map_to_list (VF.vf_ret_addr_mapping s))).
  { apply list_elem_of_fmap. exists (tid, r). split; [reflexivity|].
    apply elem_of_map_to_list. exact Hin. }
  split.
  - rewrite xc_domain_setmaxmem_trace, xc_altp2m_set_domain_state_trace,
      xc_altp2m_destroy_view_trace, xc_altp2m_switch_to_view_trace.
    unfold pa. rewrite <- (Hsame tid). apply vf_drain_writes_every_slot.
    + exact Hkey.
    + rewrite Hsame. fold pa. rewrite Hv1. exact Hv.
  - intros Hslots.
    set (w2 := foldl _ w1 _).
    assert (H2 : vmi_read_64_pa w2 pa = Some (wrap64 (VF.return_point_addr s))).
    { subst w2. apply vf_drain_restores_slot.
      - rewrite Hv1. exact Hv.
      - apply Forall_forall. intros va Hva.
        apply list_elem_of_fmap in Hva as ([k r'] & -> & Hva).
        apply elem_of_map_to_list in Hva. specialize (Hslots _ _ Hva).
        unfold vf_slot_apart in *. cbn [fst]. rewrite Hsame. exact Hslots.
      - right. exists tid. split; [exact Hkey|apply Hsame]. }
    rewrite <- H2. apply keeps_slot_read, vf_teardown_tail_keeps_slot.
Qed.

(** ** The properties on the example guest *)

Ltac close_computed :=
  lazymatch goal with
  | |- _ ∧ _ => split; close_computed
  | |- _ = _ => reflexivity
  | |- _ => let H := fresh in intro H; discriminate H
  end.

Ltac by_computation := vm_compute; close_computed.

Lemma ex_loop_tables_ok : tables_ok ex_loop.
Proof. unfold tables_ok, ex_loop. cbn. repeat apply conj; apply map_Forall_empty. Qed.

(** The tables after [sys_open] is trapped, after a thread has entered
    it, and after quit. *)
Lemma tables_stay_well_formed_witness :
  tables_ok ex_loop1
  ∧ tables_ok ex_loop2
  ∧ tables_ok (fst (gt_loop_quit ex_loop2 ex_world2)).
Proof.
  destruct (tables_stay_well_formed ex_loop (ex_world []) ex_loop_tables_ok)
    as (Hinstall & _).
  assert (H1 : tables_ok ex_loop1) by apply (Hinstall ex_va 7 8 9).
  destruct (tables_stay_well_formed ex_loop1 ex_world1 H1) as (_ & _ & Hserve & _).
  assert (H2 : tables_ok ex_loop2) by apply (Hserve ex_call_event).
  destruct (tables_stay_well_formed ex_loop2 ex_world2 H2) as (_ & _ & _ & Hquit).
  auto.
Defined.

(** Trapping [sys_read] leaves the record of [sys_open] in place. *)
Lemma install_keeps_registrations_witness :
  let done := gt_setup_mem_trap ex_loop1 ex_world1 ex_va_read 4 5 6 in
  gt_paddr_record_from_va (snd (fst done)) (snd done) ex_va = Some ex_record.
Proof.
  apply (install_keeps_registrations ex_loop1 ex_world1 ex_va_read 4 5 6 ex_va
           ex_record).
  by_computation.
Defined.

(** The thread enters [sys_open] and returns. *)
Lemma call_then_return_round_trip_witness :
  let '(_, _, l1, w1) := gt_breakpoint_cb ex_loop1 ex_world1 ex_call_event in
  let '(_, _, l2, w2) := gt_breakpoint_cb l1 w1 ex_return_event in
  vmi_read_64_pa w1 0xa5f3e00 = Some ex_trampoline_addr
  ∧ l2 = ex_loop1
  ∧ vmi_read_64_pa w2 0xa5f3e00 = Some ex_return_addr
  ∧ rip (guest w2) !! 0 = Some ex_return_addr.
Proof.
  pose proof (call_then_return_round_trip ex_loop1 ex_world1 ex_call_event
                ex_return_event ex_record
                ltac:(by_computation) ltac:(by_computation) ltac:(by_computation)
                ltac:(by_computation) ltac:(by_computation) ltac:(by_computation)
                ltac:(by_computation)) as H.
  cbv zeta in H.
  destruct (gt_breakpoint_cb ex_loop1 ex_world1 ex_call_event) as [[[? ?] l1] w1].
  destruct (gt_breakpoint_cb l1 w1 ex_return_event) as [[[? ?] l2] w2].
  destruct H as (H1 & H2 & H3 & H4 & _).
  repeat apply conj; assumption.
Defined.

(** The trampoline of the example guest. *)
Lemma trampoline_answer_is_sound_witness :
  ∃ i, gt_find_trampoline_addr (ex_world []) = wrap64 (0xffffffff81800000 + i)
       ∧ byte_at (ex_world []) (0x1800000 + i) = GT_BREAKPOINT_INST.
Proof.
  destruct (trampoline_answer_is_sound (ex_world [])) as
    (lstar & i & Hmsr & _ & _ & _ & Heq & _ & Hbyte & _).
  { by_computation. }
  injection Hmsr as <-. exists i. split; [exact Heq|exact Hbyte].
Defined.

Lemma ex_installed_eq :
  gt_setup_mem_trap ex_loop (ex_world []) ex_va 7 8 9
  = (Some ex_record, ex_loop1, ex_world1).
Proof.
  assert (H : fst (fst ex_installed) = Some ex_record) by by_computation.
  unfold ex_loop1, ex_world1. rewrite <- H. unfold ex_installed.
  destruct (gt_setup_mem_trap _ _ _ _ _ _) as [[r l] w]. reflexivity.
Qed.

(** [sys_open] trapped on the example guest: the shadow frame 0x40000
    holds the breakpoint at offset 0x100 and the bytes of frame 0x1200
    elsewhere, here at offset 0x101. *)
Lemma install_builds_shadow_copy_witness :
  gt_paddr_record_from_va ex_loop1 ex_world1 ex_va = Some ex_record
  ∧ altp2m (xen ex_world1) !! 0x1200 = Some 0x40000
  ∧ byte_at ex_world1 (0x40000 * GT_PAGE_SIZE + 0x100) = GT_BREAKPOINT_INST
  ∧ byte_at ex_world1 (0x40000 * GT_PAGE_SIZE + 0x101)
    = byte_at (ex_world []) (0x1200 * GT_PAGE_SIZE + 0x101)
  ∧ byte_at ex_world1 0xa5f3e00 = byte_at (ex_world []) 0xa5f3e00.
Proof.
  destruct (install_builds_shadow_copy ex_loop (ex_world []) ex_va 7 8 9
              ex_record ex_loop1 ex_world1 ex_loop_tables_ok
              ltac:(by_computation) ltac:(by_computation) ex_installed_eq
              ltac:(by_computation) ltac:(by_computation))
    as (Hreg & _ & _ & Halt & _ & Hcopy & Hrest).
  repeat apply conj.
  - exact Hreg.
  - rewrite Halt. by_computation.
  - etransitivity; [exact (Hcopy 0x100 ltac:(by_computation))|by_computation].
  - etransitivity; [exact (Hcopy 0x101 ltac:(by_computation))|by_computation].
  - exact (Hrest 0xa5f3e00 ltac:(by_computation)).
Defined.

(** The ceiling of the example guest after [sys_open] is trapped. *)
Lemma memory_ceiling_tracks_allocations_witness :
  curr_mem_size ex_loop1 = maxmem (xen ex_world1)
  ∧ (maxmem (xen ex_world1) = maxmem (xen (ex_world []))
     ∨ maxmem (xen ex_world1)
       = wrap64 (maxmem (xen (ex_world [])) + GT_PAGE_SIZE)).
Proof.
  apply (memory_ceiling_tracks_allocations ex_loop (ex_world []) ex_va 7 8 9).
  by_computation.
Defined.

Lemma ex_same_traps : same_traps ex_loop ex_vf_state ex_vf_mem.
Proof. split; [|split; [|split]]; by_computation. Qed.

(** Both tracers trap [sys_open] on the example guest. *)
Lemma installs_agree_witness :
  let '(r, l', w1) := gt_setup_mem_trap ex_loop (ex_world []) ex_va 7 8 9 in
  let '(r', s', m', w2) :=
    VF.vf_setup_mem_trap ex_vf_state ex_vf_mem (ex_world []) ex_va in
  w2 = w1
  ∧ same_traps l' s' m'
  ∧ (λ r, (addr r, offset r, parent r)) <$> r
    = (λ r, (VF.addr r, VF.offset r, VF.parent r)) <$> r'.
Proof.
  apply (installs_agree ex_loop ex_vf_state ex_vf_mem (ex_world []) ex_va 7 8 9).
  exact ex_same_traps.
Defined.

(** The scan for table entry 2, [sys_open], leaves identifier 2 at
    [sys_open]. *)
Lemma traced_entry_gets_its_index_witness :
  let '(ok, s', _, w') :=
    VF.vf_find_traced ex_vf_state ex_vf_mem (ex_world []) 2 "sys_open"
                      ["sys_close"; "sys_open"] in
  ok = true
  ∧ ∃ r, VF.vf_paddr_record_from_va s' w' ex_va = Some r ∧ VF.identifier r = 2.
Proof.
  pose proof (traced_entry_gets_its_index ex_vf_state ex_vf_mem (ex_world []) 2
                "sys_open" ["sys_close"; "sys_open"]) as H.
  destruct (VF.vf_find_traced _ _ _ _ _ _) as [[[ok s'] m'] w'] eqn:Hrun.
  assert (Hok : ok = true).
  { assert (Ho : ok = fst (fst (fst (VF.vf_find_traced ex_vf_state ex_vf_mem
                    (ex_world []) 2 "sys_open" ["sys_close"; "sys_open"]))))
      by (rewrite Hrun; reflexivity).
    rewrite Ho. by_computation. }
  split; [exact Hok|].
  assert (Hfound : VF.vf_paddr_record_from_va s' w' ex_va
                   = Some (VF.mkPaddr 0x5000 0x100 0x40000 2)).
  { assert (Hs : s' = snd (fst (fst (VF.vf_find_traced ex_vf_state ex_vf_mem
                    (ex_world []) 2 "sys_open" ["sys_close"; "sys_open"]))))
      by (rewrite Hrun; reflexivity).
    assert (Hw : w' = snd (VF.vf_find_traced ex_vf_state ex_vf_mem
                    (ex_world []) 2 "sys_open" ["sys_close"; "sys_open"]))
      by (rewrite Hrun; reflexivity).
    rewrite Hs, Hw. by_computation. }
  eexists. split; [exact Hfound|].
  apply (H ltac:(apply list_elem_of_further, list_elem_of_here)
           ltac:(by_computation) Hok _ Hfound).
Defined.

(** The identifier-based tracer is torn down while the thread is inside
    [sys_open]. *)
Lemma teardown_restores_return_slots_witness :
  EWrite 0xa5f3e00 (le_bytes 8 ex_return_addr)
  ∈ trace (VF.vf_teardown_state ex_vf_state2 ex_vf_mem ex_world2)
  ∧ vmi_read_64_pa ex_world2 0xa5f3e00 = Some ex_trampoline_addr
  ∧ vmi_read_64_pa (VF.vf_teardown_state ex_vf_state2 ex_vf_mem ex_world2) 0xa5f3e00
    = Some ex_return_addr.
Proof.
  assert (Hpa : vmi_translate_kv2p ex_world2 ex_stack = 0xa5f3e00) by by_computation.
  pose proof (teardown_restores_return_slots ex_vf_state2 ex_vf_mem ex_world2
                ex_stack ex_vf_record) as H.
  cbv zeta in H. rewrite Hpa in H.
  destruct H as (Htrace & Hread).
  - by_computation.
  - by_computation.
  - apply map_Forall_singleton. intros i Hi. rewrite ex_slot_frame by exact Hi.
    by_computation.
  - split; [exact Htrace|]. split; [by_computation|]. apply Hread.
    apply map_Forall_singleton. left. exact Hpa.
Defined.

(** The install of [sys_open] has registered the record it returned. *)
Lemma install_registers_record_witness :
  gt_paddr_record_from_va ex_loop1 ex_world1 ex_va = Some ex_record
  ∨ valid_pa ex_world1 (shadow_byte_pa ex_record) = false.
Proof.
  apply (install_registers_record ex_loop (ex_world []) ex_va 7 8 9 ex_record).
  by_computation.
Defined.

(** The thread enters [sys_open]: the entry callback 7 runs with process
    id 7 and payload 9, and its answer 16 is kept. *)
Lemma call_site_trap_records_entry_witness :
  let '(response, event', l', w') :=
    gt_breakpoint_cb ex_loop1 ex_world1 ex_call_event in
  response = response_or VMI_EVENT_RESPONSE_TOGGLE_SINGLESTEP
                         VMI_EVENT_RESPONSE_VMM_PAGETABLE_ID
  ∧ event' = set_slat_id 0 (set_reinject 0 ex_call_event)
  ∧ gt_ret_addr_mapping l'
    = <[ex_stack := mkState ex_record 16 ex_stack]> (gt_ret_addr_mapping ex_loop1)
  ∧ ESyscallCb 7 7 ex_stack 9 ∈ trace w'
  ∧ vmi_read_64_pa w' 0xa5f3e00 = Some ex_trampoline_addr.
Proof.
  apply (call_site_trap_records_entry ex_loop1 ex_world1 ex_call_event ex_record);
    by_computation.
Defined.

(** Quit while the thread is inside [sys_open]: its stack slot holds the
    return address again. *)
Lemma quit_leaves_return_addr_in_slots_witness :
  vmi_read_64_pa (snd (gt_loop_quit ex_loop2 ex_world2)) 0xa5f3e00
  = Some ex_return_addr.
Proof.
  assert (Hmap : gt_ret_addr_mapping ex_loop2
                 = {[ ex_stack := mkState ex_record 16 ex_stack ]}) by by_computation.
  assert (Hcol : gt_page_record_collection ex_loop2
                 = {[ 0x40000 := mkPage 0x1200 0x40000 {[ 0x100 := ex_record ]} ]})
    by by_computation.
  assert (Hpa : vmi_translate_kv2p ex_world2 ex_stack = 0xa5f3e00) by by_computation.
  pose proof (quit_leaves_return_addr_in_slots ex_loop2 ex_world2 ex_stack
                (mkState ex_record 16 ex_stack)) as H.
  cbv zeta in H. cbn [thread_id] in H. rewrite Hpa, Hmap, Hcol in H. apply H.
  - apply lookup_singleton_eq.
  - discriminate.
  - by_computation.
  - apply map_Forall_singleton. left. exact Hpa.
  - apply map_Forall_singleton. split.
    + intros i Hi. rewrite ex_slot_frame by exact Hi. by_computation.
    + apply map_Forall_singleton. right. by_computation.
Defined.
